(** * DHDK: journal / taxonomy reconciliation engine

    A shallow embedding of the Python package [project] (modules
    [repositories], [models], [query_handlers] and [engine]) together with
    the properties of its specification.

    Conventions of the embedding.
    - A Python [str] is a [string]; its characters are the 8-bit characters
      of [ascii], on which [str.strip], [str.lower] and the character class
      [[0-9a-z]] act as Python does on the ASCII range.
    - [None] or a value is an [option].
    - A Python [dict] and an [OrderedDict] keep insertion order: they are
      association lists with unique keys ([odict]).
    - A Python [set] of strings is a [gset string]; it is iterated through
      [elements].
    - Objects that are shared and mutated ([Category], [Area]) live in a
      [Heap] and are named by their index in it.
    - A raised exception is the [Raise] case of [outcome]. *)

From Stdlib Require Import Ascii String.
From stdpp Require Import base option list strings gmap sets.

Local Open Scope string_scope.
Local Open Scope list_scope.

(** ** Python strings *)

Module Py.

(** [str.isspace] on the ASCII range: TAB..CR, FS..US and the blank. *)
Definition is_space (c : ascii) : bool :=
  let n := nat_of_ascii c in
  ((9 <=? n)%nat && (n <=? 13)%nat)
  || ((28 <=? n)%nat && (n <=? 31)%nat)
  || (n =? 32)%nat.

Fixpoint lstrip (s : string) : string :=
  match s with
  | EmptyString => EmptyString
  | String c s' => if is_space c then lstrip s' else s
  end.

Fixpoint rstrip (s : string) : string :=
  match s with
  | EmptyString => EmptyString
  | String c s' =>
      match rstrip s' with
      | EmptyString => if is_space c then EmptyString else String c EmptyString
      | r => String c r
      end
  end.

(** [s.strip()] *)
Definition strip (s : string) : string := rstrip (lstrip s).

Definition is_upper (c : ascii) : bool :=
  let n := nat_of_ascii c in (65 <=? n)%nat && (n <=? 90)%nat.

Definition lower_char (c : ascii) : ascii :=
  if is_upper c then ascii_of_nat (nat_of_ascii c + 32) else c.

(** [s.lower()] *)
Fixpoint lower (s : string) : string :=
  match s with
  | EmptyString => EmptyString
  | String c s' => String (lower_char c) (lower s')
  end.

(** [s.replace("-", "")] *)
Fixpoint remove_hyphens (s : string) : string :=
  match s with
  | EmptyString => EmptyString
  | String c s' =>
      if Ascii.eqb c "-"%char then remove_hyphens s' else String c (remove_hyphens s')
  end.

(** Truth value of a string: the empty string is false. *)
Definition truthy (s : string) : bool := negb (String.eqb s "").

(** Truth value of an optional string: [None] and [""] are false. *)
Definition truthy_opt (o : option string) : bool :=
  match o with
  | None => false
  | Some s => truthy s
  end.

(** [value or ""] *)
Definition or_empty (o : option string) : string :=
  match o with
  | Some s => if truthy s then s else ""
  | None => ""
  end.

(** The characters of a string, for statements about them. *)
Fixpoint chars (s : string) : list ascii :=
  match s with
  | EmptyString => []
  | String c s' => c :: chars s'
  end.

End Py.

(** ** Insertion-ordered dictionaries *)

Section odict.
Context {V : Type}.

Definition odict := list (string * V).

(** [d.get(k)] *)
Fixpoint od_get (k : string) (d : odict) : option V :=
  match d with
  | [] => None
  | (k', v) :: d' => if String.eqb k k' then Some v else od_get k d'
  end.

(** [k in d] *)
Definition od_mem (k : string) (d : odict) : bool :=
  match od_get k d with Some _ => true | None => false end.

(** [d.setdefault(k, v)], as the dictionary it leaves behind. *)
Definition od_setdefault (k : string) (v : V) (d : odict) : odict :=
  if od_mem k d then d else d ++ [(k, v)].

Definition od_keys (d : odict) : list string := d.*1.
Definition od_values (d : odict) : list V := d.*2.
End odict.

Arguments odict V : clear implicits.

(** ** [repositories._normalise_identifier] *)

(** The character class [[0-9a-z]]. *)
Definition in_09az (c : ascii) : bool :=
  let n := nat_of_ascii c in
  ((48 <=? n)%nat && (n <=? 57)%nat) || ((97 <=? n)%nat && (n <=? 122)%nat).

(** [re.sub(r"[^0-9a-z]+", "", s)]: every maximal run of characters outside
    the class is replaced by the empty string. *)
Fixpoint re_sub_non_09az (s : string) : string :=
  match s with
  | EmptyString => EmptyString
  | String c s' =>
      if in_09az c then String c (re_sub_non_09az s') else re_sub_non_09az s'
  end.

Definition _normalise_identifier (value : option string) : string :=
  match value with
  | None => ""
  | Some v => re_sub_non_09az (Py.lower (Py.strip v))
  end.

(** ** [models]: the domain objects *)

(** [Category]: identifier and name of [IdentifiableEntity], the ordered
    dictionary [_quartiles], and [_areas] from an area identifier to the
    [Area] object, named by its place in the heap. *)
Record Category := mkCategory {
  cat_id : string;
  cat_name : string;
  cat_quartiles : odict bool;
  cat_areas : odict nat;
}.

(** [Area]: [_categories] from a category identifier to the [Category]. *)
Record Area := mkArea {
  area_id : string;
  area_name : string;
  area_categories : odict nat;
}.

(** The objects allocated so far; a reference is an index. *)
Record Heap := mkHeap {
  heap_categories : list Category;
  heap_areas : list Area;
}.

Definition empty_heap : Heap := mkHeap [] [].

(** [IdentifiableEntity.__init__] stores [(x or "").strip()]. *)
Definition init_field (x : option string) : string := Py.strip (Py.or_empty x).

(** [Category.__init__(category_id)]: [super().__init__(category_id, category_id)]. *)
Definition Category_init (category_id : option string) : Category :=
  {| cat_id := init_field category_id;
     cat_name := init_field category_id;
     cat_quartiles := [];
     cat_areas := [] |}.

(** [Area.__init__(area_id)]: [super().__init__(area_id, area_id)]. *)
Definition Area_init (area_id : option string) : Area :=
  {| area_id := init_field area_id;
     area_name := init_field area_id;
     area_categories := [] |}.

Definition Category_getId (c : Category) : string := cat_id c.
Definition Category_getName (c : Category) : string := cat_name c.
Definition Category_getQuartiles (c : Category) : list string := od_keys (cat_quartiles c).
Definition Category_getAreas (c : Category) : list nat := od_values (cat_areas c).
Definition Area_getId (a : Area) : string := area_id a.
Definition Area_getName (a : Area) : string := area_name a.
Definition Area_getCategories (a : Area) : list nat := od_values (area_categories a).

(** [Category.addQuartile] *)
Definition Category_addQuartile (quartile : option string) (c : Category) : Category :=
  match quartile with
  | Some q =>
      if Py.truthy q then
        let quartile_clean := Py.strip q in
        if Py.truthy quartile_clean then
          mkCategory (cat_id c) (cat_name c)
            (od_setdefault quartile_clean true (cat_quartiles c)) (cat_areas c)
        else c
      else c
  | None => c
  end.

(** [Category._link_area]: [self] is the category at [c], [area] the area at [a]. *)
Definition Category_link_area (c a : nat) (h : Heap) : Heap :=
  match heap_areas h !! a with
  | Some area =>
      if Py.truthy (Area_getId area) then
        mkHeap
          (alter (fun self => mkCategory (cat_id self) (cat_name self) (cat_quartiles self)
                                (od_setdefault (Area_getId area) a (cat_areas self)))
                 c (heap_categories h))
          (heap_areas h)
      else h
  | None => h
  end.

(** [Area._link_category] *)
Definition Area_link_category (a c : nat) (h : Heap) : Heap :=
  match heap_categories h !! c with
  | Some category =>
      if Py.truthy (Category_getId category) then
        mkHeap
          (heap_categories h)
          (alter (fun self => mkArea (area_id self) (area_name self)
                                (od_setdefault (Category_getId category) c (area_categories self)))
                 a (heap_areas h))
      else h
  | None => h
  end.

(** [Category.addArea]: guarded by the identifier of the area only. *)
Definition Category_addArea (c a : nat) (h : Heap) : Heap :=
  match heap_areas h !! a with
  | Some area =>
      if Py.truthy (Area_getId area)
      then Area_link_category a c (Category_link_area c a h)
      else h
  | None => h
  end.

(** [Area.addCategory]: guarded by the identifier of the category only. *)
Definition Area_addCategory (a c : nat) (h : Heap) : Heap :=
  match heap_categories h !! c with
  | Some category =>
      if Py.truthy (Category_getId category)
      then Area_link_category a c (Category_link_area c a h)
      else h
  | None => h
  end.

(** A call of either linking method, and a sequence of such calls. *)
Inductive LinkCall :=
  | CallAddArea (c a : nat)
  | CallAddCategory (a c : nat).

Definition run_call (h : Heap) (op : LinkCall) : Heap :=
  match op with
  | CallAddArea c a => Category_addArea c a h
  | CallAddCategory a c => Area_addCategory a c h
  end.

Definition run_calls (ops : list LinkCall) (h : Heap) : Heap :=
  fold_left run_call ops h.

(** Freshly constructed objects, one per constructor argument. *)
Definition fresh_heap (category_ids area_ids : list (option string)) : Heap :=
  mkHeap (Category_init <$> category_ids) (Area_init <$> area_ids).

(** [A in C.getAreas()] and [C in A.getCategories()]: membership of the object. *)
Definition area_in_category (h : Heap) (a c : nat) : Prop :=
  exists C, heap_categories h !! c = Some C /\ a ∈ Category_getAreas C.

Definition category_in_area (h : Heap) (c a : nat) : Prop :=
  exists A, heap_areas h !! a = Some A /\ c ∈ Area_getCategories A.

(** [Journal] *)
Record Journal := mkJournal {
  j_id : string;
  j_name : string;
  j_title : string;
  j_print_issn : string;
  j_electronic_issn : string;
  j_publisher : string;
  j_languages : list string;
  j_license : string;
  j_has_apc : bool;
  j_has_doaj_seal : bool;
  j_categories : odict nat;
  j_areas : odict nat;
}.

(** [Journal.__init__] *)
Definition Journal_init (identifier title print_issn electronic_issn publisher : option string)
    (languages : list string) (license_ : option string)
    (has_apc has_doaj_seal : bool) : Journal :=
  {| j_id := init_field identifier;
     j_name := init_field title;
     j_title := init_field title;
     j_print_issn := init_field print_issn;
     j_electronic_issn := init_field electronic_issn;
     j_publisher := init_field publisher;
     j_languages :=
       Py.strip <$> List.filter (fun lang => Py.truthy lang && Py.truthy (Py.strip lang)) languages;
     j_license := init_field license_;
     j_has_apc := has_apc;
     j_has_doaj_seal := has_doaj_seal;
     j_categories := [];
     j_areas := [] |}.

Definition set_j_categories (d : odict nat) (j : Journal) : Journal :=
  mkJournal (j_id j) (j_name j) (j_title j) (j_print_issn j) (j_electronic_issn j)
    (j_publisher j) (j_languages j) (j_license j) (j_has_apc j) (j_has_doaj_seal j)
    d (j_areas j).

Definition set_j_areas (d : odict nat) (j : Journal) : Journal :=
  mkJournal (j_id j) (j_name j) (j_title j) (j_print_issn j) (j_electronic_issn j)
    (j_publisher j) (j_languages j) (j_license j) (j_has_apc j) (j_has_doaj_seal j)
    (j_categories j) d.

(** [Journal.addCategory]: keyed by the identifier of the category object. *)
Definition Journal_addCategory (h : Heap) (c : nat) (j : Journal) : Journal :=
  match heap_categories h !! c with
  | Some category =>
      if Py.truthy (Category_getId category)
      then set_j_categories (od_setdefault (Category_getId category) c (j_categories j)) j
      else j
  | None => j
  end.

(** [Journal.addArea] *)
Definition Journal_addArea (h : Heap) (a : nat) (j : Journal) : Journal :=
  match heap_areas h !! a with
  | Some area =>
      if Py.truthy (Area_getId area)
      then set_j_areas (od_setdefault (Area_getId area) a (j_areas j)) j
      else j
  | None => j
  end.

Definition Journal_getId (j : Journal) : string := j_id j.
Definition Journal_getCategories (j : Journal) : list nat := od_values (j_categories j).
Definition Journal_getAreas (j : Journal) : list nat := od_values (j_areas j).

(** ** Exceptions *)

(** [KeyError] of a missing column; [TypeError] and [AttributeError] of a
    NaN cell that is iterated or stripped; [re.error] of a text that is not
    a regular expression. *)
Inductive exn :=
  | KeyError (key : string)
  | TypeError
  | AttributeError
  | ReError (pattern : string).

Inductive outcome (A : Type) :=
  | Ok (a : A)
  | Raise (e : exn).

Arguments Ok {A} a.
Arguments Raise {A} e.

(** Sequencing: [x ← m; k] runs [k] unless [m] raised. *)
Global Instance outcome_bind : MBind outcome := fun A B k m =>
  match m with
  | Ok a => k a
  | Raise e => Raise e
  end.

(** ** Tables *)

(** A row of a journal table. A cell holds a value of the type of its column
    or [None]; list cells hold a list, empty when the cell is absent.
    [row_columns] are the columns the row was made with, those of the table
    it comes from. Under another column the row has no cell: [None] or the
    empty list here, and NaN once [pd.concat] has put the row into a table
    that has the column. *)
Record Row := mkRow {
  row_id : option string;
  row_title : option string;
  row_print_issn : option string;
  row_electronic_issn : option string;
  row_languages : list string;
  row_publisher : option string;
  row_doaj_seal : option bool;
  row_license : option string;
  row_apc : option bool;
  row_identifiers : list string;
  row_columns : list string;
}.

(** A [pandas.DataFrame], as far as the package looks at it: the column
    labels and the rows in index order. *)
Record Frame := mkFrame {
  columns : list string;
  rows : list Row;
}.

(** [JournalQueryHandler.COLUMNS], also [_InMemoryJournalStore.COLUMNS]. *)
Definition COLUMNS : list string :=
  ["id"; "title"; "print_issn"; "electronic_issn"; "languages";
   "publisher"; "doaj_seal"; "license"; "apc"; "identifiers"].

(** [pd.DataFrame(columns=cols)] *)
Definition DataFrame_columns (cols : list string) : Frame := mkFrame cols [].

(** [frame.empty]: an axis of length zero. *)
Definition frame_empty (f : Frame) : bool :=
  match rows f, columns f with
  | [], _ => true
  | _, [] => true
  | _, _ => false
  end.

(** [frame[col]]: a missing label raises [KeyError]. *)
Definition column (col : string) (f : Frame) : outcome unit :=
  if bool_decide (col ∈ columns f) then Ok tt else Raise (KeyError col).

(** [frame.loc[mask].reset_index(drop=True)] for the mask of a row predicate. *)
Definition loc (mask : Row -> bool) (f : Frame) : Frame :=
  mkFrame (columns f) (List.filter mask (rows f)).

(** The labels of [pd.concat]: their union, in order of first appearance. *)
Definition union_columns (cs ds : list string) : list string :=
  cs ++ List.filter (fun d => negb (bool_decide (d ∈ cs))) ds.

(** [pd.concat(frames, ignore_index=True)]: the result has every column of
    every frame. The rows keep the columns they were made with, so a row of
    a frame that lacks a column of the result has NaN there: see [cell_of]. *)
Definition pd_concat (frames : list Frame) : Frame :=
  mkFrame (fold_left union_columns (columns <$> frames) [])
          (concat (rows <$> frames)).

(** What a row of a table with the columns [cols] has under [col]: the
    table has no such column; the row was made without it, and the cell is
    NaN; or the cell is the one of the row. *)
Inductive Cell := NoColumn | NaN | Filled.

Definition cell_of (cols : list string) (record : Row) (col : string) : Cell :=
  if bool_decide (col ∈ cols) then
    if bool_decide (col ∈ row_columns record) then Filled else NaN
  else NoColumn.

(** A table of the columns [cols]: it has these columns and every row of it
    was made with them, so that no cell is NaN. *)
Definition table (cols : list string) (f : Frame) : Prop :=
  columns f = cols /\ forall r, r ∈ rows f -> row_columns r = cols.

(** [drop_duplicates(subset="id", keep="first")]: [seen] are the
    identifiers of the rows already passed. *)
Fixpoint drop_duplicates_id (seen : list (option string)) (rs : list Row) : list Row :=
  match rs with
  | [] => []
  | r :: rs' =>
      if bool_decide (row_id r ∈ seen) then drop_duplicates_id seen rs'
      else r :: drop_duplicates_id (row_id r :: seen) rs'
  end.

(** [{_normalise_identifier(x) for x in xs or [] if x}] *)
Definition requested (xs : option (list string)) : gset string :=
  list_to_set ((fun x => _normalise_identifier (Some x))
                 <$> List.filter Py.truthy (default [] xs)).

(** [{_normalise_identifier(x) for x in xs}] *)
Definition normalised_set (xs : list string) : gset string :=
  list_to_set ((fun x => _normalise_identifier (Some x)) <$> xs).

(** Truth value of a set: non-empty. *)
Definition nonempty (X : gset string) : bool := negb (bool_decide (X = ∅)).

(** ** The calls the engine sends to journal handlers *)

Inductive JournalCall :=
  | call_getById (identifier : option string)
  | call_getAllJournals
  | call_getJournalsWithTitle (title_part : option string)
  | call_getJournalsPublishedBy (publisher_part : option string)
  | call_getJournalsWithLicense (licenses : option (list string))
  | call_getJournalsWithAPC
  | call_getJournalsWithDOAJSeal.

(** ** [repositories._InMemoryJournalStore] and [query_handlers.JournalQueryHandler] *)

Record InMemoryJournalStore := mkStore {
  store_frame : Frame;
  store_index : odict string;
}.

(** [JournalQueryHandler]: [_repository] is unset until [setDbPathOrUrl];
    a [SparqlJournalRepository] hands every fetch to its store. *)
Record JournalQueryHandler := mkJournalQueryHandler {
  jq_repository : option InMemoryJournalStore;
}.

Section store.
(** [Series.str.contains(pat, case=False, na=False)]: the regular-expression
    search of pandas, taken as given. The text is compiled first, which
    raises [re.error] when it is no regular expression; the compiled
    expression is then searched in every cell. *)
Variable str_contains : string -> outcome (option string -> bool).

Definition store_all (s : InMemoryJournalStore) : Frame := store_frame s.

Definition by_identifier (s : InMemoryJournalStore) (identifier : option string)
    : outcome Frame :=
  if negb (Py.truthy_opt identifier) then Ok (DataFrame_columns COLUMNS)
  else
    let ident := default "" identifier in
    let target := od_get (_normalise_identifier (Some ident)) (store_index s) in
    let target :=
      if Py.truthy_opt target then target
      else od_get (_normalise_identifier (Some (Py.remove_hyphens ident))) (store_index s) in
    let scan :=
      _ ← column "identifiers" (store_frame s);
      let result :=
        loc (fun r => existsb (fun i => String.eqb (_normalise_identifier (Some ident))
                                                   (_normalise_identifier (Some i)))
                              (row_identifiers r))
            (store_frame s) in
      Ok (if frame_empty result then DataFrame_columns COLUMNS else result) in
    if Py.truthy_opt target then
      _ ← column "id" (store_frame s);
      let frame := loc (fun r => bool_decide (row_id r = target)) (store_frame s) in
      if frame_empty frame then scan else Ok frame
    else scan.

Definition by_title (s : InMemoryJournalStore) (title_part : option string) : outcome Frame :=
  let frame := store_all s in
  if negb (Py.truthy_opt title_part) then Ok frame
  else
    _ ← column "title" frame;
    found ← str_contains (default "" title_part);
    Ok (loc (fun r => found (row_title r)) frame).

Definition by_publisher (s : InMemoryJournalStore) (publisher_part : option string)
    : outcome Frame :=
  let frame := store_all s in
  if negb (Py.truthy_opt publisher_part) then Ok frame
  else
    _ ← column "publisher" frame;
    found ← str_contains (default "" publisher_part);
    Ok (loc (fun r => found (row_publisher r)) frame).

(** The mask of both license filters: a string cell whose normal form is requested. *)
Definition license_mask (license_norm : gset string) (r : Row) : bool :=
  match row_license r with
  | Some value => bool_decide (_normalise_identifier (Some value) ∈ license_norm)
  | None => false
  end.

Definition by_license (s : InMemoryJournalStore) (licenses : option (list string))
    : outcome Frame :=
  let frame := store_all s in
  let license_norm := requested licenses in
  if negb (nonempty license_norm) then Ok frame
  else
    _ ← column "license" frame;
    Ok (loc (license_mask license_norm) frame).

Definition with_apc (s : InMemoryJournalStore) : outcome Frame :=
  let frame := store_all s in
  _ ← column "apc" frame;
  Ok (loc (fun r => bool_decide (row_apc r = Some true)) frame).

Definition with_doaj_seal (s : InMemoryJournalStore) : outcome Frame :=
  let frame := store_all s in
  _ ← column "doaj_seal" frame;
  Ok (loc (fun r => bool_decide (row_doaj_seal r = Some true)) frame).

(** The methods of [JournalQueryHandler], by the call that names them. *)
Definition JournalQueryHandler_call (h : JournalQueryHandler) (call : JournalCall)
    : outcome (option Frame) :=
  match jq_repository h with
  | None => Ok (Some (DataFrame_columns COLUMNS))
  | Some repo =>
      frame ←
        match call with
        | call_getById identifier => by_identifier repo identifier
        | call_getAllJournals => Ok (store_all repo)
        | call_getJournalsWithTitle title_part => by_title repo title_part
        | call_getJournalsPublishedBy publisher_part => by_publisher repo publisher_part
        | call_getJournalsWithLicense licenses => by_license repo licenses
        | call_getJournalsWithAPC => with_apc repo
        | call_getJournalsWithDOAJSeal => with_doaj_seal repo
        end;
      Ok (Some frame)
  end.
End store.

(** ** Handlers as the engine sees them *)

(** A registered journal handler: an object with an identity, answering the
    method the engine names. [Ok None] stands for a method that is missing or
    not callable, and for a result that is not a [DataFrame]. *)
Record JournalHandler := mkJournalHandler {
  jh_ident : nat;
  jh_call : JournalCall -> outcome (option Frame);
}.

(** What [SQLiteCategoryRepository.export_all] returns. *)
Record CategoryData := mkCategoryData {
  cd_quartiles : gset string;
  cd_areas : gset string;
}.

Record Export := mkExport {
  exp_categories : odict CategoryData;
  exp_areas : odict (gset string);
  exp_journal_categories : odict (odict (gset string));
  exp_journal_areas : odict (gset string);
  exp_journal_alias : odict string;
}.

(** A registered category handler: its identity and what its [repository]
    property gives, [None] or a repository with the export it returns. *)
Record CategoryHandler := mkCategoryHandler {
  ch_ident : nat;
  ch_repository : option Export;
}.

(** ** [engine.BasicQueryEngine] *)

Record BasicQueryEngine := mkEngine {
  journalQuery : list JournalHandler;
  categoryQuery : list CategoryHandler;
}.

(** [BasicQueryEngine.__init__] *)
Definition BasicQueryEngine_init : BasicQueryEngine := mkEngine [] [].

Definition cleanJournalHandlers (e : BasicQueryEngine) : bool * BasicQueryEngine :=
  (true, mkEngine [] (categoryQuery e)).

Definition cleanCategoryHandlers (e : BasicQueryEngine) : bool * BasicQueryEngine :=
  (true, mkEngine (journalQuery e) []).

(** [handler in self.journalQuery]: the very same object. *)
Definition journal_handler_in (handler : JournalHandler) (l : list JournalHandler) : bool :=
  existsb (fun h => Nat.eqb (jh_ident h) (jh_ident handler)) l.

Definition category_handler_in (handler : CategoryHandler) (l : list CategoryHandler) : bool :=
  existsb (fun h => Nat.eqb (ch_ident h) (ch_ident handler)) l.

(** [addJournalHandler]: [None] is the null handler. *)
Definition addJournalHandler (handler : option JournalHandler) (e : BasicQueryEngine)
    : bool * BasicQueryEngine :=
  match handler with
  | Some h =>
      if negb (journal_handler_in h (journalQuery e))
      then (true, mkEngine (journalQuery e ++ [h]) (categoryQuery e))
      else (false, e)
  | None => (false, e)
  end.

Definition addCategoryHandler (handler : option CategoryHandler) (e : BasicQueryEngine)
    : bool * BasicQueryEngine :=
  match handler with
  | Some h =>
      if negb (category_handler_in h (categoryQuery e))
      then (true, mkEngine (journalQuery e) (categoryQuery e ++ [h]))
      else (false, e)
  | None => (false, e)
  end.

(** The loop of [_collect_journal_frames]: the frames that are kept. *)
Fixpoint collect_frames (handlers : list JournalHandler) (call : JournalCall)
    : outcome (list Frame) :=
  match handlers with
  | [] => Ok []
  | handler :: handlers' =>
      frame ← jh_call handler call;
      frames ← collect_frames handlers' call;
      Ok (match frame with
          | Some f => if frame_empty f then frames else f :: frames
          | None => frames
          end)
  end.

Definition _collect_journal_frames (e : BasicQueryEngine) (call : JournalCall)
    : outcome Frame :=
  frames ← collect_frames (journalQuery e) call;
  Ok (match frames with
      | [] => DataFrame_columns COLUMNS
      | _ =>
          let combined := pd_concat frames in
          if bool_decide ("id" ∈ columns combined)
          then mkFrame (columns combined) (drop_duplicates_id [] (rows combined))
          else combined
      end).

(** [record = d.setdefault(k, dflt)] followed by an update of [record] in place. *)
Fixpoint od_alter {V : Type} (f : V -> V) (k : string) (d : odict V) : odict V :=
  match d with
  | [] => []
  | (k', v) :: d' =>
      if String.eqb k k' then (k', f v) :: d' else (k', v) :: od_alter f k d'
  end.

Definition od_upsert {V : Type} (k : string) (dflt : V) (f : V -> V) (d : odict V) : odict V :=
  od_alter f k (od_setdefault k dflt d).

(** One round of the loop of [_collect_category_exports]. *)
Definition merge_export (combined export : Export) : Export :=
  {| exp_categories :=
       fold_left (fun acc '(cid, data) =>
                    od_upsert cid (mkCategoryData ∅ ∅)
                      (fun record => mkCategoryData (cd_quartiles record ∪ cd_quartiles data)
                                                    (cd_areas record ∪ cd_areas data))
                      acc)
                 (exp_categories export) (exp_categories combined);
     exp_areas :=
       fold_left (fun acc '(aid, data) => od_upsert aid ∅ (fun record => record ∪ data) acc)
                 (exp_areas export) (exp_areas combined);
     exp_journal_categories :=
       fold_left (fun acc '(jid, data) =>
                    od_upsert jid []
                      (fun journal_record =>
                         fold_left (fun jr '(cid, quartiles) =>
                                      od_upsert cid ∅ (fun qs => qs ∪ quartiles) jr)
                                   data journal_record)
                      acc)
                 (exp_journal_categories export) (exp_journal_categories combined);
     exp_journal_areas :=
       fold_left (fun acc '(jid, areas) => od_upsert jid ∅ (fun record => record ∪ areas) acc)
                 (exp_journal_areas export) (exp_journal_areas combined);
     exp_journal_alias :=
       fold_left (fun acc '(alias_norm, canonical) => od_setdefault alias_norm canonical acc)
                 (exp_journal_alias export) (exp_journal_alias combined) |}.

Definition _collect_category_exports (e : BasicQueryEngine) : Export :=
  fold_left (fun combined handler =>
               match ch_repository handler with
               | None => combined
               | Some export => merge_export combined export
               end)
            (categoryQuery e) (mkExport [] [] [] [] []).

(** The state of [_build_taxonomy]: the objects made so far and the two maps
    from an exported identifier to its object. *)
Record Taxonomy := mkTaxonomy {
  tx_heap : Heap;
  category_map : odict nat;
  area_map : odict nat;
}.

(** [category_map.setdefault(cid, Category(cid))] *)
Definition category_setdefault (cid : string) (t : Taxonomy) : nat * Taxonomy :=
  match od_get cid (category_map t) with
  | Some c => (c, t)
  | None =>
      let c := length (heap_categories (tx_heap t)) in
      (c, mkTaxonomy
            (mkHeap (heap_categories (tx_heap t) ++ [Category_init (Some cid)])
                    (heap_areas (tx_heap t)))
            (category_map t ++ [(cid, c)])
            (area_map t))
  end.

(** [area_map.setdefault(aid, Area(aid))] *)
Definition area_setdefault (aid : string) (t : Taxonomy) : nat * Taxonomy :=
  match od_get aid (area_map t) with
  | Some a => (a, t)
  | None =>
      let a := length (heap_areas (tx_heap t)) in
      (a, mkTaxonomy
            (mkHeap (heap_categories (tx_heap t))
                    (heap_areas (tx_heap t) ++ [Area_init (Some aid)]))
            (category_map t)
            (area_map t ++ [(aid, a)]))
  end.

Definition with_heap (f : Heap -> Heap) (t : Taxonomy) : Taxonomy :=
  mkTaxonomy (f (tx_heap t)) (category_map t) (area_map t).

(** The body of the first loop of [_build_taxonomy]. *)
Definition taxonomy_category (t : Taxonomy) (item : string * CategoryData) : Taxonomy :=
  let '(cid, data) := item in
  let '(c, t1) := category_setdefault cid t in
  fold_left (fun t' quartile =>
               with_heap (fun h => mkHeap (alter (Category_addQuartile (Some quartile)) c
                                                 (heap_categories h))
                                          (heap_areas h)) t')
            (elements (cd_quartiles data)) t1.

(** The body of the second loop. *)
Definition taxonomy_area (t : Taxonomy) (item : string * gset string) : Taxonomy :=
  let '(aid, data) := item in
  let '(a, t1) := area_setdefault aid t in
  fold_left (fun t' cid =>
               let '(c, t2) := category_setdefault cid t' in
               with_heap (Category_addArea c a) t2)
            (elements data) t1.

Definition build_taxonomy_from (exports : Export) : Taxonomy :=
  let t1 := fold_left taxonomy_category (exp_categories exports)
                      (mkTaxonomy empty_heap [] []) in
  fold_left taxonomy_area (exp_areas exports) t1.

Definition _build_taxonomy (e : BasicQueryEngine) : Taxonomy * Export :=
  let exports := _collect_category_exports e in
  (build_taxonomy_from exports, exports).

(** The alias lookup of [_build_journal_objects] for one identifier: the
    normal form, then the normal form without hyphens; a result counts
    when it is a non-empty string. *)
Definition resolve_alias (alias_map : odict string) (identifier : string) : option string :=
  let canonical := od_get (_normalise_identifier (Some identifier)) alias_map in
  let canonical :=
    if negb (Py.truthy_opt canonical)
    then od_get (_normalise_identifier (Some (Py.remove_hyphens identifier))) alias_map
    else canonical in
  if negb (Py.truthy_opt canonical) then None else canonical.

(** The bodies of the two inner loops: an exported identifier that the
    taxonomy knows gives its object to the journal. *)
Definition attach_category (t : Taxonomy) (j : Journal) (category_id : string) : Journal :=
  match od_get category_id (category_map t) with
  | Some category => Journal_addCategory (tx_heap t) category j
  | None => j
  end.

Definition attach_area (t : Taxonomy) (j : Journal) (area_id : string) : Journal :=
  match od_get area_id (area_map t) with
  | Some area => Journal_addArea (tx_heap t) area j
  | None => j
  end.

(** The two inner loops: the categories and the areas of [canonical]. *)
Definition attach_categories (t : Taxonomy) (exports : Export) (canonical : string)
    (journal : Journal) : Journal :=
  fold_left (attach_category t)
            (od_keys (default [] (od_get canonical (exp_journal_categories exports))))
            journal.

Definition attach_areas (t : Taxonomy) (exports : Export) (canonical : string)
    (journal : Journal) : Journal :=
  fold_left (attach_area t)
            (elements (default ∅ (od_get canonical (exp_journal_areas exports))))
            journal.

(** The body of [for identifier in identifiers]. There is no [break]: the
    loop goes on to the next identifier after a match. *)
Definition attach_identifier (t : Taxonomy) (exports : Export) (journal : Journal)
    (identifier : string) : Journal :=
  match resolve_alias (exp_journal_alias exports) identifier with
  | None => journal
  | Some canonical =>
      attach_areas t exports canonical (attach_categories t exports canonical journal)
  end.

Definition bool_of (o : option bool) : bool := default false o.

(** The journal that the body of [for _, row in frame.iterrows()] makes of
    the values of a row. *)
Definition hydrate_values (t : Taxonomy) (exports : Export) (record : Row) : Journal :=
  let journal :=
    Journal_init (row_id record) (row_title record) (row_print_issn record)
      (row_electronic_issn record) (row_publisher record) (row_languages record)
      (row_license record) (bool_of (row_apc record)) (bool_of (row_doaj_seal record)) in
  let identifiers := List.filter Py.truthy (row_identifiers record) in
  fold_left (attach_identifier t exports) identifiers journal.

(** [record.get(col)] where [Journal.__init__] strips it, [(x or "").strip()]:
    [None] without the column, and NaN has no [strip]. *)
Definition text_arg (cols : list string) (record : Row) (col : string) (v : option string)
    : outcome (option string) :=
  match cell_of cols record col with
  | NoColumn => Ok None
  | NaN => Raise AttributeError
  | Filled => Ok v
  end.

(** [record.get(col) or []] where it is iterated: NaN is true and is not
    iterable. *)
Definition list_arg (cols : list string) (record : Row) (col : string) (v : list string)
    : outcome (list string) :=
  match cell_of cols record col with
  | NoColumn => Ok []
  | NaN => Raise TypeError
  | Filled => Ok v
  end.

(** [bool(record.get(col))]: NaN is true. *)
Definition bool_arg (cols : list string) (record : Row) (col : string) (v : option bool)
    : bool :=
  match cell_of cols record col with
  | NoColumn => false
  | NaN => true
  | Filled => bool_of v
  end.

(** The body of [for _, row in frame.iterrows()], for a row of a table with
    the columns [cols]: the arguments of [Journal(...)] are evaluated, the
    list of languages first; [Journal.__init__] strips the texts; then the
    identifiers are gone through. *)
Definition hydrate_row (cols : list string) (t : Taxonomy) (exports : Export) (record : Row)
    : outcome Journal :=
  languages ← list_arg cols record "languages" (row_languages record);
  let has_apc := bool_arg cols record "apc" (row_apc record) in
  let has_doaj_seal := bool_arg cols record "doaj_seal" (row_doaj_seal record) in
  identifier ← text_arg cols record "id" (row_id record);
  title ← text_arg cols record "title" (row_title record);
  print_issn ← text_arg cols record "print_issn" (row_print_issn record);
  electronic_issn ← text_arg cols record "electronic_issn" (row_electronic_issn record);
  publisher ← text_arg cols record "publisher" (row_publisher record);
  license_ ← text_arg cols record "license" (row_license record);
  let journal :=
    Journal_init identifier title print_issn electronic_issn publisher languages
      license_ has_apc has_doaj_seal in
  identifiers ← list_arg cols record "identifiers" (row_identifiers record);
  Ok (fold_left (attach_identifier t exports) (List.filter Py.truthy identifiers) journal).

(** The loop over the rows: the first row that raises ends it. *)
Fixpoint hydrate_rows (cols : list string) (t : Taxonomy) (exports : Export)
    (records : list Row) : outcome (list Journal) :=
  match records with
  | [] => Ok []
  | record :: records' =>
      journal ← hydrate_row cols t exports record;
      journals ← hydrate_rows cols t exports records';
      Ok (journal :: journals)
  end.

(** The cell under [col] is NaN. *)
Definition is_nan (cols : list string) (record : Row) (col : string) : bool :=
  match cell_of cols record col with
  | NaN => true
  | _ => false
  end.

(** The values that the body of the loop reads from a row of a table with
    the columns [cols]: those of the row under the columns of the table,
    [None] and the empty list where the table has no such column, and
    [True] for a flag that is NaN. *)
Definition read_row (cols : list string) (record : Row) : Row :=
  let text col (v : option string) :=
    match cell_of cols record col with Filled => v | _ => None end in
  let items col (v : list string) :=
    match cell_of cols record col with Filled => v | _ => [] end in
  let flag col (v : option bool) :=
    match cell_of cols record col with
    | Filled => v
    | NaN => Some true
    | NoColumn => None
    end in
  mkRow (text "id" (row_id record)) (text "title" (row_title record))
        (text "print_issn" (row_print_issn record))
        (text "electronic_issn" (row_electronic_issn record))
        (items "languages" (row_languages record))
        (text "publisher" (row_publisher record))
        (flag "doaj_seal" (row_doaj_seal record))
        (text "license" (row_license record))
        (flag "apc" (row_apc record))
        (items "identifiers" (row_identifiers record))
        (row_columns record).

(** The texts that [Journal.__init__] strips. *)
Definition TEXT_COLUMNS : list string :=
  ["id"; "title"; "print_issn"; "electronic_issn"; "publisher"; "license"].

(** [_build_journal_objects]: the journals, and the heap their categories
    and areas live in. *)
Definition _build_journal_objects (e : BasicQueryEngine) (frame : Frame)
    : outcome (Heap * list Journal) :=
  if frame_empty frame then Ok (empty_heap, [])
  else
    let '(t, exports) := _build_taxonomy e in
    journals ← hydrate_rows (columns frame) t exports (rows frame);
    Ok (tx_heap t, journals).

(** What [_build_journal_objects] returns for a table of [COLUMNS]: the
    journals of the values of its rows. *)
Definition journals_of_values (e : BasicQueryEngine) (frame : Frame) : Heap * list Journal :=
  if frame_empty frame then (empty_heap, [])
  else
    let '(t, exports) := _build_taxonomy e in
    (tx_heap t, hydrate_values t exports <$> rows frame).

(** The objects behind the references of a heap. *)
Definition categories_of (h : Heap) (refs : list nat) : list Category :=
  omap (fun c => heap_categories h !! c) refs.

Definition areas_of (h : Heap) (refs : list nat) : list Area :=
  omap (fun a => heap_areas h !! a) refs.

Definition _find_category_by_identifier (t : Taxonomy) (identifier : option string)
    : option nat :=
  let norm := _normalise_identifier identifier in
  List.find (fun c =>
               match heap_categories (tx_heap t) !! c with
               | Some category =>
                   String.eqb (_normalise_identifier (Some (Category_getId category))) norm
               | None => false
               end)
            (od_values (category_map t)).

Definition _find_area_by_identifier (t : Taxonomy) (identifier : option string)
    : option nat :=
  let norm := _normalise_identifier identifier in
  List.find (fun a =>
               match heap_areas (tx_heap t) !! a with
               | Some area => String.eqb (_normalise_identifier (Some (Area_getId area))) norm
               | None => false
               end)
            (od_values (area_map t)).

(** *** Public API *)

(** What [getEntityById] returns: a journal, a category or an area, with the
    heap it refers to. *)
Inductive Entity :=
  | EntityJournal (h : Heap) (j : Journal)
  | EntityCategory (h : Heap) (c : nat)
  | EntityArea (h : Heap) (a : nat).

Definition getEntityById (e : BasicQueryEngine) (identifier : option string)
    : outcome (option Entity) :=
  frame ← _collect_journal_frames e (call_getById identifier);
  '(h, journals) ← _build_journal_objects e frame;
  match journals with
  | j :: _ => Ok (Some (EntityJournal h j))
  | [] =>
      let '(t, _) := _build_taxonomy e in
      match _find_category_by_identifier t identifier with
      | Some category => Ok (Some (EntityCategory (tx_heap t) category))
      | None =>
          match _find_area_by_identifier t identifier with
          | Some area => Ok (Some (EntityArea (tx_heap t) area))
          | None => Ok None
          end
      end
  end.

(** The journal operations of the basic tier: merge, then hydrate. *)
Definition journals_of_call (e : BasicQueryEngine) (call : JournalCall)
    : outcome (Heap * list Journal) :=
  frame ← _collect_journal_frames e call;
  _build_journal_objects e frame.

Definition getAllJournals (e : BasicQueryEngine) :=
  journals_of_call e call_getAllJournals.

Definition getJournalsWithTitle (e : BasicQueryEngine) (title_part : option string) :=
  journals_of_call e (call_getJournalsWithTitle title_part).

Definition getJournalsPublishedBy (e : BasicQueryEngine) (publisher_part : option string) :=
  journals_of_call e (call_getJournalsPublishedBy publisher_part).

Definition getJournalsWithLicense (e : BasicQueryEngine) (licenses : option (list string)) :=
  journals_of_call e (call_getJournalsWithLicense licenses).

Definition getJournalsWithAPC (e : BasicQueryEngine) :=
  journals_of_call e call_getJournalsWithAPC.

Definition getJournalsWithDOAJSeal (e : BasicQueryEngine) :=
  journals_of_call e call_getJournalsWithDOAJSeal.

(** [getAllCategories]: the values of [category_map], with their heap. *)
Definition getAllCategories (e : BasicQueryEngine) : Heap * list nat :=
  let '(t, _) := _build_taxonomy e in
  (tx_heap t, od_values (category_map t)).

Definition getAllAreas (e : BasicQueryEngine) : Heap * list nat :=
  let '(t, _) := _build_taxonomy e in
  (tx_heap t, od_values (area_map t)).

(** [not target or s.intersection(target)] *)
Definition matches (target s : gset string) : bool :=
  negb (nonempty target) || nonempty (s ∩ target).

Definition category_quartile_norm (category : Category) : gset string :=
  normalised_set (Category_getQuartiles category).

Definition getCategoriesWithQuartile (e : BasicQueryEngine) (quartiles : option (list string))
    : Heap * list nat :=
  let target := requested quartiles in
  let '(h, categories) := getAllCategories e in
  (h, List.filter
        (fun c =>
           match heap_categories h !! c with
           | Some category => matches target (category_quartile_norm category)
           | None => false
           end)
        categories).

Definition getCategoriesAssignedToAreas (e : BasicQueryEngine) (areas : option (list string))
    : Heap * list nat :=
  let target := requested areas in
  let '(h, categories) := getAllCategories e in
  (h, List.filter
        (fun c =>
           match heap_categories h !! c with
           | Some category =>
               matches target
                 (normalised_set (Area_getId <$> areas_of h (Category_getAreas category)))
           | None => false
           end)
        categories).

Definition getAreasAssignedToCategories (e : BasicQueryEngine)
    (categories : option (list string)) : Heap * list nat :=
  let target := requested categories in
  let '(h, areas) := getAllAreas e in
  (h, List.filter
        (fun a =>
           match heap_areas h !! a with
           | Some area =>
               matches target
                 (normalised_set
                    (Category_getId <$> categories_of h (Area_getCategories area)))
           | None => false
           end)
        areas).

(** ** [engine.FullQueryEngine] *)

Definition _journal_dataframe (e : BasicQueryEngine) : outcome Frame :=
  _collect_journal_frames e call_getAllJournals.

Definition _select_journals_by_license (df : Frame) (licenses : option (list string))
    : outcome Frame :=
  let license_norm := requested licenses in
  if frame_empty df || negb (nonempty license_norm) then Ok df
  else
    _ ← column "license" df;
    Ok (loc (license_mask license_norm) df).

(** The test on one linked category shared by the two category queries. *)
Definition category_ok (requested_categories requested_quartiles : gset string)
    (category : Category) : bool :=
  let category_id_norm := _normalise_identifier (Some (Category_getId category)) in
  let quartile_norm := category_quartile_norm category in
  let cat_match :=
    negb (nonempty requested_categories)
    || bool_decide (category_id_norm ∈ requested_categories) in
  let quartile_match := matches requested_quartiles quartile_norm in
  cat_match && quartile_match.

Definition getJournalsInCategoriesWithQuartile (e : BasicQueryEngine)
    (categories quartiles : option (list string)) : outcome (Heap * list Journal) :=
  let requested_categories := requested categories in
  let requested_quartiles := requested quartiles in
  df ← _journal_dataframe e;
  '(h, journals) ← _build_journal_objects e df;
  Ok (h, List.filter
           (fun journal =>
              existsb (category_ok requested_categories requested_quartiles)
                      (categories_of h (Journal_getCategories journal)))
           journals).

Definition journal_area_norm (h : Heap) (journal : Journal) : gset string :=
  normalised_set (Area_getId <$> areas_of h (Journal_getAreas journal)).

Definition getJournalsInAreasWithLicense (e : BasicQueryEngine)
    (areas licenses : option (list string)) : outcome (Heap * list Journal) :=
  let requested_areas := requested areas in
  df ← _journal_dataframe e;
  df ← _select_journals_by_license df licenses;
  '(h, journals) ← _build_journal_objects e df;
  Ok (h, List.filter (fun journal => matches requested_areas (journal_area_norm h journal))
                     journals).

Definition getDiamondJournalsInAreasAndCategoriesWithQuartile (e : BasicQueryEngine)
    (areas categories quartiles : option (list string)) : outcome (Heap * list Journal) :=
  let requested_areas := requested areas in
  let requested_categories := requested categories in
  let requested_quartiles := requested quartiles in
  df ← _journal_dataframe e;
  _ ← column "apc" df;
  let df := loc (fun r => bool_decide (row_apc r = Some false)) df in
  '(h, journals) ← _build_journal_objects e df;
  Ok (h, List.filter
           (fun journal =>
              let area_norm := journal_area_norm h journal in
              if nonempty requested_areas && negb (nonempty (area_norm ∩ requested_areas))
              then false
              else existsb (category_ok requested_categories requested_quartiles)
                           (categories_of h (Journal_getCategories journal)))
           journals).

(** ** Definitions used to state the properties *)

(** Every object of the heap has its name equal to its identifier. *)
Definition names_are_ids (h : Heap) : Prop :=
  Forall (fun c => Category_getName c = Category_getId c) (heap_categories h)
  /\ Forall (fun a => Area_getName a = Area_getId a) (heap_areas h).

(** The link between categories and areas is mutual: an area is among the
    areas of a category exactly when the category is among its categories. *)
Definition links_mutual (h : Heap) : Prop :=
  forall c a, area_in_category h a c <-> category_in_area h c a.

(** The identifiers of the objects of a heap, in allocation order. *)
Definition category_ids (h : Heap) : list string := Category_getId <$> heap_categories h.
Definition area_ids (h : Heap) : list string := Area_getId <$> heap_areas h.

(** No object has an empty identifier, and no two objects of a kind share one. *)
Definition ids_proper (h : Heap) : Prop :=
  Forall (fun i => Py.truthy i = true) (category_ids h)
  /\ Forall (fun i => Py.truthy i = true) (area_ids h)
  /\ NoDup (category_ids h)
  /\ NoDup (area_ids h).

(** Every entry of a link dictionary names an object of the heap under that
    object's identifier. *)
Definition links_sound (h : Heap) : Prop :=
  (forall c C k r, heap_categories h !! c = Some C -> (k, r) ∈ cat_areas C ->
     exists A, heap_areas h !! r = Some A /\ Area_getId A = k)
  /\ (forall a A k r, heap_areas h !! a = Some A -> (k, r) ∈ area_categories A ->
        exists C, heap_categories h !! r = Some C /\ Category_getId C = k).

(** What both linking methods do when no identifier is empty. *)
Definition link_both (c a : nat) (h : Heap) : Heap :=
  match heap_categories h !! c, heap_areas h !! a with
  | Some C, Some A =>
      mkHeap
        (alter (fun self => mkCategory (cat_id self) (cat_name self) (cat_quartiles self)
                              (od_setdefault (Area_getId A) a (cat_areas self)))
               c (heap_categories h))
        (alter (fun self => mkArea (area_id self) (area_name self)
                              (od_setdefault (Category_getId C) c (area_categories self)))
               a (heap_areas h))
  | _, _ => h
  end.

(** The invariant of a heap under the linking methods. *)
Definition links_inv (h : Heap) : Prop :=
  ids_proper h /\ links_sound h /\ links_mutual h.

(** The rows of a table whose identifier cell is [x], in order. *)
Definition rows_with_id (x : option string) (rs : list Row) : list Row :=
  List.filter (fun r => bool_decide (row_id r = x)) rs.

(** ** Sample data *)

(** A row with the given identifier, title and APC flag, known under its
    identifier only. *)
Definition sample_row (i title : string) (apc : bool) : Row :=
  mkRow (Some i) (Some title) None None [] None (Some false) None (Some apc) [i] COLUMNS.

(** A journal handler that answers every call with the same table. *)
Definition constant_handler (ident : nat) (f : Frame) : JournalHandler :=
  mkJournalHandler ident (fun _ => Ok (Some f)).

(** Two handlers that both know the journal X. *)
Definition first_frame : Frame :=
  mkFrame COLUMNS [sample_row "X" "first" false; sample_row "Y" "other" true].
Definition second_frame : Frame :=
  mkFrame COLUMNS [sample_row "X" "second" true].
Definition two_sources : BasicQueryEngine :=
  mkEngine [constant_handler 0 first_frame; constant_handler 1 second_frame] [].

(** ** Hydration: what a row is offered by the taxonomy *)

(** The loop over the identifiers as the specification words it: the first
    identifier that resolves is used and the remaining ones are not tried. *)
Fixpoint attach_first_match (t : Taxonomy) (exports : Export) (journal : Journal)
    (identifiers : list string) : Journal :=
  match identifiers with
  | [] => journal
  | identifier :: identifiers' =>
      match resolve_alias (exp_journal_alias exports) identifier with
      | Some canonical =>
          attach_areas t exports canonical (attach_categories t exports canonical journal)
      | None => attach_first_match t exports journal identifiers'
      end
  end.

(** [hydrate_values] with that loop in place of the one of the code. *)
Definition hydrate_row_first_match (t : Taxonomy) (exports : Export) (record : Row)
    : Journal :=
  let journal :=
    Journal_init (row_id record) (row_title record) (row_print_issn record)
      (row_electronic_issn record) (row_publisher record) (row_languages record)
      (row_license record) (bool_of (row_apc record)) (bool_of (row_doaj_seal record)) in
  attach_first_match t exports journal (List.filter Py.truthy (row_identifiers record)).

(** The exported category [category_id] is the object [entry.2] of the
    taxonomy, whose identifier [entry.1] is not empty. *)
Definition category_known (t : Taxonomy) (category_id : string) (entry : string * nat)
    : Prop :=
  od_get category_id (category_map t) = Some entry.2
  /\ exists C, heap_categories (tx_heap t) !! entry.2 = Some C
       /\ Category_getId C = entry.1 /\ Py.truthy entry.1 = true.

Definition area_known (t : Taxonomy) (area_id : string) (entry : string * nat) : Prop :=
  od_get area_id (area_map t) = Some entry.2
  /\ exists A, heap_areas (tx_heap t) !! entry.2 = Some A
       /\ Area_getId A = entry.1 /\ Py.truthy entry.1 = true.

(** The identifier resolves to a canonical journal that the export links to
    the category of [entry]. *)
Definition identifier_offers_category (t : Taxonomy) (exports : Export)
    (identifier : string) (entry : string * nat) : Prop :=
  exists canonical category_id,
    resolve_alias (exp_journal_alias exports) identifier = Some canonical
    /\ category_id ∈ od_keys (default [] (od_get canonical (exp_journal_categories exports)))
    /\ category_known t category_id entry.

Definition identifier_offers_area (t : Taxonomy) (exports : Export)
    (identifier : string) (entry : string * nat) : Prop :=
  exists canonical area_id,
    resolve_alias (exp_journal_alias exports) identifier = Some canonical
    /\ area_id ∈ elements (default ∅ (od_get canonical (exp_journal_areas exports)))
    /\ area_known t area_id entry.

(** Some non-empty identifier of the row, the first or a later one, offers [entry]. *)
Definition category_offered (t : Taxonomy) (exports : Export) (record : Row)
    (entry : string * nat) : Prop :=
  exists identifier,
    identifier ∈ row_identifiers record /\ Py.truthy identifier = true
    /\ identifier_offers_category t exports identifier entry.

Definition area_offered (t : Taxonomy) (exports : Export) (record : Row)
    (entry : string * nat) : Prop :=
  exists identifier,
    identifier ∈ row_identifiers record /\ Py.truthy identifier = true
    /\ identifier_offers_area t exports identifier entry.

(** A journal known under an ISSN and under its title, which the taxonomy
    files under two different canonical journals. *)
Definition conflicting_export : Export :=
  mkExport
    [("C1", mkCategoryData {["Q1"]} {["bio"]}); ("C2", mkCategoryData {["Q2"]} {["chem"]})]
    [("bio", {["C1"]}); ("chem", {["C2"]})]
    [("T1", [("C1", {["Q1"]})]); ("T2", [("C2", {["Q2"]})])]
    [("T1", {["bio"]}); ("T2", {["chem"]})]
    [("11111111", "T1"); ("sometitle", "T2")].

Definition conflicting_row : Row :=
  mkRow (Some "1111-1111") (Some "Some Title") (Some "1111-1111") None [] None
        (Some false) None (Some false) ["1111-1111"; "Some Title"] COLUMNS.

Definition conflicting_engine : BasicQueryEngine :=
  mkEngine [constant_handler 0 (mkFrame COLUMNS [conflicting_row])]
           [mkCategoryHandler 0 (Some conflicting_export)].

(** One source with the journals X and Y, of which the taxonomy knows X
    only, under the canonical journal TX. *)
Definition partly_known_export : Export :=
  mkExport
    [("C1", mkCategoryData {["Q1"]} {["bio"]})]
    [("bio", {["C1"]})]
    [("TX", [("C1", {["Q1"]})])]
    [("TX", {["bio"]})]
    [("x", "TX")].

Definition partly_known_engine : BasicQueryEngine :=
  mkEngine [constant_handler 0 first_frame]
           [mkCategoryHandler 0 (Some partly_known_export)].

(** A source whose table has an identifier and a flag only, beside a
    source with all columns: the merged table has NaN under the other
    columns in the row of Z. *)
Definition short_row (i : string) (apc : bool) : Row :=
  mkRow (Some i) None None None [] None None None (Some apc) [] ["id"; "apc"].

Definition short_engine (apc : bool) : BasicQueryEngine :=
  mkEngine [constant_handler 0 first_frame;
            constant_handler 1 (mkFrame ["id"; "apc"] [short_row "Z" apc])]
           [].

(** A source whose table lacks the titles only. *)
Definition untitled_columns : list string :=
  ["id"; "print_issn"; "electronic_issn"; "languages";
   "publisher"; "doaj_seal"; "license"; "apc"; "identifiers"].

Definition untitled_engine : BasicQueryEngine :=
  mkEngine [constant_handler 0 first_frame;
            constant_handler 1
              (mkFrame untitled_columns
                 [mkRow (Some "Z") None None None [] None (Some false) None (Some false)
                        ["Z"] untitled_columns])]
           [].

(** Every reference of the two maps of a taxonomy names an object of its heap. *)
Definition taxonomy_refs_valid (t : Taxonomy) : Prop :=
  Forall (fun c => c < length (heap_categories (tx_heap t))) (od_values (category_map t))
  /\ Forall (fun a => a < length (heap_areas (tx_heap t))) (od_values (area_map t)).

(** A handler of the package, registered under the identity [ident]. *)
Definition package_handler (str_contains : string -> outcome (option string -> bool))
    (ident : nat) (jq : JournalQueryHandler) : JournalHandler :=
  mkJournalHandler ident (JournalQueryHandler_call str_contains jq).

(** The handler answers as a [JournalQueryHandler] of the package does,
    whose store, if it has one, keeps a table of [COLUMNS]: [__init__] and
    [add_records] make no other. *)
Definition store_backed (str_contains : string -> outcome (option string -> bool))
    (h : JournalHandler) : Prop :=
  exists jq,
    (forall repo, jq_repository jq = Some repo -> table COLUMNS (store_frame repo))
    /\ forall call, jh_call h call = JournalQueryHandler_call str_contains jq call.

(** Every registered journal handler answers the call with a table of the
    columns [cols], as the handlers of the package do with [COLUMNS]. *)
Definition answers_tables (cols : list string) (e : BasicQueryEngine) (call : JournalCall)
    : Prop :=
  forall h f, h ∈ journalQuery e -> jh_call h call = Ok (Some f) -> table cols f.

(** The handler produces no row: what it returns is not a table, or is a
    table without rows. *)
Definition no_rows (h : JournalHandler) (call : JournalCall) : Prop :=
  jh_call h call = Ok None \/ exists f, jh_call h call = Ok (Some f) /\ rows f = [].

(** An in-memory store with two journals, behind a handler of the package. *)
Definition sample_store : InMemoryJournalStore :=
  mkStore (mkFrame COLUMNS [sample_row "X" "first" false; sample_row "Y" "other" true])
          [("x", "X"); ("y", "Y")].

Definition sample_store_engine : BasicQueryEngine :=
  mkEngine [package_handler (fun _ => Ok (fun _ => false)) 0
                            (mkJournalQueryHandler (Some sample_store));
            package_handler (fun _ => Ok (fun _ => false)) 1 (mkJournalQueryHandler None)]
           [].

(** ** Requests and the diamond query, in words *)

(** The request asks for the normal form [x]: one of its strings is not
    empty and has this normal form. *)
Definition asked (request : option (list string)) (x : string) : Prop :=
  exists q, q ∈ default [] request /\ q <> "" /\ _normalise_identifier (Some q) = x.

(** The request asks for nothing: it is [None], or every string of it is empty. *)
Definition asks_nothing (request : option (list string)) : Prop :=
  forall q, q ∈ default [] request -> q = "".

(** Nothing is asked of the areas, or an area of the journal has a normal
    identifier that is asked for. *)
Definition area_requested (h : Heap) (areas : option (list string)) (j : Journal) : Prop :=
  asks_nothing areas
  \/ exists a A, a ∈ Journal_getAreas j /\ heap_areas h !! a = Some A
       /\ asked areas (_normalise_identifier (Some (Area_getId A))).

(** One category of the journal passes both tests: its normal identifier is
    asked for (or nothing is asked of the categories), and one of its
    quartiles has a normal form that is asked for (or nothing is asked of
    the quartiles). *)
Definition category_requested (h : Heap) (categories quartiles : option (list string))
    (j : Journal) : Prop :=
  exists c C, c ∈ Journal_getCategories j /\ heap_categories h !! c = Some C
    /\ (asks_nothing categories
        \/ asked categories (_normalise_identifier (Some (Category_getId C))))
    /\ (asks_nothing quartiles
        \/ exists q, q ∈ Category_getQuartiles C
             /\ asked quartiles (_normalise_identifier (Some q))).

(** The same two tests on the sets of normal forms that the code makes of
    the requests. *)
Definition area_in_set (h : Heap) (requested_areas : gset string) (j : Journal) : Prop :=
  requested_areas = ∅
  \/ exists a A, a ∈ Journal_getAreas j /\ heap_areas h !! a = Some A
       /\ _normalise_identifier (Some (Area_getId A)) ∈ requested_areas.

Definition category_in_sets (h : Heap) (requested_categories requested_quartiles : gset string)
    (j : Journal) : Prop :=
  exists c C, c ∈ Journal_getCategories j /\ heap_categories h !! c = Some C
    /\ (requested_categories = ∅
        \/ _normalise_identifier (Some (Category_getId C)) ∈ requested_categories)
    /\ (requested_quartiles = ∅
        \/ exists q, q ∈ Category_getQuartiles C
             /\ _normalise_identifier (Some q) ∈ requested_quartiles).

(** The example of the specification: the journals A, free of charges, and
    B, with charges, both in the area bio and in the category C1 with
    quartile Q1. *)
Definition diamond_export : Export :=
  mkExport
    [("C1", mkCategoryData {["Q1"]} {["bio"]})]
    [("bio", {["C1"]})]
    [("A", [("C1", {["Q1"]})]); ("B", [("C1", {["Q1"]})])]
    [("A", {["bio"]}); ("B", {["bio"]})]
    [("a", "A"); ("b", "B")].

Definition diamond_engine : BasicQueryEngine :=
  mkEngine
    [constant_handler 0 (mkFrame COLUMNS [sample_row "A" "Journal A" false;
                                          sample_row "B" "Journal B" true])]
    [mkCategoryHandler 0 (Some diamond_export)].

(** Four journals: A and B as in the example; C, free of charges, in the
    area chem and in the category C2 with quartile Q2; and D, free of
    charges, which the taxonomy does not know. *)
Definition choice_export : Export :=
  mkExport
    [("C1", mkCategoryData {["Q1"]} {["bio"]}); ("C2", mkCategoryData {["Q2"]} {["chem"]})]
    [("bio", {["C1"]}); ("chem", {["C2"]})]
    [("A", [("C1", {["Q1"]})]); ("B", [("C1", {["Q1"]})]); ("C", [("C2", {["Q2"]})])]
    [("A", {["bio"]}); ("B", {["bio"]}); ("C", {["chem"]})]
    [("a", "A"); ("b", "B"); ("c", "C")].

Definition choice_frame : Frame :=
  mkFrame COLUMNS [sample_row "A" "Journal A" false; sample_row "B" "Journal B" true;
                   sample_row "C" "Journal C" false; sample_row "D" "Journal D" false].

Definition choice_engine : BasicQueryEngine :=
  mkEngine [constant_handler 0 choice_frame] [mkCategoryHandler 0 (Some choice_export)].

(** ** Further parts of [models] and [engine] *)

(** [models.IdentifiableEntity]: the base class, with its setters. *)
Record IdentifiableEntity := mkEntity {
  ent_id : string;
  ent_name : string;
}.

Definition IdentifiableEntity_init (entity_id name : option string) : IdentifiableEntity :=
  mkEntity (init_field entity_id) (init_field name).

Definition setId (entity_id : option string) (x : IdentifiableEntity) : IdentifiableEntity :=
  mkEntity (init_field entity_id) (ent_name x).

Definition setName (name : option string) (x : IdentifiableEntity) : IdentifiableEntity :=
  mkEntity (ent_id x) (init_field name).

Definition hasId (x : IdentifiableEntity) : bool := Py.truthy (ent_id x).
Definition hasName (x : IdentifiableEntity) : bool := Py.truthy (ent_name x).

(** A call of a setter, and a sequence of them on a new entity. *)
Inductive SetterCall :=
  | CallSetId (entity_id : option string)
  | CallSetName (name : option string).

Definition run_setter (x : IdentifiableEntity) (op : SetterCall) : IdentifiableEntity :=
  match op with
  | CallSetId entity_id => setId entity_id x
  | CallSetName name => setName name x
  end.

(** The calls that change the handler lists of an engine. *)
Inductive RegistryCall :=
  | CallAddJournalHandler (handler : option JournalHandler)
  | CallAddCategoryHandler (handler : option CategoryHandler)
  | CallCleanJournalHandlers
  | CallCleanCategoryHandlers.

Definition run_registry_call (e : BasicQueryEngine) (op : RegistryCall) : BasicQueryEngine :=
  match op with
  | CallAddJournalHandler handler => (addJournalHandler handler e).2
  | CallAddCategoryHandler handler => (addCategoryHandler handler e).2
  | CallCleanJournalHandlers => (cleanJournalHandlers e).2
  | CallCleanCategoryHandlers => (cleanCategoryHandlers e).2
  end.

(** Every entry of a link dictionary has a non-empty key, which is the
    identifier of the object it names; and no key occurs twice. *)
Definition links_wellformed (h : Heap) : Prop :=
  (forall c C, heap_categories h !! c = Some C ->
     NoDup (od_keys (cat_areas C))
     /\ forall k r, (k, r) ∈ cat_areas C ->
          Py.truthy k = true
          /\ exists A, heap_areas h !! r = Some A /\ Area_getId A = k)
  /\ (forall a A, heap_areas h !! a = Some A ->
        NoDup (od_keys (area_categories A))
        /\ forall k r, (k, r) ∈ area_categories A ->
             Py.truthy k = true
             /\ exists C, heap_categories h !! r = Some C /\ Category_getId C = k).

(** The fields of a journal that come from its row. *)
Definition journal_fields (j : Journal) :=
  (j_id j, j_name j, j_title j, j_print_issn j, j_electronic_issn j,
   j_publisher j, j_languages j, j_license j, j_has_apc j, j_has_doaj_seal j).

(** The row passes the license filter: nothing is asked of the licenses, or
    its license cell is a string whose normal form is asked for. *)
Definition license_requested (licenses : option (list string)) (record : Row) : Prop :=
  asks_nothing licenses
  \/ exists value, row_license record = Some value
       /\ asked licenses (_normalise_identifier (Some value)).

(** The same test on the set of normal forms that the code makes of the request. *)
Definition license_in_set (requested_licenses : gset string) (record : Row) : Prop :=
  requested_licenses = ∅
  \/ exists value, row_license record = Some value
       /\ _normalise_identifier (Some value) ∈ requested_licenses.

(** The four journals with licenses: A and C under CC BY in two spellings,
    B under CC0, and D without a license. *)
Definition licensed_row (i : string) (license : option string) : Row :=
  mkRow (Some i) (Some i) None None [] None (Some false) license (Some false) [i] COLUMNS.

Definition license_frame : Frame :=
  mkFrame COLUMNS [licensed_row "A" (Some "CC BY"); licensed_row "B" (Some "CC0");
                   licensed_row "C" (Some "cc-by"); licensed_row "D" None].

Definition license_engine : BasicQueryEngine :=
  mkEngine [constant_handler 0 license_frame] [mkCategoryHandler 0 (Some choice_export)].

(** The four journals beside a source whose table has an identifier and a
    flag only: the row of Z, with charges, has NaN under the other columns. *)
Definition mixed_engine : BasicQueryEngine :=
  mkEngine [constant_handler 0 choice_frame;
            constant_handler 1 (mkFrame ["id"; "apc"] [short_row "Z" true])]
           [mkCategoryHandler 0 (Some choice_export)].

(** A store of the package that holds a journal named as the category C1 is. *)
Definition namesake_store : InMemoryJournalStore :=
  mkStore (mkFrame COLUMNS [sample_row "C1" "Journal C1" false;
                            sample_row "A" "Journal A" false])
          [("c1", "C1"); ("a", "A")].

Definition namesake_engine : BasicQueryEngine :=
  mkEngine [package_handler (fun _ => Ok (fun _ => false)) 0
                            (mkJournalQueryHandler (Some namesake_store))]
           [mkCategoryHandler 0 (Some choice_export)].

(** The object at [c] is a category whose identifier has the normal form of
    [identifier]; likewise for the area at [a]. *)
Definition category_matches (t : Taxonomy) (identifier : option string) (c : nat) : Prop :=
  exists C, heap_categories (tx_heap t) !! c = Some C
    /\ _normalise_identifier (Some (Category_getId C)) = _normalise_identifier identifier.

Definition area_matches (t : Taxonomy) (identifier : option string) (a : nat) : Prop :=
  exists A, heap_areas (tx_heap t) !! a = Some A
    /\ _normalise_identifier (Some (Area_getId A)) = _normalise_identifier identifier.

(** An engine with the example taxonomy and no journal handler. *)
Definition taxonomy_only_engine : BasicQueryEngine :=
  mkEngine [] [mkCategoryHandler 0 (Some diamond_export)].

(** The exports that the merge reads, in registration order: those of the
    handlers that have a repository. *)
Definition all_exports (e : BasicQueryEngine) : list Export :=
  omap ch_repository (categoryQuery e).

(** The values filed under [k] in a list of items, in order. *)
Definition values_for {D : Type} (k : string) (items : list (string * D)) : list D :=
  snd <$> List.filter (fun item => String.eqb k item.1) items.

(** The bodies of the five loops of one round of the merge, by name. *)
Definition categories_step (acc : odict CategoryData) (item : string * CategoryData)
    : odict CategoryData :=
  let '(cid, data) := item in
  od_upsert cid (mkCategoryData ∅ ∅)
    (fun record => mkCategoryData (cd_quartiles record ∪ cd_quartiles data)
                                  (cd_areas record ∪ cd_areas data))
    acc.

Definition set_step (acc : odict (gset string)) (item : string * gset string)
    : odict (gset string) :=
  let '(k, data) := item in od_upsert k ∅ (fun record => record ∪ data) acc.

Definition journal_categories_step (acc : odict (odict (gset string)))
    (item : string * odict (gset string)) : odict (odict (gset string)) :=
  let '(jid, data) := item in
  od_upsert jid [] (fun journal_record => fold_left set_step data journal_record) acc.

Definition alias_step (acc : odict string) (item : string * string) : odict string :=
  let '(alias_norm, canonical) := item in od_setdefault alias_norm canonical acc.

(** All the items of one field of the exports, in the order the merge reads them. *)
Definition all_items {D : Type} (field : Export -> odict D) (e : BasicQueryEngine)
    : list (string * D) :=
  concat (field <$> all_exports e).

(** A merged dictionary of sets has a key exactly when some export has it,
    and holds under it the union of what the exports hold. *)
Definition merged_sets (field : Export -> odict (gset string)) (e : BasicQueryEngine)
    (merged : odict (gset string)) : Prop :=
  forall k,
    (od_get k merged = None <-> forall ex, ex ∈ all_exports e -> od_get k (field ex) = None)
    /\ forall X, od_get k merged = Some X ->
         forall x, x ∈ X
           <-> exists ex data, ex ∈ all_exports e /\ (k, data) ∈ field ex /\ x ∈ data.

(** The two maps of a taxonomy name the objects of its heap one to one and
    in allocation order, under keys that occur once, and the identifier of
    an object is its key, trimmed. *)
Definition taxonomy_wellformed (t : Taxonomy) : Prop :=
  NoDup (od_keys (category_map t))
  /\ NoDup (od_keys (area_map t))
  /\ od_values (category_map t) = seq 0 (length (heap_categories (tx_heap t)))
  /\ od_values (area_map t) = seq 0 (length (heap_areas (tx_heap t)))
  /\ (forall cid c, (cid, c) ∈ category_map t ->
        exists C, heap_categories (tx_heap t) !! c = Some C
          /\ Category_getId C = Py.strip cid)
  /\ (forall aid a, (aid, a) ∈ area_map t ->
        exists A, heap_areas (tx_heap t) !! a = Some A /\ Area_getId A = Py.strip aid).

(** [members m l F key x]: the object of [l] that the map [m] keeps under
    [key] has [x] in its list [F]. *)
Definition members {T : Type} (m : odict nat) (l : list T) (F : T -> list string)
    (key x : string) : Prop :=
  exists i X, (key, i) ∈ m /\ l !! i = Some X /\ x ∈ F X.

(** The category kept under a key has a quartile; has an area identifier
    among the keys of its [_areas]; and likewise for an area. *)
Definition category_has_quartile (t : Taxonomy) : string -> string -> Prop :=
  members (category_map t) (heap_categories (tx_heap t)) Category_getQuartiles.

Definition category_has_area (t : Taxonomy) : string -> string -> Prop :=
  members (category_map t) (heap_categories (tx_heap t)) (fun C => od_keys (cat_areas C)).

Definition area_has_category (t : Taxonomy) : string -> string -> Prop :=
  members (area_map t) (heap_areas (tx_heap t)) (fun A => od_keys (area_categories A)).

(** ** [_InMemoryJournalStore.add_records] *)

(** A record as [SparqlJournalRepository.load_csv] builds it: a dictionary
    with the ten keys of [COLUMNS], in that order, whose texts are strings
    and whose two flags are booleans. *)
Record JournalRecord := mkJournalRecord {
  rec_id : string;
  rec_title : string;
  rec_print_issn : string;
  rec_electronic_issn : string;
  rec_languages : list string;
  rec_publisher : string;
  rec_doaj_seal : bool;
  rec_license : string;
  rec_apc : bool;
  rec_identifiers : list string;
}.

(** The row of the table that a record becomes. *)
Definition record_row (rec : JournalRecord) : Row :=
  mkRow (Some (rec_id rec)) (Some (rec_title rec)) (Some (rec_print_issn rec))
        (Some (rec_electronic_issn rec)) (rec_languages rec) (Some (rec_publisher rec))
        (Some (rec_doaj_seal rec)) (Some (rec_license rec)) (Some (rec_apc rec))
        (rec_identifiers rec) COLUMNS.

(** [pd.DataFrame.from_records(records)] for a non-empty list of such records. *)
Definition from_records (records : list JournalRecord) : Frame :=
  mkFrame COLUMNS (record_row <$> records).

(** [combined.drop_duplicates(subset="id", keep="last")]: a row stays when
    no later row has its [id]. *)
Fixpoint drop_duplicates_id_last (rs : list Row) : list Row :=
  match rs with
  | [] => []
  | r :: rs' =>
      if bool_decide (row_id r ∈ row_id <$> rs') then drop_duplicates_id_last rs'
      else r :: drop_duplicates_id_last rs'
  end.

(** [d[k] = v]: a key that is present keeps its place. *)
Definition od_set {V : Type} (k : string) (v : V) (d : odict V) : odict V :=
  if od_mem k d then od_alter (fun _ => v) k d else d ++ [(k, v)].

(** The inner loop of [add_records], for one record. *)
Definition index_record (index : odict string) (rec : JournalRecord) : odict string :=
  fold_left (fun index identifier =>
               let normalised := _normalise_identifier (Some identifier) in
               if Py.truthy normalised then
                 od_set (_normalise_identifier (Some (Py.remove_hyphens identifier)))
                        (rec_id rec)
                        (od_set normalised (rec_id rec) index)
               else index)
            (rec_identifiers rec) index.

Definition add_records (records : list JournalRecord) (s : InMemoryJournalStore)
    : InMemoryJournalStore :=
  match records with
  | [] => s
  | _ :: _ =>
      let new_df := from_records records in
      let frame :=
        if frame_empty (store_frame s) then new_df
        else
          let combined := pd_concat [store_frame s; new_df] in
          mkFrame (columns combined) (drop_duplicates_id_last (rows combined)) in
      mkStore frame (fold_left index_record records (store_index s))
  end.

(** A record has an identifier with the normal form [key]. *)
Definition record_owns (key : string) (rec : JournalRecord) : bool :=
  existsb (fun i => String.eqb (_normalise_identifier (Some i)) key) (rec_identifiers rec).

(** Two records of one journal and one of another that shares a title
    with it, and a store that was loaded once. *)
Definition sample_records : list JournalRecord :=
  [mkJournalRecord "1234-5678" "Acta" "1234-5678" "" [] "P" false "CC BY" false
                   ["1234-5678"; "Acta"];
   mkJournalRecord "9999-0000" "Acta" "" "9999-0000" [] "Q" true "CC0" true
                   ["9999-0000"; "Acta"]].

Definition loaded_store : InMemoryJournalStore :=
  add_records [mkJournalRecord "1234-5678" "Old" "1234-5678" "" [] "P" false "" false
                               ["1234-5678"; "Old"]]
              (mkStore (DataFrame_columns COLUMNS) []).

(** ** Handlers and the stores of the process *)

(** [_JOURNAL_STORES]: the stores of the process by endpoint. A
    [SparqlJournalRepository] keeps the store object that the dictionary
    has for its endpoint; an entry is never replaced or removed, so the
    endpoint stands for the reference to the store. *)
Definition JournalStores := odict InMemoryJournalStore.

(** [_InMemoryJournalStore.__init__] *)
Definition InMemoryJournalStore_init : InMemoryJournalStore :=
  mkStore (DataFrame_columns COLUMNS) [].

(** [SparqlJournalRepository.__init__(endpoint)] *)
Definition SparqlJournalRepository_init (endpoint : string) (stores : JournalStores)
    : JournalStores :=
  od_setdefault endpoint InMemoryJournalStore_init stores.

(** A [JournalUploadHandler] or a [JournalQueryHandler]: [_dbPathOrUrl],
    and [_repository] as the endpoint of the repository, if there is one. *)
Record JournalHandlerState := mkJournalHandlerState {
  dbPathOrUrl : string;
  repository_endpoint : option string;
}.

(** [Handler.__init__] and the [__init__] of both journal handlers. *)
Definition JournalHandlerState_init : JournalHandlerState := mkJournalHandlerState "" None.

Definition getDbPathOrUrl (h : JournalHandlerState) : string := dbPathOrUrl h.

(** [Handler.setDbPathOrUrl]; [None] stands for an argument that is not a [str]. *)
Definition Handler_setDbPathOrUrl (db_path_or_url : option string) (h : JournalHandlerState)
    : bool * JournalHandlerState :=
  match db_path_or_url with
  | None => (false, h)
  | Some s => (true, mkJournalHandlerState (Py.strip s) (repository_endpoint h))
  end.

(** [JournalQueryHandler.setDbPathOrUrl] *)
Definition JournalQueryHandler_setDbPathOrUrl (db_path_or_url : option string)
    (h : JournalHandlerState) (stores : JournalStores)
    : bool * JournalHandlerState * JournalStores :=
  let '(ok, h1) := Handler_setDbPathOrUrl db_path_or_url h in
  if negb ok then (false, h1, stores)
  else (true,
        mkJournalHandlerState (dbPathOrUrl h1) (Some (getDbPathOrUrl h1)),
        SparqlJournalRepository_init (getDbPathOrUrl h1) stores).

(** [JournalUploadHandler.setDbPathOrUrl], the same method. *)
Definition JournalUploadHandler_setDbPathOrUrl :=
  JournalQueryHandler_setDbPathOrUrl.

(** What [JournalUploadHandler.pushDataToDb] does to the stores when
    [load_csv] reads [records] from the file:
    [self._store.add_records(records)] on the store of the repository, and
    nothing without a repository. *)
Definition pushDataToDb_records (records : list JournalRecord) (h : JournalHandlerState)
    (stores : JournalStores) : JournalStores :=
  match repository_endpoint h with
  | None => stores
  | Some endpoint => od_alter (add_records records) endpoint stores
  end.

(** The [JournalQueryHandler] with the store its repository has now. *)
Definition JournalQueryHandler_now (h : JournalHandlerState) (stores : JournalStores)
    : JournalQueryHandler :=
  mkJournalQueryHandler (endpoint ← repository_endpoint h; od_get endpoint stores).

(** The store after the batches were loaded one after the other. *)
Definition load_batches (batches : list (list JournalRecord)) (s : InMemoryJournalStore)
    : InMemoryJournalStore :=
  fold_left (fun s records => add_records records s) batches s.

(** What holds of a store that was loaded with the batches [past] and
    nothing else: the table has the columns the lookup reads; an index
    entry names a non-empty [id] that has a row; the index has a non-empty
    normal form exactly when a loaded record has an identifier of that
    normal form; and the identifiers of the rows are in the index. *)
Definition store_loaded (s : InMemoryJournalStore) (past : list (list JournalRecord)) : Prop :=
  ("id" ∈ columns (store_frame s) /\ "identifiers" ∈ columns (store_frame s))
  /\ (forall key v, key <> "" -> od_get key (store_index s) = Some v ->
        v <> "" /\ Some v ∈ row_id <$> rows (store_frame s))
  /\ (forall key, key <> "" ->
        is_Some (od_get key (store_index s))
        <-> exists records rec, records ∈ past /\ rec ∈ records
                                /\ record_owns key rec = true)
  /\ (forall r i, r ∈ rows (store_frame s) -> i ∈ row_identifiers r ->
        _normalise_identifier (Some i) <> "" ->
        is_Some (od_get (_normalise_identifier (Some i)) (store_index s))).

(** * Properties *)

(** ** Lists *)

Lemma filter_all_true {A : Type} (p : A -> bool) (l : list A) :
  Forall (fun x => p x = true) l -> List.filter p l = l.
Proof. induction 1 as [|x l Hx Hl IH]; simpl; [done|]. by rewrite Hx, IH. Qed.

Lemma elem_of_filter {A : Type} (p : A -> bool) (l : list A) (x : A) :
  x ∈ List.filter p l <-> x ∈ l /\ p x = true.
Proof. by rewrite !list_elem_of_In, filter_In. Qed.

Lemma filter_sublist {A : Type} (p : A -> bool) (l : list A) : sublist (List.filter p l) l.
Proof.
  induction l as [|x l IH]; simpl; [constructor|].
  destruct (p x); [by apply sublist_skip|by apply sublist_cons].
Qed.

Lemma filter_none {A : Type} (p : A -> bool) (l : list A) :
  (forall x, x ∈ l -> p x = false) -> List.filter p l = [].
Proof.
  induction l as [|x l IH]; intros H; simpl; [done|].
  rewrite (H x) by (apply elem_of_cons; by left).
  apply IH. intros y Hy. apply H, elem_of_cons. by right.
Qed.

Lemma filter_fmap {A B : Type} (p : B -> bool) (f : A -> B) (l : list A) :
  List.filter p (f <$> l) = f <$> List.filter (fun x => p (f x)) l.
Proof.
  induction l as [|x l IH]; simpl; [done|]. destruct (p (f x)); simpl; by f_equal.
Qed.

Lemma elem_of_concat {A : Type} (x : A) (ls : list (list A)) :
  x ∈ concat ls <-> exists l, l ∈ ls /\ x ∈ l.
Proof.
  rewrite list_elem_of_In, in_concat. split; intros (l & H1 & H2); exists l;
    by rewrite ?list_elem_of_In in *.
Qed.

Lemma union_columns_nil cs : union_columns [] cs = cs.
Proof.
  unfold union_columns. cbn [app]. apply filter_all_true, Forall_forall. intros d _.
  apply negb_true_iff, bool_decide_eq_false, not_elem_of_nil.
Qed.

Lemma truthy_true s : Py.truthy s = true <-> s <> "".
Proof. unfold Py.truthy. rewrite negb_true_iff. apply String.eqb_neq. Qed.

Lemma column_ok col f : col ∈ columns f -> column col f = Ok tt.
Proof. intros H. unfold column. by rewrite bool_decide_eq_true_2. Qed.

Lemma column_missing col f : col ∉ columns f -> column col f = Raise (KeyError col).
Proof. intros H. unfold column. by rewrite bool_decide_eq_false_2. Qed.

(** ** The identifier normaliser *)

Section normaliser.

Lemma in_09az_not_space c : in_09az c = true -> Py.is_space c = false.
Proof. destruct c as [[] [] [] [] [] [] [] []]; vm_compute; congruence. Qed.

Lemma in_09az_lower_char c : in_09az c = true -> Py.lower_char c = c.
Proof. destruct c as [[] [] [] [] [] [] [] []]; vm_compute; congruence. Qed.

Lemma space_lower_char c : Py.is_space c = true -> in_09az (Py.lower_char c) = false.
Proof. destruct c as [[] [] [] [] [] [] [] []]; vm_compute; congruence. Qed.

Lemma re_sub_chars s :
  Py.chars (re_sub_non_09az s) = List.filter in_09az (Py.chars s).
Proof.
  induction s as [|c s IH]; simpl; [done|].
  destruct (in_09az c); simpl; by rewrite IH.
Qed.

Lemma re_sub_class s :
  Forall (fun c => in_09az c = true) (Py.chars (re_sub_non_09az s)).
Proof.
  induction s as [|c s IH]; simpl; [constructor|].
  destruct (in_09az c) eqn:Hc; simpl; [by constructor|done].
Qed.

Lemma re_sub_lstrip s :
  re_sub_non_09az (Py.lower (Py.lstrip s)) = re_sub_non_09az (Py.lower s).
Proof.
  induction s as [|c s IH]; simpl; [done|].
  destruct (Py.is_space c) eqn:Hc; [|done].
  by rewrite IH, (space_lower_char c Hc).
Qed.

Lemma re_sub_rstrip s :
  re_sub_non_09az (Py.lower (Py.rstrip s)) = re_sub_non_09az (Py.lower s).
Proof.
  induction s as [|c s IH]; simpl; [done|].
  destruct (Py.rstrip s) as [|c' r] eqn:Hr.
  - simpl in IH. destruct (Py.is_space c) eqn:Hc; simpl.
    + by rewrite (space_lower_char c Hc).
    + by rewrite <- IH.
  - cbn [Py.lower re_sub_non_09az] in *. by rewrite IH.
Qed.

(** Trimming is subsumed by the removal of the characters outside the class. *)
Lemma normalise_without_strip s :
  _normalise_identifier (Some s) = re_sub_non_09az (Py.lower s).
Proof. unfold _normalise_identifier, Py.strip. by rewrite re_sub_rstrip, re_sub_lstrip. Qed.

(** On a string of the class, no step of the normaliser changes anything. *)
Lemma re_sub_lower_fixed s :
  Forall (fun c => in_09az c = true) (Py.chars s) ->
  re_sub_non_09az (Py.lower s) = s.
Proof.
  induction s as [|c s IH]; simpl; [done|].
  intros H. apply Forall_cons in H as [Hc Hs].
  by rewrite (in_09az_lower_char c Hc), Hc, IH.
Qed.

Lemma normalise_idempotent v :
  _normalise_identifier (Some (_normalise_identifier v)) = _normalise_identifier v.
Proof.
  rewrite normalise_without_strip. destruct v as [s|]; [|done].
  apply re_sub_lower_fixed. unfold _normalise_identifier. apply re_sub_class.
Qed.

End normaliser.

(** C5. [_normalise_identifier] returns the characters of the trimmed and
    lower-cased input that lie in [[0-9a-z]], in their order, and nothing
    else (trimming first or not makes no difference); [None] and the empty
    string give the empty string; normalising twice is normalising once; and
    the four spellings of 1234-5678 all give 12345678. *)
Theorem normalise_identifier_spec :
  (forall s : string,
     Py.chars (_normalise_identifier (Some s))
       = List.filter in_09az (Py.chars (Py.lower (Py.strip s)))
     /\ Py.chars (_normalise_identifier (Some s))
       = List.filter in_09az (Py.chars (Py.lower s))
     /\ Forall (fun c => in_09az c = true) (Py.chars (_normalise_identifier (Some s))))
  /\ _normalise_identifier None = ""
  /\ _normalise_identifier (Some "") = ""
  /\ (forall x : option string,
        _normalise_identifier (Some (_normalise_identifier x)) = _normalise_identifier x)
  /\ _normalise_identifier (Some "1234-5678") = "12345678"
  /\ _normalise_identifier (Some "1234 5678") = "12345678"
  /\ _normalise_identifier (Some "12345678") = "12345678"
  /\ _normalise_identifier (Some " 1234-5678 ") = "12345678".
Proof.
  split; [|repeat split; try reflexivity; apply normalise_idempotent].
  intros s. split; [apply re_sub_chars|]. split.
  - rewrite normalise_without_strip. apply re_sub_chars.
  - apply re_sub_class.
Qed.

(** ** Invariants of the taxonomy assembly *)

Lemma fold_left_invariant {A B : Type} (P : A -> Prop) (f : A -> B -> A) (l : list B) :
  (forall a x, P a -> P (f a x)) -> forall a, P a -> P (fold_left f l a).
Proof. intros Hf. induction l as [|x l IH]; simpl; auto. Qed.

(** Whatever holds of the empty taxonomy and is kept by the four ways the
    assembly changes its state holds of the assembled taxonomy. *)
Lemma build_taxonomy_invariant (P : Taxonomy -> Prop) :
  P (mkTaxonomy empty_heap [] []) ->
  (forall t cid, P t -> P (category_setdefault cid t).2) ->
  (forall t aid, P t -> P (area_setdefault aid t).2) ->
  (forall t c quartile, P t ->
     P (with_heap (fun h => mkHeap (alter (Category_addQuartile (Some quartile)) c
                                          (heap_categories h)) (heap_areas h)) t)) ->
  (forall t c a, P t -> P (with_heap (Category_addArea c a) t)) ->
  forall exports, P (build_taxonomy_from exports).
Proof.
  intros H0 Hc Ha Hq Hl exports. unfold build_taxonomy_from.
  apply fold_left_invariant.
  - intros t [aid data] Ht. unfold taxonomy_area.
    specialize (Ha t aid Ht). destruct (area_setdefault aid t) as [a t1]; simpl in Ha.
    apply fold_left_invariant; [|done].
    intros t' cid Ht'. specialize (Hc t' cid Ht').
    destruct (category_setdefault cid t') as [c t2]; simpl in Hc. by apply Hl.
  - apply fold_left_invariant; [|done].
    intros t [cid data] Ht. unfold taxonomy_category.
    specialize (Hc t cid Ht). destruct (category_setdefault cid t) as [c t1]; simpl in Hc.
    apply fold_left_invariant; [|done].
    intros t' quartile Ht'. by apply Hq.
Qed.

Lemma Forall_alter_keep {A : Type} (P : A -> Prop) (f : A -> A) (i : nat) (l : list A) :
  (forall x, P x -> P (f x)) -> Forall P l -> Forall P (alter f i l).
Proof. intros Hf Hl. apply Forall_alter; auto. Qed.

Lemma names_are_ids_link_area c a h :
  names_are_ids h -> names_are_ids (Category_link_area c a h).
Proof.
  intros [Hc Ha]. unfold Category_link_area.
  destruct (heap_areas h !! a) as [area|]; [|done].
  destruct (Py.truthy (Area_getId area)); [|done].
  split; simpl; [|done]. apply Forall_alter_keep; [|done]. by intros [].
Qed.

Lemma names_are_ids_link_category a c h :
  names_are_ids h -> names_are_ids (Area_link_category a c h).
Proof.
  intros [Hc Ha]. unfold Area_link_category.
  destruct (heap_categories h !! c) as [category|]; [|done].
  destruct (Py.truthy (Category_getId category)); [|done].
  split; simpl; [done|]. apply Forall_alter_keep; [|done]. by intros [].
Qed.

Lemma names_are_ids_addArea c a h :
  names_are_ids h -> names_are_ids (Category_addArea c a h).
Proof.
  intros H. unfold Category_addArea.
  destruct (heap_areas h !! a) as [area|]; [|done].
  destruct (Py.truthy (Area_getId area)); [|done].
  by apply names_are_ids_link_category, names_are_ids_link_area.
Qed.

Lemma names_are_ids_taxonomy exports :
  names_are_ids (tx_heap (build_taxonomy_from exports)).
Proof.
  apply (build_taxonomy_invariant (fun t => names_are_ids (tx_heap t))).
  - by split.
  - intros t cid [Hc Ha]. unfold category_setdefault.
    destruct (od_get cid (category_map t)); simpl; [done|].
    split; simpl; [|done]. apply Forall_app. split; [done|]. by repeat constructor.
  - intros t aid [Hc Ha]. unfold area_setdefault.
    destruct (od_get aid (area_map t)); simpl; [done|].
    split; simpl; [done|]. apply Forall_app. split; [done|]. by repeat constructor.
  - intros t c quartile [Hc Ha]. split; simpl; [|done].
    apply Forall_alter_keep; [|done].
    intros x Hx. unfold Category_addQuartile.
    destruct (Py.truthy quartile); [|done].
    by destruct (Py.truthy (Py.strip quartile)).
  - intros t c a H. simpl. by apply names_are_ids_addArea.
Qed.

(** C9. A category and an area built from an identifier carry it, trimmed,
    both as identifier and as name; and every category and area of the
    taxonomy the engine assembles has its name equal to its identifier. *)
Theorem taxonomy_name_is_id :
  (forall s : option string,
     Category_getName (Category_init s) = Category_getId (Category_init s)
     /\ Category_getId (Category_init s) = Py.strip (Py.or_empty s)
     /\ Area_getName (Area_init s) = Area_getId (Area_init s)
     /\ Area_getId (Area_init s) = Py.strip (Py.or_empty s))
  /\ (forall e : BasicQueryEngine,
        Forall (fun c => Category_getName c = Category_getId c)
               (heap_categories (tx_heap (_build_taxonomy e).1))
        /\ Forall (fun a => Area_getName a = Area_getId a)
                  (heap_areas (tx_heap (_build_taxonomy e).1))).
Proof.
  split; [done|]. intros e. apply names_are_ids_taxonomy.
Qed.

(** ** The mutual link between categories and areas *)

Section odict_facts.
Context {V : Type}.
Implicit Types (d : odict V) (k : string) (v : V).

Lemma od_get_elem k v d : od_get k d = Some v -> (k, v) ∈ d.
Proof.
  induction d as [|[k' v'] d IH]; simpl; [done|].
  destruct (String.eqb_spec k k') as [->|Hne].
  - intros [= ->]. apply elem_of_cons. by left.
  - intros H. apply elem_of_cons. right. by apply IH.
Qed.

Lemma od_get_None k d : od_get k d = None <-> forall v, (k, v) ∉ d.
Proof.
  induction d as [|[k' v'] d IH]; simpl.
  - split; [|done]. intros _ v. apply not_elem_of_nil.
  - destruct (String.eqb_spec k k') as [->|Hne].
    + split; [done|]. intros H. destruct (H v'). apply elem_of_cons. by left.
    + rewrite IH. split; intros H v.
      * rewrite elem_of_cons. intros [[= ? ?]|?]; [done|]. by apply (H v).
      * intros Hin. apply (H v). apply elem_of_cons. by right.
Qed.

Lemma elem_of_od_setdefault k v d x :
  x ∈ od_setdefault k v d <-> x ∈ d \/ (od_get k d = None /\ x = (k, v)).
Proof.
  unfold od_setdefault, od_mem. destruct (od_get k d) eqn:Hget.
  - split; [by left|]. by intros [?|[? _]].
  - rewrite elem_of_app, list_elem_of_singleton. split.
    + intros [?|?]; [by left|by right].
    + intros [?|[_ ?]]; [by left|by right].
Qed.

Lemma elem_of_od_values v d : v ∈ od_values d <-> exists k, (k, v) ∈ d.
Proof.
  unfold od_values. rewrite list_elem_of_fmap. split.
  - intros [[k v'] [-> Hin]]. by exists k.
  - intros [k Hin]. by exists (k, v).
Qed.

End odict_facts.

Lemma alter_lookup_None {A : Type} (f : A -> A) (i : nat) (l : list A) :
  l !! i = None -> alter f i l = l.
Proof.
  revert i. induction l as [|x l IH]; intros [|i]; simpl; try done.
  intros H. f_equal. by apply IH.
Qed.

Section links.

Lemma addArea_link_both c a h :
  ids_proper h -> Category_addArea c a h = link_both c a h.
Proof.
  intros (Hc & Ha & _). unfold Category_addArea, link_both, area_ids, category_ids in *.
  rewrite Forall_fmap in Hc. rewrite Forall_fmap in Ha.
  destruct (heap_areas h !! a) as [A|] eqn:HA; [|by destruct (heap_categories h !! c)].
  rewrite (proj1 (Forall_lookup _ _) Ha a A HA).
  unfold Category_link_area. rewrite HA, (proj1 (Forall_lookup _ _) Ha a A HA).
  unfold Area_link_category. simpl. rewrite list_lookup_alter_eq.
  destruct (heap_categories h !! c) as [C|] eqn:HC; simpl.
  - unfold Category_getId at 1. simpl. unfold Category_getId in Hc.
    by rewrite (proj1 (Forall_lookup _ _) Hc c C HC).
  - rewrite alter_lookup_None by done. by destruct h.
Qed.

Lemma addCategory_link_both a c h :
  ids_proper h -> Area_addCategory a c h = link_both c a h.
Proof.
  intros (Hc & Ha & _). unfold Area_addCategory, link_both, area_ids, category_ids in *.
  rewrite Forall_fmap in Hc. rewrite Forall_fmap in Ha.
  destruct (heap_categories h !! c) as [C|] eqn:HC; [|done].
  rewrite (proj1 (Forall_lookup _ _) Hc c C HC).
  unfold Category_link_area.
  destruct (heap_areas h !! a) as [A|] eqn:HA.
  - rewrite (proj1 (Forall_lookup _ _) Ha a A HA).
    unfold Area_link_category. simpl. rewrite list_lookup_alter_eq, HC. simpl.
    unfold Category_getId at 1. simpl. unfold Category_getId in Hc.
    by rewrite (proj1 (Forall_lookup _ _) Hc c C HC).
  - unfold Area_link_category. rewrite HC, (proj1 (Forall_lookup _ _) Hc c C HC).
    rewrite alter_lookup_None by done. by destruct h.
Qed.

End links.

Lemma fmap_alter_keep {A B : Type} (g : A -> B) (f : A -> A) (i : nat) (l : list A) :
  (forall x, g (f x) = g x) -> g <$> alter f i l = g <$> l.
Proof.
  intros Hf. revert i. induction l as [|x l IH]; intros [|i]; simpl; try done.
  - by rewrite Hf.
  - f_equal. apply IH.
Qed.

Lemma lookup_alter_keep {A B : Type} (g : A -> B) (f : A -> A) (i j : nat) (l : list A) x :
  (forall x, g (f x) = g x) -> l !! j = Some x ->
  exists y, alter f i l !! j = Some y /\ g y = g x.
Proof.
  intros Hf Hx. rewrite list_lookup_alter. case_decide; subst.
  - rewrite Hx. simpl. eauto.
  - eauto.
Qed.

Lemma link_both_ids c a h :
  category_ids (link_both c a h) = category_ids h
  /\ area_ids (link_both c a h) = area_ids h.
Proof.
  unfold link_both, category_ids, area_ids.
  destruct (heap_categories h !! c), (heap_areas h !! a); try done.
  simpl. split; by apply fmap_alter_keep.
Qed.

Lemma link_both_sound c0 a0 h : links_sound h -> links_sound (link_both c0 a0 h).
Proof.
  intros [Hs1 Hs2]. unfold link_both.
  destruct (heap_categories h !! c0) as [C0|] eqn:HC0; [|done].
  destruct (heap_areas h !! a0) as [A0|] eqn:HA0; [|done].
  split; simpl.
  - intros c C k r HC Hin. rewrite list_lookup_alter in HC.
    assert (Hold : forall C1, heap_categories h !! c = Some C1 -> (k, r) ∈ cat_areas C1 ->
              exists A, alter (fun self => mkArea (area_id self) (area_name self)
                   (od_setdefault (Category_getId C0) c0 (area_categories self))) a0
                   (heap_areas h) !! r = Some A /\ Area_getId A = k).
    { intros C1 HC1 Hin1. destruct (Hs1 c C1 k r HC1 Hin1) as (A & HA & <-).
      by apply (lookup_alter_keep Area_getId). }
    case_decide as Hc; [subst c|by eapply Hold].
    rewrite HC0 in HC. injection HC as <-. simpl in Hin.
    apply elem_of_od_setdefault in Hin as [Hin|[_ [= -> ->]]]; [by eapply Hold|].
    rewrite list_lookup_alter_eq, HA0. simpl. eauto.
  - intros a A k r HA Hin. rewrite list_lookup_alter in HA.
    assert (Hold : forall A1, heap_areas h !! a = Some A1 -> (k, r) ∈ area_categories A1 ->
              exists C, alter (fun self => mkCategory (cat_id self) (cat_name self)
                   (cat_quartiles self)
                   (od_setdefault (Area_getId A0) a0 (cat_areas self))) c0
                   (heap_categories h) !! r = Some C /\ Category_getId C = k).
    { intros A1 HA1 Hin1. destruct (Hs2 a A1 k r HA1 Hin1) as (C & HC & <-).
      by apply (lookup_alter_keep Category_getId). }
    case_decide as Ha; [subst a|by eapply Hold].
    rewrite HA0 in HA. injection HA as <-. simpl in Hin.
    apply elem_of_od_setdefault in Hin as [Hin|[_ [= -> ->]]]; [by eapply Hold|].
    rewrite list_lookup_alter_eq, HC0. simpl. eauto.
Qed.

(** After a link, the area [a0] is among the areas of the category [c0], and
    nothing else has changed on that side. *)
Lemma link_both_area_in_category c0 a0 h C0 A0 c a :
  ids_proper h -> links_sound h ->
  heap_categories h !! c0 = Some C0 -> heap_areas h !! a0 = Some A0 ->
  area_in_category (link_both c0 a0 h) a c
  <-> area_in_category h a c \/ (c = c0 /\ a = a0).
Proof.
  intros (_ & _ & _ & Hnd) [Hs1 _] HC0 HA0. unfold link_both, area_in_category.
  rewrite HC0, HA0. simpl. split.
  - intros (C & HC & Hin). rewrite list_lookup_alter in HC.
    case_decide as Hc; [subst c|left; by exists C].
    rewrite HC0 in HC. injection HC as <-.
    apply elem_of_od_values in Hin as [k Hin]. simpl in Hin.
    apply elem_of_od_setdefault in Hin as [Hin|[_ [= _ ->]]]; [left|by right].
    exists C0. split; [done|]. apply elem_of_od_values. by exists k.
  - intros [(C & HC & Hin)|[-> ->]].
    + rewrite list_lookup_alter. case_decide as Hc; [subst c|by exists C].
      rewrite HC0 in HC. injection HC as <-. rewrite HC0. simpl.
      eexists. split; [done|]. simpl.
      apply elem_of_od_values in Hin as [k Hin]. apply elem_of_od_values.
      exists k. apply elem_of_od_setdefault. by left.
    + rewrite list_lookup_alter_eq, HC0. simpl. eexists. split; [done|]. simpl.
      apply elem_of_od_values. exists (Area_getId A0). apply elem_of_od_setdefault.
      destruct (od_get (Area_getId A0) (cat_areas C0)) as [r|] eqn:Hget; [left|by right].
      apply od_get_elem in Hget.
      destruct (Hs1 c0 C0 _ r HC0 Hget) as (A & HA & Hid).
      assert (r = a0) as ->; [|done].
      apply (NoDup_lookup (area_ids h) r a0 (Area_getId A0)); [done| |];
        unfold area_ids; rewrite list_lookup_fmap.
      * by rewrite HA, <- Hid.
      * by rewrite HA0.
Qed.

Lemma link_both_category_in_area c0 a0 h C0 A0 c a :
  ids_proper h -> links_sound h ->
  heap_categories h !! c0 = Some C0 -> heap_areas h !! a0 = Some A0 ->
  category_in_area (link_both c0 a0 h) c a
  <-> category_in_area h c a \/ (c = c0 /\ a = a0).
Proof.
  intros (_ & _ & Hnd & _) [_ Hs2] HC0 HA0. unfold link_both, category_in_area.
  rewrite HC0, HA0. simpl. split.
  - intros (A & HA & Hin). rewrite list_lookup_alter in HA.
    case_decide as Ha; [subst a|left; by exists A].
    rewrite HA0 in HA. injection HA as <-.
    apply elem_of_od_values in Hin as [k Hin]. simpl in Hin.
    apply elem_of_od_setdefault in Hin as [Hin|[_ [= _ ->]]]; [left|by right].
    exists A0. split; [done|]. apply elem_of_od_values. by exists k.
  - intros [(A & HA & Hin)|[-> ->]].
    + rewrite list_lookup_alter. case_decide as Ha; [subst a|by exists A].
      rewrite HA0 in HA. injection HA as <-. rewrite HA0. simpl.
      eexists. split; [done|]. simpl.
      apply elem_of_od_values in Hin as [k Hin]. apply elem_of_od_values.
      exists k. apply elem_of_od_setdefault. by left.
    + rewrite list_lookup_alter_eq, HA0. simpl. eexists. split; [done|]. simpl.
      apply elem_of_od_values. exists (Category_getId C0). apply elem_of_od_setdefault.
      destruct (od_get (Category_getId C0) (area_categories A0)) as [r|] eqn:Hget;
        [left|by right].
      apply od_get_elem in Hget.
      destruct (Hs2 a0 A0 _ r HA0 Hget) as (C & HC & Hid).
      assert (r = c0) as ->; [|done].
      apply (NoDup_lookup (category_ids h) r c0 (Category_getId C0)); [done| |];
        unfold category_ids; rewrite list_lookup_fmap.
      * by rewrite HC, <- Hid.
      * by rewrite HC0.
Qed.

Lemma link_both_inv c0 a0 h : links_inv h -> links_inv (link_both c0 a0 h).
Proof.
  intros (Hids & Hsound & Hmut). split; [|split].
  - unfold ids_proper. by destruct (link_both_ids c0 a0 h) as [-> ->].
  - by apply link_both_sound.
  - destruct (heap_categories h !! c0) as [C0|] eqn:HC0;
      [|unfold link_both; by rewrite HC0].
    destruct (heap_areas h !! a0) as [A0|] eqn:HA0;
      [|unfold link_both; by rewrite HC0, HA0].
    intros c a.
    rewrite (link_both_area_in_category c0 a0 h C0 A0) by done.
    rewrite (link_both_category_in_area c0 a0 h C0 A0) by done.
    by rewrite (Hmut c a).
Qed.

Lemma run_calls_inv ops h : links_inv h -> links_inv (run_calls ops h).
Proof.
  unfold run_calls. apply fold_left_invariant.
  intros h' [c a|a c] Hinv; simpl.
  - rewrite addArea_link_both by apply Hinv. by apply link_both_inv.
  - rewrite addCategory_link_both by apply Hinv. by apply link_both_inv.
Qed.

Lemma fresh_heap_inv cids aids :
  ids_proper (fresh_heap cids aids) -> links_inv (fresh_heap cids aids).
Proof.
  intros Hids. split; [done|]. split; [split|].
  - intros c C k r HC Hin. unfold fresh_heap in HC. simpl in HC.
    rewrite list_lookup_fmap in HC. destruct (cids !! c); [|done].
    injection HC as <-. by apply elem_of_nil in Hin.
  - intros a A k r HA Hin. unfold fresh_heap in HA. simpl in HA.
    rewrite list_lookup_fmap in HA. destruct (aids !! a); [|done].
    injection HA as <-. by apply elem_of_nil in Hin.
  - intros c a. unfold area_in_category, category_in_area, fresh_heap. simpl. split.
    + intros (C & HC & Hin). rewrite list_lookup_fmap in HC.
      destruct (cids !! c); [|done]. injection HC as <-. by apply elem_of_nil in Hin.
    + intros (A & HA & Hin). rewrite list_lookup_fmap in HA.
      destruct (aids !! a); [|done]. injection HA as <-. by apply elem_of_nil in Hin.
Qed.

(** C2, as the code has it. When no object has an empty identifier and no two
    categories and no two areas share one, then after any sequence of
    [Category.addArea] and [Area.addCategory] calls on freshly constructed
    objects an area is among the areas of a category exactly when the
    category is among the categories of the area. *)
Theorem link_mutual_proper_ids (category_args area_args : list (option string))
    (ops : list LinkCall) :
  ids_proper (fresh_heap category_args area_args) ->
  links_mutual (run_calls ops (fresh_heap category_args area_args)).
Proof.
  intros Hids. by apply run_calls_inv, fresh_heap_inv.
Qed.

(** The theorem at two categories and one area linked three times. *)
Lemma link_mutual_proper_ids_witness :
  links_mutual (run_calls [CallAddArea 0 0; CallAddCategory 0 1; CallAddArea 1 0]
                          (fresh_heap [Some "c1"; Some " c2 "] [Some "a"])).
Proof.
  apply link_mutual_proper_ids.
  repeat split; apply (bool_decide_unpack _); vm_compute; exact I.
Defined.

(** C2 fails as stated. A category with an empty identifier records the area
    it is given while the area does not record it; and of two areas with the
    same identifier the second records the category while the category keeps
    the first. *)
Lemma link_mutual_counterexample :
  ~ links_mutual (run_calls [CallAddArea 0 0] (fresh_heap [Some ""] [Some "a"]))
  /\ ~ links_mutual (run_calls [CallAddArea 0 0; CallAddArea 0 1]
                               (fresh_heap [Some "c"] [Some "a"; Some "a"])).
Proof.
  split; intros H.
  - destruct (proj1 (H 0 0)) as (A & HA & Hin).
    + eexists. split; [reflexivity|]. vm_compute. apply list_elem_of_here.
    + vm_compute in HA. injection HA as <-. vm_compute in Hin.
      by apply elem_of_nil in Hin.
  - destruct (proj2 (H 0 1)) as (C & HC & Hin).
    + eexists. split; [reflexivity|]. vm_compute. apply list_elem_of_here.
    + vm_compute in HC. injection HC as <-. vm_compute in Hin.
      apply list_elem_of_singleton in Hin. discriminate.
Qed.

(** ** The fan-out merge *)

Section merge.
Implicit Types (rs : list Row) (x : option string) (seen : list (option string)).

Lemma drop_duplicates_sublist seen rs : sublist (drop_duplicates_id seen rs) rs.
Proof.
  revert seen. induction rs as [|r rs IH]; intros seen; simpl; [constructor|].
  case_bool_decide.
  - apply sublist_cons, IH.
  - apply sublist_skip, IH.
Qed.

(** Of the rows with a given identifier, removing duplicates keeps the first
    one, unless the identifier was met before. *)
Lemma rows_with_id_drop_duplicates x seen rs :
  rows_with_id x (drop_duplicates_id seen rs)
  = if bool_decide (x ∈ seen) then []
    else option_list (List.find (fun r => bool_decide (row_id r = x)) rs).
Proof.
  unfold rows_with_id. revert seen.
  induction rs as [|r rs IH]; intros seen; simpl; [by case_bool_decide|].
  destruct (bool_decide (row_id r ∈ seen)) eqn:Hseen.
  - apply bool_decide_eq_true in Hseen. rewrite IH.
    case_bool_decide as Hx; [done|].
    case_bool_decide as Hr; [|done]. by subst x.
  - apply bool_decide_eq_false in Hseen. simpl. rewrite IH.
    destruct (bool_decide (row_id r = x)) eqn:Hr.
    + apply bool_decide_eq_true in Hr. subst x.
      rewrite bool_decide_eq_true_2 by (apply elem_of_cons; by left).
      by rewrite bool_decide_eq_false_2.
    + apply bool_decide_eq_false in Hr.
      case_bool_decide as H1; case_bool_decide as H2; try done.
      * apply elem_of_cons in H1 as [?|?]; congruence.
      * destruct H1. apply elem_of_cons. by right.
Qed.

Lemma find_app_skip {A : Type} (p : A -> bool) (l1 l2 : list A) :
  (forall y, y ∈ l1 -> p y = false) -> List.find p (l1 ++ l2) = List.find p l2.
Proof.
  induction l1 as [|y l1 IH]; simpl; [done|]. intros H.
  rewrite (H y) by (apply elem_of_cons; by left).
  apply IH. intros z Hz. apply H, elem_of_cons. by right.
Qed.

Lemma union_columns_keep col cs ds : col ∈ cs -> col ∈ union_columns cs ds.
Proof. intros H. unfold union_columns. apply elem_of_app. by left. Qed.

Lemma union_columns_add col cs ds : col ∈ ds -> col ∈ union_columns cs ds.
Proof.
  intros H. unfold union_columns. apply elem_of_app.
  destruct (decide (col ∈ cs)) as [Hc|Hc]; [by left|right].
  apply list_elem_of_In, filter_In. split; [by apply list_elem_of_In|].
  by rewrite bool_decide_eq_false_2.
Qed.

Lemma fold_union_columns_keep col (cols : list (list string)) cs :
  col ∈ cs -> col ∈ fold_left union_columns cols cs.
Proof.
  revert cs. induction cols as [|ds cols IH]; intros cs H; simpl; [done|].
  by apply IH, union_columns_keep.
Qed.

(** A label of one of the frames is a label of their concatenation. *)
Lemma pd_concat_column col f frames :
  f ∈ frames -> col ∈ columns f -> col ∈ columns (pd_concat frames).
Proof.
  unfold pd_concat. simpl. generalize (@nil string).
  induction frames as [|g frames IH]; intros cs Hf Hcol; [by apply elem_of_nil in Hf|].
  simpl. apply elem_of_cons in Hf as [<-|Hf].
  - by apply fold_union_columns_keep, union_columns_add.
  - by apply IH.
Qed.

(** When no handler raises, the loop returns frames, each of them returned
    by a handler. *)
Lemma collect_frames_answered handlers call :
  (forall h, h ∈ handlers -> exists o, jh_call h call = Ok o) ->
  exists frames, collect_frames handlers call = Ok frames
    /\ forall f, f ∈ frames -> exists h, h ∈ handlers /\ jh_call h call = Ok (Some f).
Proof.
  induction handlers as [|h handlers IH]; intros Hok; simpl.
  - exists []. split; [done|]. intros f Hf. by apply elem_of_nil in Hf.
  - destruct (Hok h) as [o Ho]; [apply elem_of_cons; by left|].
    destruct IH as (frames & Hframes & Hfrom).
    { intros h' Hh'. apply Hok, elem_of_cons. by right. }
    rewrite Ho, Hframes. simpl.
    assert (Hlater : forall f, f ∈ frames ->
              exists h', h' ∈ h :: handlers /\ jh_call h' call = Ok (Some f)).
    { intros f Hf. destruct (Hfrom f Hf) as (h' & Hh' & Hcall).
      exists h'. split; [apply elem_of_cons; by right|done]. }
    destruct o as [f0|]; [|by exists frames].
    destruct (frame_empty f0); [by exists frames|].
    exists (f0 :: frames). split; [done|].
    intros f Hf. apply elem_of_cons in Hf as [->|Hf]; [|by apply Hlater].
    exists h. split; [apply elem_of_cons; by left|done].
Qed.

Lemma collect_frames_app l1 l2 call frames1 frames2 :
  collect_frames l1 call = Ok frames1 -> collect_frames l2 call = Ok frames2 ->
  collect_frames (l1 ++ l2) call = Ok (frames1 ++ frames2).
Proof.
  revert frames1. induction l1 as [|h l1 IH]; intros frames1; simpl.
  - by intros [= <-].
  - destruct (jh_call h call) as [o|]; [|done]. simpl.
    destruct (collect_frames l1 call) as [fs|] eqn:Hfs; [|done]. simpl.
    intros [= <-] H2. rewrite (IH fs eq_refl H2). simpl.
    destruct o as [f0|]; [|done]. by destruct (frame_empty f0).
Qed.

End merge.

(** C3. Let no handler raise, let the handler [h] return a table with an
    [id] column whose first row with the identifier of [r] is [r], and let no
    handler registered before [h] return a row with that identifier. Then
    the merged table has exactly one row with that identifier, the row [r],
    whatever the handlers after [h] return; and the merged rows are the
    returned rows in source order, some of them left out. *)
Theorem merge_first_handler_wins (e : BasicQueryEngine) (call : JournalCall)
    (before after : list JournalHandler) (h : JournalHandler) (f : Frame)
    (pre post : list Row) (r : Row) :
  journalQuery e = before ++ h :: after ->
  (forall h', h' ∈ journalQuery e -> exists o, jh_call h' call = Ok o) ->
  jh_call h call = Ok (Some f) ->
  "id" ∈ columns f ->
  rows f = pre ++ r :: post ->
  (forall r', r' ∈ pre -> row_id r' <> row_id r) ->
  (forall h' f' r', h' ∈ before -> jh_call h' call = Ok (Some f') ->
     r' ∈ rows f' -> row_id r' <> row_id r) ->
  exists frames merged,
    collect_frames (journalQuery e) call = Ok frames
    /\ _collect_journal_frames e call = Ok merged
    /\ rows_with_id (row_id r) (rows merged) = [r]
    /\ sublist (rows merged) (concat (rows <$> frames)).
Proof.
  intros He Hok Hh Hid Hrows Hpre Hbefore.
  assert (Hne : frame_empty f = false).
  { unfold frame_empty. rewrite Hrows.
    destruct (columns f); [by apply elem_of_nil in Hid|]. by destruct pre. }
  destruct (collect_frames_answered before call) as (fs1 & Hfs1 & Hfrom1).
  { intros h' Hh'. apply Hok. rewrite He. apply elem_of_app. by left. }
  destruct (collect_frames_answered after call) as (fs2 & Hfs2 & _).
  { intros h' Hh'. apply Hok. rewrite He. apply elem_of_app. right.
    apply elem_of_cons. by right. }
  assert (Hall : collect_frames (journalQuery e) call = Ok (fs1 ++ f :: fs2)).
  { rewrite He. apply collect_frames_app; [done|]. simpl.
    by rewrite Hh, Hfs2; simpl; rewrite Hne. }
  assert (Hcol : "id" ∈ columns (pd_concat (fs1 ++ f :: fs2))).
  { apply (pd_concat_column "id" f); [|done].
    apply elem_of_app. right. apply elem_of_cons. by left. }
  exists (fs1 ++ f :: fs2).
  exists (mkFrame (columns (pd_concat (fs1 ++ f :: fs2)))
                  (drop_duplicates_id [] (rows (pd_concat (fs1 ++ f :: fs2))))).
  split; [done|]. split; [|split].
  - unfold _collect_journal_frames. rewrite Hall. simpl.
    destruct (fs1 ++ f :: fs2) eqn:Happ; [by destruct fs1|].
    by rewrite bool_decide_eq_true_2.
  - simpl. rewrite rows_with_id_drop_duplicates.
    rewrite bool_decide_eq_false_2 by apply not_elem_of_nil.
    rewrite fmap_app, concat_app. simpl. rewrite Hrows.
    rewrite find_app_skip.
    + rewrite <- app_assoc. rewrite find_app_skip.
      * simpl. by rewrite bool_decide_eq_true_2.
      * intros y Hy. apply bool_decide_eq_false_2. by apply Hpre.
    + intros y Hy. apply bool_decide_eq_false_2.
      apply list_elem_of_In, in_concat in Hy as (l & Hl & Hy).
      apply list_elem_of_In, list_elem_of_fmap in Hl as (f' & -> & Hf').
      apply list_elem_of_In in Hy.
      destruct (Hfrom1 f' Hf') as (h' & Hh' & Hcall).
      by apply (Hbefore h' f' y).
  - simpl. apply drop_duplicates_sublist.
Qed.

(** The theorem at two handlers that both return a row for X. *)
Lemma merge_first_handler_wins_witness :
  exists frames merged,
    collect_frames (journalQuery two_sources) call_getAllJournals = Ok frames
    /\ _collect_journal_frames two_sources call_getAllJournals = Ok merged
    /\ rows_with_id (Some "X") (rows merged) = [sample_row "X" "first" false]
    /\ sublist (rows merged) (concat (rows <$> frames)).
Proof.
  apply (merge_first_handler_wins two_sources call_getAllJournals
           [] [constant_handler 1 second_frame] (constant_handler 0 first_frame)
           first_frame [] [sample_row "Y" "other" true] (sample_row "X" "first" false)).
  - reflexivity.
  - intros h' Hh'. simpl in Hh'.
    apply elem_of_cons in Hh' as [->|Hh']; [by eexists|].
    apply list_elem_of_singleton in Hh' as ->. by eexists.
  - reflexivity.
  - vm_compute. apply list_elem_of_here.
  - reflexivity.
  - intros r' Hr'. by apply elem_of_nil in Hr'.
  - intros h' f' r' Hh'. by apply elem_of_nil in Hh'.
Defined.

(** ** Hydration of journal rows *)

Section fold_entries.
Context {S X E : Type} (entries : S -> list E) (g : S -> X -> S)
        (offers : X -> E -> Prop) (key : E -> string).
Hypothesis g_sound : forall s x e, e ∈ entries (g s x) -> e ∈ entries s \/ offers x e.
Hypothesis g_mono : forall s x e, e ∈ entries s -> e ∈ entries (g s x).
Hypothesis g_complete :
  forall s x e, offers x e -> exists e', e' ∈ entries (g s x) /\ key e' = key e.

Lemma fold_entries_mono l s e : e ∈ entries s -> e ∈ entries (fold_left g l s).
Proof. revert s. induction l as [|x l IH]; intros s H; simpl; auto. Qed.

Lemma fold_entries_sound l s e :
  e ∈ entries (fold_left g l s) -> e ∈ entries s \/ exists x, x ∈ l /\ offers x e.
Proof.
  revert s. induction l as [|x l IH]; intros s H; simpl in *; [by left|].
  destruct (IH _ H) as [Hin|(y & Hy & Ho)].
  - destruct (g_sound _ _ _ Hin) as [?|?]; [by left|right].
    exists x. split; [apply elem_of_cons; by left|done].
  - right. exists y. split; [apply elem_of_cons; by right|done].
Qed.

Lemma fold_entries_complete l s x e :
  x ∈ l -> offers x e -> exists e', e' ∈ entries (fold_left g l s) /\ key e' = key e.
Proof.
  revert s. induction l as [|y l IH]; intros s Hx Ho; [by apply elem_of_nil in Hx|].
  simpl. apply elem_of_cons in Hx as [->|Hx]; [|by apply IH].
  destruct (g_complete s y e Ho) as (e' & He' & Hk).
  exists e'. split; [by apply fold_entries_mono|done].
Qed.
End fold_entries.

Section hydration.
Variables (t : Taxonomy) (exports : Export).

Lemma addCategory_entries c j entry :
  entry ∈ j_categories (Journal_addCategory (tx_heap t) c j)
  <-> entry ∈ j_categories j
      \/ (od_get entry.1 (j_categories j) = None /\ entry.2 = c
          /\ exists C, heap_categories (tx_heap t) !! c = Some C
               /\ Category_getId C = entry.1 /\ Py.truthy entry.1 = true).
Proof.
  unfold Journal_addCategory.
  destruct (heap_categories (tx_heap t) !! c) as [C|] eqn:HC.
  - destruct (Py.truthy (Category_getId C)) eqn:Ht; simpl.
    + rewrite elem_of_od_setdefault. split; (intros [?|H]; [by left|right]).
      * destruct H as [Hn ->]. simpl. split; [done|]. split; [done|]. by exists C.
      * destruct H as (Hn & <- & C' & [= <-] & Hid & _).
        destruct entry as [k c']. simpl in *. by subst k.
    + split; [by left|]. intros [?|(_ & _ & C' & [= <-] & <- & Ht')]; [done|congruence].
  - split; [by left|]. by intros [?|(_ & _ & C' & ? & _)].
Qed.

Lemma addArea_entries a j entry :
  entry ∈ j_areas (Journal_addArea (tx_heap t) a j)
  <-> entry ∈ j_areas j
      \/ (od_get entry.1 (j_areas j) = None /\ entry.2 = a
          /\ exists A, heap_areas (tx_heap t) !! a = Some A
               /\ Area_getId A = entry.1 /\ Py.truthy entry.1 = true).
Proof.
  unfold Journal_addArea.
  destruct (heap_areas (tx_heap t) !! a) as [A|] eqn:HA.
  - destruct (Py.truthy (Area_getId A)) eqn:Ht; simpl.
    + rewrite elem_of_od_setdefault. split; (intros [?|H]; [by left|right]).
      * destruct H as [Hn ->]. simpl. split; [done|]. split; [done|]. by exists A.
      * destruct H as (Hn & <- & A' & [= <-] & Hid & _).
        destruct entry as [k a']. simpl in *. by subst k.
    + split; [by left|]. intros [?|(_ & _ & A' & [= <-] & <- & Ht')]; [done|congruence].
  - split; [by left|]. by intros [?|(_ & _ & A' & ? & _)].
Qed.

Lemma addCategory_areas c j : j_areas (Journal_addCategory (tx_heap t) c j) = j_areas j.
Proof.
  unfold Journal_addCategory. destruct (heap_categories (tx_heap t) !! c) as [C|]; [|done].
  by destruct (Py.truthy (Category_getId C)).
Qed.

Lemma addArea_categories a j : j_categories (Journal_addArea (tx_heap t) a j) = j_categories j.
Proof.
  unfold Journal_addArea. destruct (heap_areas (tx_heap t) !! a) as [A|]; [|done].
  by destruct (Py.truthy (Area_getId A)).
Qed.

Lemma attach_categories_areas canonical j :
  j_areas (attach_categories t exports canonical j) = j_areas j.
Proof.
  unfold attach_categories.
  apply (fold_left_invariant (fun j' => j_areas j' = j_areas j)); [|done].
  intros j' category_id H. unfold attach_category.
  destruct (od_get category_id (category_map t)); [|done].
  by rewrite addCategory_areas.
Qed.

Lemma attach_areas_categories canonical j :
  j_categories (attach_areas t exports canonical j) = j_categories j.
Proof.
  unfold attach_areas.
  apply (fold_left_invariant (fun j' => j_categories j' = j_categories j)); [|done].
  intros j' area_id H. unfold attach_area.
  destruct (od_get area_id (area_map t)); [|done].
  by rewrite addArea_categories.
Qed.

Lemma attach_category_sound j x e :
  e ∈ j_categories (attach_category t j x) -> e ∈ j_categories j \/ category_known t x e.
Proof.
  unfold attach_category, category_known.
  destruct (od_get x (category_map t)) as [c|]; [|by left].
  rewrite addCategory_entries. intros [?|(_ & -> & HC)]; [by left|by right].
Qed.

Lemma attach_category_mono j x e :
  e ∈ j_categories j -> e ∈ j_categories (attach_category t j x).
Proof.
  unfold attach_category. destruct (od_get x (category_map t)) as [c|]; [|done].
  rewrite addCategory_entries. by left.
Qed.

Lemma attach_category_complete j x e :
  category_known t x e -> exists e', e' ∈ j_categories (attach_category t j x) /\ e'.1 = e.1.
Proof.
  unfold attach_category, category_known. intros [-> HC].
  destruct (od_get e.1 (j_categories j)) as [c'|] eqn:Hget.
  - exists (e.1, c'). split; [|done]. apply addCategory_entries. left.
    by apply od_get_elem.
  - exists e. split; [|done]. apply addCategory_entries. by right.
Qed.

Lemma attach_area_sound j x e :
  e ∈ j_areas (attach_area t j x) -> e ∈ j_areas j \/ area_known t x e.
Proof.
  unfold attach_area, area_known.
  destruct (od_get x (area_map t)) as [a|]; [|by left].
  rewrite addArea_entries. intros [?|(_ & -> & HA)]; [by left|by right].
Qed.

Lemma attach_area_mono j x e : e ∈ j_areas j -> e ∈ j_areas (attach_area t j x).
Proof.
  unfold attach_area. destruct (od_get x (area_map t)) as [a|]; [|done].
  rewrite addArea_entries. by left.
Qed.

Lemma attach_area_complete j x e :
  area_known t x e -> exists e', e' ∈ j_areas (attach_area t j x) /\ e'.1 = e.1.
Proof.
  unfold attach_area, area_known. intros [-> HA].
  destruct (od_get e.1 (j_areas j)) as [a'|] eqn:Hget.
  - exists (e.1, a'). split; [|done]. apply addArea_entries. left.
    by apply od_get_elem.
  - exists e. split; [|done]. apply addArea_entries. by right.
Qed.

(** One round of the loop over the identifiers, seen from the categories. *)
Lemma attach_identifier_categories_sound j identifier e :
  e ∈ j_categories (attach_identifier t exports j identifier) ->
  e ∈ j_categories j \/ identifier_offers_category t exports identifier e.
Proof.
  unfold attach_identifier, identifier_offers_category.
  destruct (resolve_alias (exp_journal_alias exports) identifier) as [canonical|];
    [|by left].
  rewrite attach_areas_categories. intros H.
  apply (fold_entries_sound j_categories (attach_category t) (category_known t)
           attach_category_sound) in H as [?|(x & Hx & Hk)]; [by left|right].
  by exists canonical, x.
Qed.

Lemma attach_identifier_categories_mono j identifier e :
  e ∈ j_categories j -> e ∈ j_categories (attach_identifier t exports j identifier).
Proof.
  unfold attach_identifier.
  destruct (resolve_alias (exp_journal_alias exports) identifier) as [canonical|];
    [|done].
  rewrite attach_areas_categories.
  apply (fold_entries_mono j_categories (attach_category t) attach_category_mono).
Qed.

Lemma attach_identifier_categories_complete j identifier e :
  identifier_offers_category t exports identifier e ->
  exists e', e' ∈ j_categories (attach_identifier t exports j identifier) /\ e'.1 = e.1.
Proof.
  unfold attach_identifier. intros (canonical & x & -> & Hx & Hk).
  rewrite attach_areas_categories.
  by apply (fold_entries_complete j_categories (attach_category t) (category_known t) fst
              attach_category_mono attach_category_complete _ _ x).
Qed.

(** The same round, seen from the areas. *)
Lemma attach_identifier_areas_sound j identifier e :
  e ∈ j_areas (attach_identifier t exports j identifier) ->
  e ∈ j_areas j \/ identifier_offers_area t exports identifier e.
Proof.
  unfold attach_identifier, identifier_offers_area.
  destruct (resolve_alias (exp_journal_alias exports) identifier) as [canonical|];
    [|by left].
  intros H.
  apply (fold_entries_sound j_areas (attach_area t) (area_known t) attach_area_sound)
    in H as [H|(x & Hx & Hk)].
  - left. by rewrite attach_categories_areas in H.
  - right. by exists canonical, x.
Qed.

Lemma attach_identifier_areas_mono j identifier e :
  e ∈ j_areas j -> e ∈ j_areas (attach_identifier t exports j identifier).
Proof.
  unfold attach_identifier. intros H.
  destruct (resolve_alias (exp_journal_alias exports) identifier) as [canonical|];
    [|done].
  apply (fold_entries_mono j_areas (attach_area t) attach_area_mono).
  by rewrite attach_categories_areas.
Qed.

Lemma attach_identifier_areas_complete j identifier e :
  identifier_offers_area t exports identifier e ->
  exists e', e' ∈ j_areas (attach_identifier t exports j identifier) /\ e'.1 = e.1.
Proof.
  unfold attach_identifier. intros (canonical & x & -> & Hx & Hk).
  by apply (fold_entries_complete j_areas (attach_area t) (area_known t) fst
              attach_area_mono attach_area_complete _ _ x).
Qed.

(** An identifier that does not resolve leaves the journal as it is. *)
Lemma attach_unresolved identifiers j :
  (forall identifier, identifier ∈ identifiers ->
     resolve_alias (exp_journal_alias exports) identifier = None) ->
  fold_left (attach_identifier t exports) identifiers j = j.
Proof.
  revert j. induction identifiers as [|identifier identifiers IH]; intros j H; [done|].
  simpl. unfold attach_identifier at 2.
  rewrite (H identifier) by (apply elem_of_cons; by left).
  apply IH. intros i Hi. apply H, elem_of_cons. by right.
Qed.

End hydration.

Lemma elem_of_filter_truthy identifier identifiers :
  identifier ∈ List.filter Py.truthy identifiers
  <-> identifier ∈ identifiers /\ Py.truthy identifier = true.
Proof. by rewrite !list_elem_of_In, filter_In. Qed.

(** What the journal made of the values of a row has attached. *)
Lemma hydrate_values_entries (t : Taxonomy) (exports : Export) (record : Row) :
  (forall entry, entry ∈ j_categories (hydrate_values t exports record) ->
     category_offered t exports record entry)
  /\ (forall entry, category_offered t exports record entry ->
        exists c, (entry.1, c) ∈ j_categories (hydrate_values t exports record))
  /\ (forall entry, entry ∈ j_areas (hydrate_values t exports record) ->
        area_offered t exports record entry)
  /\ (forall entry, area_offered t exports record entry ->
        exists a, (entry.1, a) ∈ j_areas (hydrate_values t exports record)).
Proof.
  unfold hydrate_values, category_offered, area_offered. repeat split.
  - intros entry H.
    apply (fold_entries_sound j_categories (attach_identifier t exports)
             (identifier_offers_category t exports)
             (attach_identifier_categories_sound t exports)) in H
      as [H|(i & Hi & Ho)]; [by apply elem_of_nil in H|].
    apply elem_of_filter_truthy in Hi as [Hi Ht]. by exists i.
  - intros entry (i & Hi & Ht & Ho).
    destruct (fold_entries_complete j_categories (attach_identifier t exports)
                (identifier_offers_category t exports) fst
                (attach_identifier_categories_mono t exports)
                (attach_identifier_categories_complete t exports)
                (List.filter Py.truthy (row_identifiers record))
                (Journal_init (row_id record) (row_title record) (row_print_issn record)
                   (row_electronic_issn record) (row_publisher record)
                   (row_languages record) (row_license record)
                   (bool_of (row_apc record)) (bool_of (row_doaj_seal record)))
                i entry) as ([k c] & Hin & Hk); [by apply elem_of_filter_truthy|done|].
    simpl in Hk. subst k. by exists c.
  - intros entry H.
    apply (fold_entries_sound j_areas (attach_identifier t exports)
             (identifier_offers_area t exports)
             (attach_identifier_areas_sound t exports)) in H
      as [H|(i & Hi & Ho)]; [by apply elem_of_nil in H|].
    apply elem_of_filter_truthy in Hi as [Hi Ht]. by exists i.
  - intros entry (i & Hi & Ht & Ho).
    destruct (fold_entries_complete j_areas (attach_identifier t exports)
                (identifier_offers_area t exports) fst
                (attach_identifier_areas_mono t exports)
                (attach_identifier_areas_complete t exports)
                (List.filter Py.truthy (row_identifiers record))
                (Journal_init (row_id record) (row_title record) (row_print_issn record)
                   (row_electronic_issn record) (row_publisher record)
                   (row_languages record) (row_license record)
                   (bool_of (row_apc record)) (bool_of (row_doaj_seal record)))
                i entry) as ([k a] & Hin & Hk); [by apply elem_of_filter_truthy|done|].
    simpl in Hk. subst k. by exists a.
Qed.

(** What the body of the loop does with a row, cell by cell. *)
Lemma hydrate_row_eq cols t exports record :
  hydrate_row cols t exports record
  = if is_nan cols record "languages" then Raise TypeError
    else if existsb (is_nan cols record) TEXT_COLUMNS then Raise AttributeError
    else if is_nan cols record "identifiers" then Raise TypeError
    else Ok (hydrate_values t exports (read_row cols record)).
Proof.
  unfold hydrate_row, hydrate_values, read_row, is_nan, TEXT_COLUMNS, text_arg, list_arg,
    bool_arg. cbn [existsb].
  destruct (cell_of cols record "languages"); simpl; try reflexivity;
    destruct (cell_of cols record "id"); simpl; try reflexivity;
    destruct (cell_of cols record "title"); simpl; try reflexivity;
    destruct (cell_of cols record "print_issn"); simpl; try reflexivity;
    destruct (cell_of cols record "electronic_issn"); simpl; try reflexivity;
    destruct (cell_of cols record "publisher"); simpl; try reflexivity;
    destruct (cell_of cols record "license"); simpl; try reflexivity;
    destruct (cell_of cols record "identifiers"); simpl; try reflexivity;
    destruct (cell_of cols record "apc"); destruct (cell_of cols record "doaj_seal");
    reflexivity.
Qed.

Lemma cell_of_made cols record col :
  row_columns record = cols ->
  cell_of cols record col = if bool_decide (col ∈ cols) then Filled else NoColumn.
Proof.
  intros H. unfold cell_of. rewrite H. by destruct (bool_decide (col ∈ cols)).
Qed.

Lemma is_nan_made cols record col : row_columns record = cols -> is_nan cols record col = false.
Proof.
  intros H. unfold is_nan. rewrite (cell_of_made cols record col H).
  by destruct (bool_decide (col ∈ cols)).
Qed.

(** A row that was made with the columns of its table is hydrated. *)
Lemma hydrate_row_made cols t exports record :
  row_columns record = cols ->
  hydrate_row cols t exports record = Ok (hydrate_values t exports (read_row cols record)).
Proof.
  intros H. rewrite hydrate_row_eq. unfold TEXT_COLUMNS. cbn [existsb].
  by rewrite !(is_nan_made cols record _ H).
Qed.

(** Of a row made with [COLUMNS] the loop reads every value. *)
Lemma read_row_COLUMNS record : row_columns record = COLUMNS -> read_row COLUMNS record = record.
Proof.
  intros H. unfold read_row. rewrite !(cell_of_made COLUMNS record _ H).
  destruct record. simpl in *. by subst.
Qed.

Lemma hydrate_row_COLUMNS t exports record :
  row_columns record = COLUMNS ->
  hydrate_row COLUMNS t exports record = Ok (hydrate_values t exports record).
Proof. intros H. by rewrite (hydrate_row_made COLUMNS), read_row_COLUMNS. Qed.

(** C1, as the code has it. The loop over the identifiers of a row has no
    exit: every non-empty identifier that resolves, the first and the later
    ones alike, contributes the categories and areas of its canonical
    journal. When the body of the loop returns a journal for a row, an
    entry of the journal's categories (areas) is offered by some identifier
    read from the row: the identifier resolves to a canonical journal for
    which the export lists a category (area) that the taxonomy holds under
    that key, with an identifier that is not empty. And whatever some
    identifier offers is attached under its identifier, unless an entry
    with that identifier was attached before. The body returns a journal
    when no cell it strips or iterates is NaN, as for every row made with
    the columns of its table, whose identifiers it then reads as they are. *)
Theorem hydration_uses_every_match (cols : list string) (t : Taxonomy) (exports : Export)
    (record : Row) :
  (forall j, hydrate_row cols t exports record = Ok j ->
     (forall entry, entry ∈ j_categories j ->
        category_offered t exports (read_row cols record) entry)
     /\ (forall entry, category_offered t exports (read_row cols record) entry ->
           exists c, (entry.1, c) ∈ j_categories j)
     /\ (forall entry, entry ∈ j_areas j ->
           area_offered t exports (read_row cols record) entry)
     /\ (forall entry, area_offered t exports (read_row cols record) entry ->
           exists a, (entry.1, a) ∈ j_areas j))
  /\ ((forall col, is_nan cols record col = false) ->
      exists j, hydrate_row cols t exports record = Ok j)
  /\ (row_columns record = cols ->
      (exists j, hydrate_row cols t exports record = Ok j)
      /\ ("identifiers" ∈ cols ->
          row_identifiers (read_row cols record) = row_identifiers record)).
Proof.
  split; [|split].
  - intros j Hj. rewrite hydrate_row_eq in Hj.
    destruct (is_nan cols record "languages"); [done|].
    destruct (existsb (is_nan cols record) TEXT_COLUMNS); [done|].
    destruct (is_nan cols record "identifiers"); [done|].
    injection Hj as <-. apply hydrate_values_entries.
  - intros Hnan. rewrite hydrate_row_eq. unfold TEXT_COLUMNS. cbn [existsb].
    rewrite !Hnan. by eexists.
  - intros Hmade. split; [rewrite (hydrate_row_made cols) by done; by eexists|].
    intros Hcol. unfold read_row. cbn [row_identifiers].
    rewrite (cell_of_made cols record "identifiers" Hmade).
    by rewrite bool_decide_eq_true_2.
Qed.

(** C1 fails as stated. The row is known under an ISSN, which the taxonomy
    files under T1, and under its title, which it files under T2. The ISSN
    comes first and resolves, and yet the journal also receives the category
    and the area of T2; stopping at the first match would give those of T1
    only. *)
Lemma first_match_counterexample :
  List.filter Py.truthy (row_identifiers conflicting_row) = ["1111-1111"; "Some Title"]
  /\ resolve_alias (exp_journal_alias (_build_taxonomy conflicting_engine).2) "1111-1111"
     = Some "T1"
  /\ resolve_alias (exp_journal_alias (_build_taxonomy conflicting_engine).2) "Some Title"
     = Some "T2"
  /\ (exists h j,
        _build_journal_objects conflicting_engine (mkFrame COLUMNS [conflicting_row])
        = Ok (h, [j])
        /\ j_categories j = [("C1", 0); ("C2", 1)]
        /\ j_areas j = [("bio", 0); ("chem", 1)])
  /\ j_categories (hydrate_row_first_match (_build_taxonomy conflicting_engine).1
                     (_build_taxonomy conflicting_engine).2 conflicting_row)
     = [("C1", 0)]
  /\ hydrate_row COLUMNS (_build_taxonomy conflicting_engine).1
       (_build_taxonomy conflicting_engine).2 conflicting_row
     <> Ok (hydrate_row_first_match (_build_taxonomy conflicting_engine).1
              (_build_taxonomy conflicting_engine).2 conflicting_row).
Proof.
  split; [vm_compute; reflexivity|]. split; [vm_compute; reflexivity|].
  split; [vm_compute; reflexivity|]. split; [|split; [vm_compute; reflexivity|]].
  - eexists _, _. split; [vm_compute; reflexivity|]. split; reflexivity.
  - intros H.
    apply (f_equal (fun o => match o with Ok j => j_categories j | Raise _ => [] end)) in H.
    vm_compute in H. discriminate.
Qed.

(** ** Journals without an alias in the taxonomy *)

Lemma collect_frames_nonempty handlers call frames :
  collect_frames handlers call = Ok frames ->
  Forall (fun f => frame_empty f = false) frames.
Proof.
  revert frames. induction handlers as [|h handlers IH]; intros frames; simpl.
  - intros [= <-]. constructor.
  - destruct (jh_call h call) as [o|]; [|done]. simpl.
    destruct (collect_frames handlers call) as [fs|]; [|done]. simpl.
    specialize (IH fs eq_refl). intros [= <-].
    destruct o as [f0|]; [|done].
    destruct (frame_empty f0) eqn:Hf0; [done|]. by constructor.
Qed.

(** A merged table always has column labels. *)
Lemma merged_columns e call frame :
  _collect_journal_frames e call = Ok frame -> columns frame <> [].
Proof.
  unfold _collect_journal_frames.
  destruct (collect_frames (journalQuery e) call) as [frames|] eqn:Hframes; [|done].
  simpl. intros [= <-]. destruct frames as [|f0 frames]; [done|].
  apply collect_frames_nonempty, Forall_cons in Hframes as [Hf0 _].
  assert (exists col, col ∈ columns (pd_concat (f0 :: frames))) as [col Hcol].
  { unfold frame_empty in Hf0. destruct (rows f0); [done|].
    destruct (columns f0) as [|col cs] eqn:Hcs; [done|].
    exists col. apply (pd_concat_column col f0).
    - apply elem_of_cons. by left.
    - rewrite Hcs. apply elem_of_cons. by left. }
  assert (columns (pd_concat (f0 :: frames)) <> []) as Hne.
  { intros Hnil. rewrite Hnil in Hcol. by apply elem_of_nil in Hcol. }
  by case_bool_decide.
Qed.

Lemma resolve_alias_None alias_map identifier :
  od_get (_normalise_identifier (Some identifier)) alias_map = None ->
  od_get (_normalise_identifier (Some (Py.remove_hyphens identifier))) alias_map = None ->
  resolve_alias alias_map identifier = None.
Proof. intros H1 H2. unfold resolve_alias. by rewrite H1, H2. Qed.

(** *** Tables without NaN cells *)

Lemma table_loc cols mask f : table cols f -> table cols (loc mask f).
Proof.
  intros [Hc Hr]. split; [done|]. intros r Hin. apply Hr.
  unfold loc in Hin. cbn [rows] in Hin. by apply elem_of_filter in Hin as [? _].
Qed.

Lemma table_empty : table COLUMNS (DataFrame_columns COLUMNS).
Proof. split; [done|]. intros r Hr. by apply elem_of_nil in Hr. Qed.

Lemma collect_frames_from handlers call frames f :
  collect_frames handlers call = Ok frames -> f ∈ frames ->
  exists h, h ∈ handlers /\ jh_call h call = Ok (Some f) /\ frame_empty f = false.
Proof.
  revert frames. induction handlers as [|h handlers IH]; intros frames; simpl.
  - intros [= <-] Hf. by apply elem_of_nil in Hf.
  - destruct (jh_call h call) as [o|] eqn:Ho; [|done]. simpl.
    destruct (collect_frames handlers call) as [fs|]; [|done]. simpl.
    intros [= <-] Hf.
    assert (Hlater : f ∈ fs ->
              exists h', h' ∈ h :: handlers /\ jh_call h' call = Ok (Some f)
                         /\ frame_empty f = false).
    { intros Hfs. destruct (IH fs eq_refl Hfs) as (h' & Hh' & Hcall).
      exists h'. split; [apply elem_of_cons; by right|done]. }
    destruct o as [f0|]; [|by apply Hlater].
    destruct (frame_empty f0) eqn:Hf0; [by apply Hlater|].
    apply elem_of_cons in Hf as [-> |Hf]; [|by apply Hlater].
    exists h. split; [apply elem_of_cons; by left|done].
Qed.

Lemma union_columns_same cs : union_columns cs cs = cs.
Proof.
  unfold union_columns. rewrite filter_none; [by rewrite app_nil_r|].
  intros d Hd. by rewrite bool_decide_eq_true_2.
Qed.

Lemma fold_union_columns_same cols (l : list (list string)) :
  Forall (fun cs => cs = cols) l -> fold_left union_columns l cols = cols.
Proof.
  induction 1 as [|cs l -> _ IH]; simpl; [done|]. by rewrite union_columns_same.
Qed.

(** Tables of the same columns are put together to such a table. *)
Lemma pd_concat_tables cols f frames :
  Forall (table cols) (f :: frames) -> table cols (pd_concat (f :: frames)).
Proof.
  intros Hall. split.
  - unfold pd_concat. cbn [columns fmap list_fmap fold_left].
    apply Forall_cons in Hall as [[Hf _] Hall]. rewrite union_columns_nil, Hf.
    apply fold_union_columns_same. apply Forall_fmap.
    eapply Forall_impl; [exact Hall|]. by intros g [Hg _].
  - intros r Hr. unfold pd_concat in Hr. cbn [rows] in Hr.
    apply elem_of_concat in Hr as (l & Hl & Hr).
    apply list_elem_of_fmap in Hl as (g & -> & Hg).
    apply (proj1 (Forall_forall _ _) Hall g Hg). done.
Qed.

(** When every handler answers with a table of [cols], the rows of the
    merged table are made with [cols], and the table has these columns
    unless it is the empty table of [COLUMNS]. *)
Lemma merged_table cols e call df :
  answers_tables cols e call ->
  _collect_journal_frames e call = Ok df ->
  (forall r, r ∈ rows df -> row_columns r = cols)
  /\ (columns df = cols \/ df = DataFrame_columns COLUMNS).
Proof.
  intros Htab. unfold _collect_journal_frames.
  destruct (collect_frames (journalQuery e) call) as [frames|] eqn:Hframes; [|done].
  simpl. intros [= <-]. destruct frames as [|f0 frames].
  { split; [|by right]. intros r Hr. by apply elem_of_nil in Hr. }
  assert (Hall : Forall (table cols) (f0 :: frames)).
  { apply Forall_forall. intros f Hf.
    destruct (collect_frames_from _ _ _ f Hframes Hf) as (h & Hh & Hcall & _).
    by apply (Htab h). }
  destruct (pd_concat_tables cols f0 frames Hall) as [Hcols Hrows].
  case_bool_decide; cbn [rows columns]; (split; [|by left]); [|done].
  intros r Hr. apply Hrows.
  by apply (elem_of_sublist _ _ _ Hr (drop_duplicates_sublist _ _)).
Qed.

Lemma merged_table_COLUMNS e call df :
  answers_tables COLUMNS e call ->
  _collect_journal_frames e call = Ok df ->
  table COLUMNS df.
Proof.
  intros Htab Hdf. destruct (merged_table COLUMNS e call df Htab Hdf) as [Hrows [Hc| ->]];
    [done|apply table_empty].
Qed.

Lemma hydrate_rows_made cols t exports records :
  (forall r, r ∈ records -> row_columns r = cols) ->
  hydrate_rows cols t exports records
  = Ok ((fun r => hydrate_values t exports (read_row cols r)) <$> records).
Proof.
  induction records as [|r records IH]; intros Hmade; simpl; [done|].
  rewrite (hydrate_row_made cols) by (apply Hmade, elem_of_cons; by left). simpl.
  rewrite IH; [done|]. intros r' Hr'. apply Hmade, elem_of_cons. by right.
Qed.

(** A table of [COLUMNS] is hydrated, to the journals of the values of its rows. *)
Lemma build_objects_COLUMNS e df :
  table COLUMNS df ->
  _build_journal_objects e df = Ok (journals_of_values e df).
Proof.
  intros [Hcols Hrows]. unfold _build_journal_objects, journals_of_values.
  destruct (frame_empty df) eqn:Hempty; [done|].
  rewrite Hcols. destruct (_build_taxonomy e) as [t exports].
  rewrite (hydrate_rows_made COLUMNS) by done. simpl. do 2 f_equal.
  apply list_fmap_ext. intros i r Hr. rewrite read_row_COLUMNS; [done|].
  apply Hrows. by apply list_elem_of_lookup_2 in Hr.
Qed.

Lemma journals_of_call_COLUMNS e call df :
  answers_tables COLUMNS e call ->
  _collect_journal_frames e call = Ok df ->
  journals_of_call e call = Ok (journals_of_values e df).
Proof.
  intros Htab Hdf. unfold journals_of_call. rewrite Hdf. simpl.
  by apply build_objects_COLUMNS, (merged_table_COLUMNS e call).
Qed.

(** C8. When every journal handler answers with a table of [COLUMNS], a row
    of the merged table none of whose identifiers is in the merged alias
    map, in its normal form or in its normal form without hyphens, still
    gives a journal, at the place of the row, with no category and no
    area; the operation returns and returns one journal per row. *)
Theorem unmatched_journal_kept (e : BasicQueryEngine) (call : JournalCall)
    (frame : Frame) (i : nat) (record : Row) :
  answers_tables COLUMNS e call ->
  _collect_journal_frames e call = Ok frame ->
  rows frame !! i = Some record ->
  (forall identifier, identifier ∈ row_identifiers record ->
     od_get (_normalise_identifier (Some identifier))
            (exp_journal_alias (_collect_category_exports e)) = None
     /\ od_get (_normalise_identifier (Some (Py.remove_hyphens identifier)))
               (exp_journal_alias (_collect_category_exports e)) = None) ->
  exists h journals j,
    journals_of_call e call = Ok (h, journals)
    /\ length journals = length (rows frame)
    /\ journals !! i = Some j
    /\ Journal_getId j = init_field (row_id record)
    /\ Journal_getCategories j = []
    /\ Journal_getAreas j = [].
Proof.
  intros Htab Hframe Hrow Hnone.
  assert (Hne : frame_empty frame = false).
  { unfold frame_empty. pose proof (merged_columns e call frame Hframe) as Hcols.
    destruct (rows frame); [done|]. by destruct (columns frame). }
  rewrite (journals_of_call_COLUMNS e call frame Htab Hframe).
  unfold journals_of_values. rewrite Hne. unfold _build_taxonomy.
  eexists _, _, _. split; [reflexivity|]. split; [apply length_fmap|].
  split; [by rewrite list_lookup_fmap, Hrow|].
  unfold hydrate_values. rewrite attach_unresolved; [done|].
  intros identifier Hi. apply elem_of_filter_truthy in Hi as [Hi _].
  destruct (Hnone identifier Hi). by apply resolve_alias_None.
Qed.

(** The theorem at an engine whose taxonomy knows the journal X and not
    the journal Y: both are returned, X with its category and its area, Y
    with none. *)
Lemma unmatched_journal_kept_witness :
  (exists h journals j,
     journals_of_call partly_known_engine call_getAllJournals = Ok (h, journals)
     /\ length journals = 2
     /\ journals !! 1 = Some j
     /\ Journal_getId j = "Y"
     /\ Journal_getCategories j = []
     /\ Journal_getAreas j = [])
  /\ (exists h j0 j1,
        journals_of_call partly_known_engine call_getAllJournals = Ok (h, [j0; j1])
        /\ Journal_getId j0 = "X"
        /\ Journal_getCategories j0 = [0]
        /\ Journal_getAreas j0 = [0]).
Proof.
  split.
  - apply (unmatched_journal_kept partly_known_engine call_getAllJournals
             first_frame 1 (sample_row "Y" "other" true)).
    + intros h f Hh Hcall. apply list_elem_of_singleton in Hh as ->.
      injection Hcall as <-. split; [reflexivity|].
      intros r Hr. apply elem_of_cons in Hr as [-> |Hr]; [reflexivity|].
      apply list_elem_of_singleton in Hr as ->. reflexivity.
    + reflexivity.
    + reflexivity.
    + intros identifier Hi. apply list_elem_of_singleton in Hi as ->.
      split; reflexivity.
  - eexists _, _, _. split; [vm_compute; reflexivity|]. split; [reflexivity|].
    split; reflexivity.
Defined.

(** ** Vacuous filters *)

Lemma addArea_lengths c a h :
  length (heap_categories (Category_addArea c a h)) = length (heap_categories h)
  /\ length (heap_areas (Category_addArea c a h)) = length (heap_areas h).
Proof.
  unfold Category_addArea, Area_link_category, Category_link_area.
  destruct (heap_areas h !! a) as [A|]; [|done].
  destruct (Py.truthy (Area_getId A)); [|done]. simpl.
  destruct (alter _ c (heap_categories h) !! c) as [C|]; simpl.
  - destruct (Py.truthy (Category_getId C)); simpl; by rewrite ?length_alter.
  - by rewrite length_alter.
Qed.

Lemma Forall_lt_weaken (l : list nat) (n m : nat) :
  n <= m -> Forall (fun x => x < n) l -> Forall (fun x => x < m) l.
Proof. intros Hnm H. eapply Forall_impl; [exact H|]. simpl. intros x Hx. lia. Qed.

Lemma taxonomy_refs_valid_built exports : taxonomy_refs_valid (build_taxonomy_from exports).
Proof.
  apply (build_taxonomy_invariant taxonomy_refs_valid).
  - split; constructor.
  - intros t cid [Hc Ha]. unfold category_setdefault.
    destruct (od_get cid (category_map t)); [done|].
    split; simpl; [|done]. rewrite length_app. simpl.
    unfold od_values. rewrite fmap_app. apply Forall_app. split.
    + eapply Forall_lt_weaken; [|exact Hc]. lia.
    + constructor; [simpl; lia|constructor].
  - intros t aid [Hc Ha]. unfold area_setdefault.
    destruct (od_get aid (area_map t)); [done|].
    split; simpl; [done|]. rewrite length_app. simpl.
    unfold od_values. rewrite fmap_app. apply Forall_app. split.
    + eapply Forall_lt_weaken; [|exact Ha]. lia.
    + constructor; [simpl; lia|constructor].
  - intros t c quartile [Hc Ha]. split; simpl; [|done]. by rewrite length_alter.
  - intros t c a [Hc Ha]. unfold taxonomy_refs_valid. simpl.
    by destruct (addArea_lengths c a (tx_heap t)) as [-> ->].
Qed.

Lemma matches_empty s : matches ∅ s = true.
Proof. unfold matches, nonempty. by rewrite bool_decide_eq_true_2. Qed.

(** C6. With no quartile requested, [getCategoriesWithQuartile] returns the
    categories of [getAllCategories], in the same heap and in the same
    order: for [None], for the empty list, and for any list that leaves the
    request set empty. *)
Theorem empty_quartiles_all_categories (e : BasicQueryEngine) :
  getCategoriesWithQuartile e None = getAllCategories e
  /\ getCategoriesWithQuartile e (Some []) = getAllCategories e
  /\ (forall quartiles, requested quartiles = ∅ ->
        getCategoriesWithQuartile e quartiles = getAllCategories e).
Proof.
  assert (Hall : forall quartiles, requested quartiles = ∅ ->
            getCategoriesWithQuartile e quartiles = getAllCategories e).
  { intros quartiles Hreq. unfold getCategoriesWithQuartile. rewrite Hreq.
    unfold getAllCategories, _build_taxonomy. f_equal.
    apply filter_all_true.
    destruct (taxonomy_refs_valid_built (_collect_category_exports e)) as [Hc _].
    eapply Forall_impl; [exact Hc|]. intros c Hlt. simpl in Hlt.
    destruct (lookup_lt_is_Some_2 _ _ Hlt) as [C ->]. apply matches_empty. }
  split; [by apply Hall|]. split; [by apply Hall|done].
Qed.

(** ** Engines without handlers, handlers without rows *)

Lemma collect_frames_no_rows handlers call :
  (forall h, h ∈ handlers -> no_rows h call) -> collect_frames handlers call = Ok [].
Proof.
  induction handlers as [|h handlers IH]; intros Hno; simpl; [done|].
  rewrite IH by (intros h' Hh'; apply Hno, elem_of_cons; by right).
  destruct (Hno h) as [->|(f & -> & Hf)]; [apply elem_of_cons; by left|done|].
  simpl. unfold frame_empty. by rewrite Hf.
Qed.

Lemma journal_handler_in_elem h l : h ∈ l -> journal_handler_in h l = true.
Proof.
  intros H. unfold journal_handler_in. apply existsb_exists.
  exists h. split; [by apply list_elem_of_In|apply Nat.eqb_refl].
Qed.

Lemma category_handler_in_elem h l : h ∈ l -> category_handler_in h l = true.
Proof.
  intros H. unfold category_handler_in. apply existsb_exists.
  exists h. split; [by apply list_elem_of_In|apply Nat.eqb_refl].
Qed.

(** C7. An engine without handlers answers every public operation with an
    empty list (no entity for [getEntityById]) and raises nothing; when no
    journal handler produces a row the merged table is the empty table with
    the columns of [COLUMNS]; and adding the null handler, or a handler
    that is registered already, returns false and leaves the engine as it
    is. *)
Theorem unregistered_engine_is_empty :
  (forall identifier, getEntityById BasicQueryEngine_init identifier = Ok None)
  /\ getAllJournals BasicQueryEngine_init = Ok (empty_heap, [])
  /\ (forall title_part,
        getJournalsWithTitle BasicQueryEngine_init title_part = Ok (empty_heap, []))
  /\ (forall publisher_part,
        getJournalsPublishedBy BasicQueryEngine_init publisher_part = Ok (empty_heap, []))
  /\ (forall licenses,
        getJournalsWithLicense BasicQueryEngine_init licenses = Ok (empty_heap, []))
  /\ getJournalsWithAPC BasicQueryEngine_init = Ok (empty_heap, [])
  /\ getJournalsWithDOAJSeal BasicQueryEngine_init = Ok (empty_heap, [])
  /\ getAllCategories BasicQueryEngine_init = (empty_heap, [])
  /\ getAllAreas BasicQueryEngine_init = (empty_heap, [])
  /\ (forall quartiles,
        getCategoriesWithQuartile BasicQueryEngine_init quartiles = (empty_heap, []))
  /\ (forall areas,
        getCategoriesAssignedToAreas BasicQueryEngine_init areas = (empty_heap, []))
  /\ (forall categories,
        getAreasAssignedToCategories BasicQueryEngine_init categories = (empty_heap, []))
  /\ (forall categories quartiles,
        getJournalsInCategoriesWithQuartile BasicQueryEngine_init categories quartiles
        = Ok (empty_heap, []))
  /\ (forall areas licenses,
        getJournalsInAreasWithLicense BasicQueryEngine_init areas licenses
        = Ok (empty_heap, []))
  /\ (forall areas categories quartiles,
        getDiamondJournalsInAreasAndCategoriesWithQuartile BasicQueryEngine_init
          areas categories quartiles = Ok (empty_heap, []))
  /\ (forall e call,
        (forall h, h ∈ journalQuery e -> no_rows h call) ->
        _collect_journal_frames e call = Ok (DataFrame_columns COLUMNS))
  /\ (forall e, addJournalHandler None e = (false, e))
  /\ (forall e h, h ∈ journalQuery e -> addJournalHandler (Some h) e = (false, e))
  /\ (forall e, addCategoryHandler None e = (false, e))
  /\ (forall e h, h ∈ categoryQuery e -> addCategoryHandler (Some h) e = (false, e)).
Proof.
  repeat split; try reflexivity.
  - intros e call Hno. unfold _collect_journal_frames.
    by rewrite collect_frames_no_rows.
  - intros e h Hh. unfold addJournalHandler. by rewrite journal_handler_in_elem.
  - intros e h Hh. unfold addCategoryHandler. by rewrite category_handler_in_elem.
Qed.

(** The theorem at a handler whose table has no row, and at a handler added twice. *)
Lemma unregistered_engine_is_empty_witness :
  _collect_journal_frames (mkEngine [constant_handler 0 (mkFrame COLUMNS [])] [])
    call_getAllJournals = Ok (DataFrame_columns COLUMNS)
  /\ addJournalHandler (Some (constant_handler 0 first_frame)) two_sources
     = (false, two_sources).
Proof.
  pose proof unregistered_engine_is_empty as H.
  do 15 (destruct H as [_ H]). destruct H as (Hcollect & _ & Hadd & _).
  split.
  - apply Hcollect. intros h Hh. apply list_elem_of_singleton in Hh as ->.
    right. by eexists.
  - apply Hadd. apply list_elem_of_here.
Defined.

(** ** The empty title filter *)

Section empty_title.
Variable str_contains : string -> outcome (option string -> bool).

Lemma by_title_falsy repo title_part :
  Py.truthy_opt title_part = false ->
  by_title str_contains repo title_part = Ok (store_all repo).
Proof. intros H. unfold by_title. by rewrite H. Qed.

Lemma package_call_title_falsy jq title_part :
  Py.truthy_opt title_part = false ->
  JournalQueryHandler_call str_contains jq (call_getJournalsWithTitle title_part)
  = JournalQueryHandler_call str_contains jq call_getAllJournals.
Proof.
  intros H. unfold JournalQueryHandler_call.
  destruct (jq_repository jq) as [repo|]; [|done]. by rewrite by_title_falsy.
Qed.

Lemma collect_frames_title_falsy handlers title_part :
  Py.truthy_opt title_part = false ->
  (forall h, h ∈ handlers -> store_backed str_contains h) ->
  collect_frames handlers (call_getJournalsWithTitle title_part)
  = collect_frames handlers call_getAllJournals
  /\ exists frames, collect_frames handlers call_getAllJournals = Ok frames.
Proof.
  intros Ht. induction handlers as [|h handlers IH]; intros Hb; simpl.
  - split; [done|by eexists].
  - destruct (Hb h) as (jq & _ & Hjq); [apply elem_of_cons; by left|].
    destruct IH as [IH (frames & Hframes)].
    { intros h' Hh'. apply Hb, elem_of_cons. by right. }
    rewrite !Hjq, package_call_title_falsy, IH, Hframes by done.
    split; [done|].
    unfold JournalQueryHandler_call. destruct (jq_repository jq); simpl; by eexists.
Qed.

(** A handler of the package answers every call with a table of [COLUMNS]. *)
Lemma package_call_table jq call f :
  (forall repo, jq_repository jq = Some repo -> table COLUMNS (store_frame repo)) ->
  JournalQueryHandler_call str_contains jq call = Ok (Some f) ->
  table COLUMNS f.
Proof.
  intros Htab. unfold JournalQueryHandler_call.
  destruct (jq_repository jq) as [repo|]; [|intros [= <-]; apply table_empty].
  specialize (Htab repo eq_refl).
  assert (Hres : forall (o : outcome Frame),
            (forall f', o = Ok f' -> table COLUMNS f') ->
            (o ≫= λ frame, Ok (Some frame)) = Ok (Some f) -> table COLUMNS f).
  { intros o Ho. destruct o as [f'|]; simpl; [|done]. intros [= <-]. by apply Ho. }
  apply Hres. clear Hres. destruct call; intros f'.
  - unfold by_identifier. destruct (negb (Py.truthy_opt identifier));
      [intros [= <-]; apply table_empty|].
    cbv zeta.
    set (scan := mbind _ (column "identifiers" (store_frame repo))).
    assert (Hscan : scan = Ok f' -> table COLUMNS f').
    { unfold scan. destruct (column "identifiers" (store_frame repo)); simpl; [|done].
      destruct (frame_empty _); intros [= <-]; [apply table_empty|by apply table_loc]. }
    clearbody scan.
    match goal with
    | |- context [Py.truthy_opt (if ?b then ?x else ?y)] =>
        generalize (if b then x else y)
    end.
    intros target. destruct (Py.truthy_opt target); [|exact Hscan].
    destruct (column "id" (store_frame repo)); simpl; [|done].
    destruct (frame_empty _); [done|]. intros [= <-]. by apply table_loc.
  - by intros [= <-].
  - unfold by_title. destruct (negb (Py.truthy_opt title_part)); [by intros [= <-]|].
    destruct (column "title" (store_all repo)); simpl; [|done].
    destruct (str_contains _); simpl; [|done]. intros [= <-]. by apply table_loc.
  - unfold by_publisher. destruct (negb (Py.truthy_opt publisher_part)); [by intros [= <-]|].
    destruct (column "publisher" (store_all repo)); simpl; [|done].
    destruct (str_contains _); simpl; [|done]. intros [= <-]. by apply table_loc.
  - unfold by_license. destruct (negb (nonempty (requested licenses))); [by intros [= <-]|].
    destruct (column "license" (store_all repo)); simpl; [|done].
    intros [= <-]. by apply table_loc.
  - unfold with_apc. destruct (column "apc" (store_all repo)); simpl; [|done].
    intros [= <-]. by apply table_loc.
  - unfold with_doaj_seal. destruct (column "doaj_seal" (store_all repo)); simpl; [|done].
    intros [= <-]. by apply table_loc.
Qed.

Lemma store_backed_answers_tables e call :
  (forall h, h ∈ journalQuery e -> store_backed str_contains h) ->
  answers_tables COLUMNS e call.
Proof.
  intros Hb h f Hh Hcall. destruct (Hb h Hh) as (jq & Htab & Hjq).
  rewrite Hjq in Hcall. by apply (package_call_table jq call).
Qed.

End empty_title.

(** C10. When every journal handler of the engine is a handler of the
    package, backed by the in-memory store, [getJournalsWithTitle] with
    [None] or with the empty string returns what [getAllJournals] returns,
    and [getAllJournals] does return. *)
Theorem empty_title_is_all_journals (str_contains : string -> outcome (option string -> bool))
    (e : BasicQueryEngine) :
  (forall h, h ∈ journalQuery e -> store_backed str_contains h) ->
  getJournalsWithTitle e None = getAllJournals e
  /\ getJournalsWithTitle e (Some "") = getAllJournals e
  /\ exists result, getAllJournals e = Ok result.
Proof.
  intros Hb.
  assert (Hsame : forall title_part, Py.truthy_opt title_part = false ->
            getJournalsWithTitle e title_part = getAllJournals e).
  { intros title_part Ht.
    unfold getJournalsWithTitle, getAllJournals, journals_of_call, _collect_journal_frames.
    by destruct (collect_frames_title_falsy str_contains (journalQuery e) title_part Ht Hb)
      as [-> _]. }
  split; [by apply Hsame|]. split; [by apply Hsame|].
  destruct (collect_frames_title_falsy str_contains (journalQuery e) None eq_refl Hb)
    as [_ (frames & Hframes)].
  assert (Hdf : exists df, _collect_journal_frames e call_getAllJournals = Ok df).
  { unfold _collect_journal_frames. rewrite Hframes. simpl. by eexists. }
  destruct Hdf as [df Hdf]. unfold getAllJournals.
  rewrite (journals_of_call_COLUMNS e call_getAllJournals df); [by eexists| |done].
  by apply (store_backed_answers_tables str_contains).
Qed.

(** The theorem at an engine with a store of two journals and a handler
    whose repository is not set. *)
Lemma empty_title_is_all_journals_witness :
  getJournalsWithTitle sample_store_engine None = getAllJournals sample_store_engine
  /\ getJournalsWithTitle sample_store_engine (Some "") = getAllJournals sample_store_engine
  /\ exists result, getAllJournals sample_store_engine = Ok result.
Proof.
  apply (empty_title_is_all_journals (fun _ => Ok (fun _ => false)) sample_store_engine).
  intros h Hh. unfold sample_store_engine in Hh. simpl in Hh.
  apply elem_of_cons in Hh as [->|Hh].
  - exists (mkJournalQueryHandler (Some sample_store)). split; [|done].
    intros repo [= <-]. split; [reflexivity|].
    intros r Hr. apply elem_of_cons in Hr as [-> |Hr]; [reflexivity|].
    apply list_elem_of_singleton in Hr as ->. reflexivity.
  - apply list_elem_of_singleton in Hh as ->.
    exists (mkJournalQueryHandler None). split; [|done]. intros repo Hrepo. discriminate.
Defined.

(** ** The diamond query *)

Section tests.
Implicit Types (X Y target : gset string).

Lemma nonempty_true X : nonempty X = true <-> exists x, x ∈ X.
Proof.
  unfold nonempty. rewrite negb_true_iff, bool_decide_eq_false. split.
  - apply set_choose_L.
  - intros [x Hx] ->. by apply not_elem_of_empty in Hx.
Qed.

Lemma nonempty_false X : nonempty X = false <-> X = ∅.
Proof. unfold nonempty. by rewrite negb_false_iff, bool_decide_eq_true. Qed.

Lemma matches_spec target X :
  matches target X = true <-> target = ∅ \/ exists x, x ∈ X /\ x ∈ target.
Proof.
  unfold matches. rewrite orb_true_iff, negb_true_iff, nonempty_false, nonempty_true.
  split; (intros [?|[x Hx]]; [by left|right; exists x]).
  - by apply elem_of_intersection in Hx.
  - by apply elem_of_intersection.
Qed.

Lemma elem_of_normalised_set x (xs : list string) :
  x ∈ normalised_set xs <-> exists y, y ∈ xs /\ x = _normalise_identifier (Some y).
Proof.
  unfold normalised_set. rewrite elem_of_list_to_set, list_elem_of_fmap.
  split; intros (y & ? & ?); by exists y.
Qed.

Lemma category_ok_spec rc rq (C : Category) :
  category_ok rc rq C = true
  <-> (rc = ∅ \/ _normalise_identifier (Some (Category_getId C)) ∈ rc)
      /\ (rq = ∅ \/ exists q, q ∈ Category_getQuartiles C
                      /\ _normalise_identifier (Some q) ∈ rq).
Proof.
  unfold category_ok, category_quartile_norm.
  rewrite andb_true_iff, orb_true_iff, negb_true_iff, nonempty_false,
    bool_decide_eq_true, matches_spec.
  split; intros [H1 H2]; (split; [done|]); destruct H2 as [?|H2]; try by left.
  - right. destruct H2 as (x & Hx & Hrq).
    apply elem_of_normalised_set in Hx as (q & Hq & ->). by exists q.
  - right. destruct H2 as (q & Hq & Hrq).
    exists (_normalise_identifier (Some q)). split; [|done].
    apply elem_of_normalised_set. by exists q.
Qed.

Lemma area_test_spec h ra j :
  matches ra (journal_area_norm h j) = true <-> area_in_set h ra j.
Proof.
  unfold area_in_set, journal_area_norm, areas_of. rewrite matches_spec.
  split; (intros [?|H]; [by left|right]).
  - destruct H as (x & Hx & Hra).
    apply elem_of_normalised_set in Hx as (y & Hy & ->).
    apply list_elem_of_fmap in Hy as (A & -> & HA).
    apply list_elem_of_omap in HA as (a & Ha & HA). by exists a, A.
  - destruct H as (a & A & Ha & HA & Hra).
    exists (_normalise_identifier (Some (Area_getId A))). split; [|done].
    apply elem_of_normalised_set. exists (Area_getId A). split; [|done].
    apply list_elem_of_fmap. exists A. split; [done|].
    apply list_elem_of_omap. by exists a.
Qed.

Lemma category_test_spec h rc rq j :
  existsb (category_ok rc rq) (categories_of h (Journal_getCategories j)) = true
  <-> category_in_sets h rc rq j.
Proof.
  unfold category_in_sets, categories_of. rewrite existsb_exists. split.
  - intros (C & HC & Hok). apply list_elem_of_In, list_elem_of_omap in HC as (c & Hc & HC).
    apply category_ok_spec in Hok as [? ?]. by exists c, C.
  - intros (c & C & Hc & HC & H1 & H2). exists C. split.
    + apply list_elem_of_In, list_elem_of_omap. by exists c.
    + by apply category_ok_spec.
Qed.

(** The test of the loop of the diamond query. *)
Lemma diamond_test_spec h ra rc rq j :
  (if nonempty ra && negb (nonempty (journal_area_norm h j ∩ ra))
   then false
   else existsb (category_ok rc rq) (categories_of h (Journal_getCategories j))) = true
  <-> area_in_set h ra j /\ category_in_sets h rc rq j.
Proof.
  rewrite <- area_test_spec, <- category_test_spec. unfold matches.
  destruct (nonempty ra); simpl.
  - destruct (nonempty (journal_area_norm h j ∩ ra)); simpl; [tauto|].
    split; [done|]. by intros [? _].
  - tauto.
Qed.

End tests.

(** The sets that the code makes of the requests, in words. *)
Lemma elem_of_requested request x : x ∈ requested request <-> asked request x.
Proof.
  unfold requested, asked. rewrite elem_of_list_to_set, list_elem_of_fmap. split.
  - intros (q & -> & Hq). apply elem_of_filter in Hq as [Hq Ht]. exists q.
    split; [done|]. split; [|done]. by apply truthy_true.
  - intros (q & Hq & Hne & <-). exists q. split; [done|].
    apply elem_of_filter. split; [done|]. by apply truthy_true.
Qed.

Lemma requested_empty request : requested request = ∅ <-> asks_nothing request.
Proof.
  unfold asks_nothing. split.
  - intros Hempty q Hq. destruct (decide (q = "")) as [?|Hne]; [done|]. exfalso.
    assert (H : _normalise_identifier (Some q) ∈ requested request).
    { apply elem_of_requested. by exists q. }
    rewrite Hempty in H. by apply not_elem_of_empty in H.
  - intros Hnone. apply set_eq. intros x. split; [|by intros H%not_elem_of_empty].
    intros (q & Hq & Hne & _)%elem_of_requested. by apply Hnone in Hq.
Qed.

Lemma area_requested_set h areas j :
  area_in_set h (requested areas) j <-> area_requested h areas j.
Proof.
  unfold area_in_set, area_requested. rewrite requested_empty.
  split; (intros [?|(a & A & Ha & HA & Hin)]; [by left|right; exists a, A]);
    (split; [done|split; [done|]]); by apply elem_of_requested.
Qed.

Lemma category_requested_sets h categories quartiles j :
  category_in_sets h (requested categories) (requested quartiles) j
  <-> category_requested h categories quartiles j.
Proof.
  unfold category_in_sets, category_requested.
  split; intros (c & C & Hc & HC & H1 & H2); exists c, C;
    (split; [done|split; [done|split]]).
  - destruct H1 as [H1|H1]; [left; by apply requested_empty|].
    right. by apply elem_of_requested.
  - destruct H2 as [H2|(q & Hq & H2)]; [left; by apply requested_empty|].
    right. exists q. split; [done|]. by apply elem_of_requested.
  - destruct H1 as [H1|H1]; [left; by apply requested_empty|].
    right. by apply elem_of_requested.
  - destruct H2 as [H2|(q & Hq & H2)]; [left; by apply requested_empty|].
    right. exists q. split; [done|]. by apply elem_of_requested.
Qed.

(** C4. When every journal handler answers with a table of [COLUMNS], the
    diamond query returns, and returns exactly the journals of the rows
    whose [apc] cell is false that pass the area test and have a category
    passing the category and quartile tests: an area of the journal, the
    category, a quartile of the category has a normal form that some
    non-empty string of the request has, each test being void when its
    request has no non-empty string. On the example of the specification
    the query for bio, C1 and Q1 returns the journal A alone; and among
    four journals of which three are free of charges, the requests choose
    by area, by category and by quartile, in whatever spelling, and a
    journal without a category is never returned. *)
Theorem diamond_query_spec :
  (forall e areas categories quartiles df,
     answers_tables COLUMNS e call_getAllJournals ->
     _journal_dataframe e = Ok df ->
     exists h journals,
       getDiamondJournalsInAreasAndCategoriesWithQuartile e areas categories quartiles
       = Ok (h, journals)
       /\ forall j,
            j ∈ journals
            <-> (exists record,
                   record ∈ rows df /\ row_apc record = Some false
                   /\ j = hydrate_values (_build_taxonomy e).1 (_build_taxonomy e).2 record)
                /\ area_requested h areas j
                /\ category_requested h categories quartiles j)
  /\ (exists h journals,
        getDiamondJournalsInAreasAndCategoriesWithQuartile diamond_engine
          (Some ["bio"]) (Some ["C1"]) (Some ["Q1"]) = Ok (h, journals)
        /\ Journal_getId <$> journals = ["A"])
  /\ (forall areas categories quartiles ids,
        (areas, categories, quartiles, ids)
        ∈ [(Some ["bio"], Some ["C1"], Some ["Q1"], ["A"]);
           (Some [" BIO"], Some ["c-1"], Some ["q 1"], ["A"]);
           (None, None, None, ["A"; "C"]);
           (Some [""], Some [], None, ["A"; "C"]);
           (Some ["chem"], None, None, ["C"]);
           (None, Some ["C2"], None, ["C"]);
           (None, None, Some ["Q2"], ["C"]);
           (Some ["bio"; "chem"], None, Some ["Q1"; "Q2"], ["A"; "C"]);
           (Some ["bio"], Some ["C2"], None, []);
           (None, Some ["C1"], Some ["Q2"], []);
           (None, None, Some ["Q4"], [])] ->
        exists h journals,
          getDiamondJournalsInAreasAndCategoriesWithQuartile choice_engine
            areas categories quartiles = Ok (h, journals)
          /\ Journal_getId <$> journals = ids).
Proof.
  split; [|split].
  - intros e areas categories quartiles df Htab Hdf.
    pose proof (merged_table_COLUMNS e call_getAllJournals df Htab Hdf) as Htable.
    unfold getDiamondJournalsInAreasAndCategoriesWithQuartile.
    rewrite Hdf. simpl.
    rewrite column_ok
      by (rewrite (proj1 Htable); apply (proj1 (bool_decide_eq_true _)); reflexivity).
    simpl. rewrite build_objects_COLUMNS by (by apply table_loc). simpl.
    unfold journals_of_values.
    destruct (frame_empty (loc _ df)) eqn:Hempty.
    + exists empty_heap, []. split; [done|]. intros j. split.
      * intros Hj. by apply elem_of_nil in Hj.
      * intros [(record & Hrecord & Hfalse & _) _]. exfalso.
        unfold frame_empty, loc in Hempty. simpl in Hempty.
        assert (Hin : record ∈ List.filter (fun r => bool_decide (row_apc r = Some false))
                                           (rows df)).
        { apply elem_of_filter. split; [done|]. by apply bool_decide_eq_true. }
        destruct (List.filter _ (rows df)); [by apply elem_of_nil in Hin|].
        by rewrite (proj1 Htable) in Hempty.
    + unfold _build_taxonomy. simpl. eexists _, _. split; [reflexivity|].
      intros j. rewrite elem_of_filter, diamond_test_spec.
      rewrite area_requested_set, category_requested_sets, list_elem_of_fmap.
      split; intros [Hj Htests]; (split; [|done]).
      * destruct Hj as (record & -> & Hrecord). exists record.
        apply elem_of_filter in Hrecord as [Hrecord Hfalse].
        by apply bool_decide_eq_true in Hfalse.
      * destruct Hj as (record & Hrecord & Hfalse & ->). exists record.
        split; [done|]. apply elem_of_filter. split; [done|].
        by apply bool_decide_eq_true.
  - eexists _, _. split; [vm_compute; reflexivity|]. reflexivity.
  - intros areas categories quartiles ids Hin.
    repeat (apply elem_of_cons in Hin as [[= -> -> -> ->]|Hin];
            [eexists _, _; split; [vm_compute; reflexivity|reflexivity]|]).
    by apply elem_of_nil in Hin.
Qed.

(** The general part of the theorem at the four journals, asked for the
    area chem and the quartile Q2. *)
Lemma diamond_query_spec_witness :
  exists h journals,
    getDiamondJournalsInAreasAndCategoriesWithQuartile choice_engine
      (Some ["chem"]) None (Some ["Q2"]) = Ok (h, journals)
    /\ forall j,
         j ∈ journals
         <-> (exists record,
                record ∈ rows choice_frame /\ row_apc record = Some false
                /\ j = hydrate_values (_build_taxonomy choice_engine).1
                         (_build_taxonomy choice_engine).2 record)
             /\ area_requested h (Some ["chem"]) j
             /\ category_requested h None (Some ["Q2"]) j.
Proof.
  apply (proj1 diamond_query_spec choice_engine (Some ["chem"]) None (Some ["Q2"])
           choice_frame).
  - intros h f Hh Hcall. apply list_elem_of_singleton in Hh as ->.
    injection Hcall as <-. split; [reflexivity|].
    intros r Hr. unfold choice_frame in Hr. cbn [rows] in Hr.
    repeat (apply elem_of_cons in Hr as [-> |Hr]; [reflexivity|]).
    by apply elem_of_nil in Hr.
  - reflexivity.
Defined.

(** * Further properties of the code *)

(** ** Trimmed identifiers and names *)

Section strip_facts.

Lemma rstrip_idempotent s : Py.rstrip (Py.rstrip s) = Py.rstrip s.
Proof.
  induction s as [|c s IH]; simpl; [done|].
  destruct (Py.rstrip s) as [|c' r] eqn:Hr.
  - destruct (Py.is_space c) eqn:Hc; simpl; [done|]. by rewrite Hc.
  - cbn [Py.rstrip]. cbn [Py.rstrip] in IH. by rewrite IH.
Qed.

Lemma lstrip_head s :
  Py.lstrip s = "" \/ exists c r, Py.lstrip s = String c r /\ Py.is_space c = false.
Proof.
  induction s as [|c s IH]; simpl; [by left|].
  destruct (Py.is_space c) eqn:Hc; [done|]. right. by exists c, s.
Qed.

Lemma rstrip_keeps_head c r :
  Py.is_space c = false -> exists r', Py.rstrip (String c r) = String c r'.
Proof.
  intros Hc. simpl. destruct (Py.rstrip r); [|by eexists].
  rewrite Hc. by eexists.
Qed.

Lemma strip_idempotent s : Py.strip (Py.strip s) = Py.strip s.
Proof.
  unfold Py.strip. destruct (lstrip_head s) as [->|(c & r & -> & Hc)]; [done|].
  destruct (rstrip_keeps_head c r Hc) as [r' Hr']. rewrite Hr'.
  cbn [Py.lstrip]. rewrite Hc, <- Hr'. apply rstrip_idempotent.
Qed.

End strip_facts.

(** X1. Whatever setters are called on a new entity, and with whatever
    arguments, its identifier and its name are trimmed: stripping them
    again changes nothing; and [hasId] tells whether the identifier is the
    empty string. *)
Theorem entity_fields_trimmed (entity_id name : option string) (ops : list SetterCall) :
  Py.strip (ent_id (fold_left run_setter ops (IdentifiableEntity_init entity_id name)))
  = ent_id (fold_left run_setter ops (IdentifiableEntity_init entity_id name))
  /\ Py.strip (ent_name (fold_left run_setter ops (IdentifiableEntity_init entity_id name)))
     = ent_name (fold_left run_setter ops (IdentifiableEntity_init entity_id name))
  /\ (hasId (fold_left run_setter ops (IdentifiableEntity_init entity_id name)) = false
      <-> ent_id (fold_left run_setter ops (IdentifiableEntity_init entity_id name)) = "").
Proof.
  assert (Hinv : Py.strip (ent_id (fold_left run_setter ops
                    (IdentifiableEntity_init entity_id name)))
                 = ent_id (fold_left run_setter ops (IdentifiableEntity_init entity_id name))
                 /\ Py.strip (ent_name (fold_left run_setter ops
                       (IdentifiableEntity_init entity_id name)))
                    = ent_name (fold_left run_setter ops
                                  (IdentifiableEntity_init entity_id name))).
  { apply (fold_left_invariant
             (fun x => Py.strip (ent_id x) = ent_id x /\ Py.strip (ent_name x) = ent_name x)).
    - intros x [i|n] [Hi Hn]; simpl; split; try done; apply strip_idempotent.
    - split; apply strip_idempotent. }
  destruct Hinv as [Hi Hn]. split; [done|]. split; [done|].
  unfold hasId, Py.truthy. rewrite negb_false_iff. apply String.eqb_eq.
Qed.

(** ** The handler lists *)

Lemma journal_handler_in_false h l :
  journal_handler_in h l = false <-> jh_ident h ∉ jh_ident <$> l.
Proof.
  unfold journal_handler_in. rewrite <- not_true_iff_false, existsb_exists.
  rewrite list_elem_of_fmap. split; intros H1 H2; apply H1.
  - destruct H2 as (h' & Heq & Hin). exists h'.
    split; [by apply list_elem_of_In|]. by apply Nat.eqb_eq.
  - destruct H2 as (h' & Hin & Heq). exists h'.
    split; [by apply Nat.eqb_eq in Heq|by apply list_elem_of_In].
Qed.

Lemma category_handler_in_false h l :
  category_handler_in h l = false <-> ch_ident h ∉ ch_ident <$> l.
Proof.
  unfold category_handler_in. rewrite <- not_true_iff_false, existsb_exists.
  rewrite list_elem_of_fmap. split; intros H1 H2; apply H1.
  - destruct H2 as (h' & Heq & Hin). exists h'.
    split; [by apply list_elem_of_In|]. by apply Nat.eqb_eq.
  - destruct H2 as (h' & Hin & Heq). exists h'.
    split; [by apply Nat.eqb_eq in Heq|by apply list_elem_of_In].
Qed.

(** X2. Whatever handlers are added and whenever the lists are cleaned,
    starting from a new engine, no handler object is registered twice in
    either list; adding a handler succeeds exactly when that object is not
    registered yet, and then puts it last. *)
Theorem handler_lists_duplicate_free :
  (forall ops : list RegistryCall,
     NoDup (jh_ident <$> journalQuery (fold_left run_registry_call ops BasicQueryEngine_init))
     /\ NoDup (ch_ident <$> categoryQuery
                 (fold_left run_registry_call ops BasicQueryEngine_init)))
  /\ (forall e h,
        ((addJournalHandler (Some h) e).1 = true
         <-> jh_ident h ∉ jh_ident <$> journalQuery e)
        /\ ((addJournalHandler (Some h) e).1 = true ->
            journalQuery (addJournalHandler (Some h) e).2 = journalQuery e ++ [h]
            /\ categoryQuery (addJournalHandler (Some h) e).2 = categoryQuery e))
  /\ (forall e h,
        ((addCategoryHandler (Some h) e).1 = true
         <-> ch_ident h ∉ ch_ident <$> categoryQuery e)
        /\ ((addCategoryHandler (Some h) e).1 = true ->
            categoryQuery (addCategoryHandler (Some h) e).2 = categoryQuery e ++ [h]
            /\ journalQuery (addCategoryHandler (Some h) e).2 = journalQuery e)).
Proof.
  split; [|split].
  - intros ops.
    apply (fold_left_invariant
             (fun e => NoDup (jh_ident <$> journalQuery e)
                       /\ NoDup (ch_ident <$> categoryQuery e))).
    + intros e [[h|]|[h|]| |] [Hj Hc]; simpl; try done.
      * destruct (journal_handler_in h (journalQuery e)) eqn:Hin; simpl; [done|].
        split; [|done]. rewrite fmap_app. apply NoDup_app. split; [done|].
        split; [|apply NoDup_singleton].
        intros x Hx Hx'. apply list_elem_of_singleton in Hx' as ->.
        by apply journal_handler_in_false in Hin.
      * destruct (category_handler_in h (categoryQuery e)) eqn:Hin; simpl; [done|].
        split; [done|]. rewrite fmap_app. apply NoDup_app. split; [done|].
        split; [|apply NoDup_singleton].
        intros x Hx Hx'. apply list_elem_of_singleton in Hx' as ->.
        by apply category_handler_in_false in Hin.
      * split; [constructor|done].
      * split; [done|constructor].
    + split; constructor.
  - intros e h. unfold addJournalHandler.
    destruct (journal_handler_in h (journalQuery e)) eqn:Hin; simpl.
    + split; [|done]. split; [done|]. intros Hnot.
      apply journal_handler_in_false in Hnot. congruence.
    + split; [|done]. split; [|done]. intros _. by apply journal_handler_in_false.
  - intros e h. unfold addCategoryHandler.
    destruct (category_handler_in h (categoryQuery e)) eqn:Hin; simpl.
    + split; [|done]. split; [done|]. intros Hnot.
      apply category_handler_in_false in Hnot. congruence.
    + split; [|done]. split; [|done]. intros _. by apply category_handler_in_false.
Qed.

(** ** Quartiles of a category *)

Section odict_keys.
Context {V : Type}.
Implicit Types (d : odict V) (k : string) (v : V).

Lemma od_mem_false_keys k d : od_mem k d = false <-> k ∉ od_keys d.
Proof.
  unfold od_mem, od_keys. destruct (od_get k d) as [v|] eqn:Hget.
  - split; [done|]. intros Hnot. destruct Hnot.
    apply list_elem_of_fmap. exists (k, v). split; [done|]. by apply od_get_elem.
  - split; [|done]. intros _ Hin.
    apply list_elem_of_fmap in Hin as ([k' v] & Hk & Hin). simpl in Hk. subst k'.
    by apply (proj1 (od_get_None k d) Hget v).
Qed.

Lemma od_keys_setdefault k v d :
  od_keys (od_setdefault k v d) = if od_mem k d then od_keys d else od_keys d ++ [k].
Proof.
  unfold od_setdefault. destruct (od_mem k d); [done|].
  unfold od_keys. by rewrite fmap_app.
Qed.

Lemma elem_of_od_keys_setdefault x k v d :
  x ∈ od_keys (od_setdefault k v d) <-> x ∈ od_keys d \/ x = k.
Proof.
  rewrite od_keys_setdefault. destruct (od_mem k d) eqn:Hmem.
  - split; [by left|]. intros [?|Hx]; [done|]. subst x.
    destruct (decide (k ∈ od_keys d)) as [?|Hnot]; [done|].
    apply od_mem_false_keys in Hnot. congruence.
  - rewrite elem_of_app, list_elem_of_singleton. tauto.
Qed.

Lemma od_keys_setdefault_NoDup k v d :
  NoDup (od_keys d) -> NoDup (od_keys (od_setdefault k v d)).
Proof.
  intros Hd. rewrite od_keys_setdefault. destruct (od_mem k d) eqn:Hmem; [done|].
  apply NoDup_app. split; [done|]. split; [|apply NoDup_singleton].
  intros x Hx Hx'. apply list_elem_of_singleton in Hx' as ->.
  by apply od_mem_false_keys in Hmem.
Qed.

End odict_keys.

Lemma strip_empty : Py.strip "" = "".
Proof. reflexivity. Qed.

(** X3. Whatever quartiles are added to a new category, its quartile list
    has no duplicate and holds exactly the non-empty trimmed forms of the
    arguments, each of them trimmed; an argument that is [None], empty or
    blank adds nothing; and the identifier, the name and the areas of the
    category stay as they were. *)
Theorem quartiles_trimmed_duplicate_free (category_id : option string)
    (quartiles : list (option string)) :
  NoDup (Category_getQuartiles
           (fold_left (fun c q => Category_addQuartile q c) quartiles
                      (Category_init category_id)))
  /\ (forall q,
        q ∈ Category_getQuartiles
              (fold_left (fun c q => Category_addQuartile q c) quartiles
                         (Category_init category_id))
        <-> q <> "" /\ exists s, Some s ∈ quartiles /\ Py.strip s = q)
  /\ Forall (fun q => Py.strip q = q)
            (Category_getQuartiles
               (fold_left (fun c q => Category_addQuartile q c) quartiles
                          (Category_init category_id)))
  /\ Category_getId (fold_left (fun c q => Category_addQuartile q c) quartiles
                               (Category_init category_id))
     = Category_getId (Category_init category_id)
  /\ Category_getAreas (fold_left (fun c q => Category_addQuartile q c) quartiles
                                  (Category_init category_id)) = [].
Proof.
  assert (Hstep : forall c q x,
            x ∈ Category_getQuartiles (Category_addQuartile q c)
            <-> x ∈ Category_getQuartiles c
                \/ (x <> "" /\ exists s, q = Some s /\ Py.strip s = x)).
  { intros c q x. unfold Category_addQuartile, Category_getQuartiles.
    destruct q as [s|]; [|split; [by left|by intros [?|(_ & s & ? & _)]]].
    destruct (Py.truthy s) eqn:Hs.
    - destruct (Py.truthy (Py.strip s)) eqn:Hss; simpl.
      + rewrite elem_of_od_keys_setdefault. apply truthy_true in Hss.
        split; (intros [?|H]; [by left|right]).
        * subst x. split; [done|]. by exists s.
        * by destruct H as (_ & s' & [= <-] & <-).
      + split; [by left|]. intros [?|(Hx & s' & [= <-] & <-)]; [done|].
        apply truthy_true in Hx. congruence.
    - split; [by left|]. intros [?|(Hx & s' & [= <-] & <-)]; [done|].
      apply negb_false_iff, String.eqb_eq in Hs. subst s. by rewrite strip_empty in Hx. }
  assert (Hinv : forall qs c0,
            let c := fold_left (fun c q => Category_addQuartile q c) qs c0 in
            (NoDup (Category_getQuartiles c0) -> NoDup (Category_getQuartiles c))
            /\ (forall x, x ∈ Category_getQuartiles c
                  <-> x ∈ Category_getQuartiles c0
                      \/ (x <> "" /\ exists s, Some s ∈ qs /\ Py.strip s = x))
            /\ Category_getId c = Category_getId c0
            /\ cat_areas c = cat_areas c0).
  { induction qs as [|q qs IH]; intros c0; simpl.
    - split; [done|]. split; [|done]. intros x. split; [by left|].
      intros [?|(_ & s & Hs & _)]; [done|]. by apply elem_of_nil in Hs.
    - destruct (IH (Category_addQuartile q c0)) as (Hnd & Hmem & Hid & Har).
      split; [|split; [|split]].
      + intros H0. apply Hnd. unfold Category_addQuartile, Category_getQuartiles in *.
        destruct q as [s|]; [|done]. destruct (Py.truthy s); [|done].
        destruct (Py.truthy (Py.strip s)); [|done]. simpl.
        by apply od_keys_setdefault_NoDup.
      + intros x. rewrite Hmem, Hstep. split.
        * intros [[?|(Hx & s & -> & Hs)]|(Hx & s & Hin & Hs)]; [by left|right|right];
            (split; [done|]); exists s; (split; [|done]); apply elem_of_cons; auto.
        * intros [?|(Hx & s & Hin & Hs)]; [by left; left|].
          apply elem_of_cons in Hin as [<-|Hin].
          -- left. right. split; [done|]. by exists s.
          -- right. split; [done|]. by exists s.
      + rewrite Hid. unfold Category_addQuartile. destruct q as [s|]; [|done].
        destruct (Py.truthy s); [|done]. by destruct (Py.truthy (Py.strip s)).
      + rewrite Har. unfold Category_addQuartile. destruct q as [s|]; [|done].
        destruct (Py.truthy s); [|done]. by destruct (Py.truthy (Py.strip s)). }
  destruct (Hinv quartiles (Category_init category_id)) as (Hnd & Hmem & Hid & Har).
  assert (Hiff : forall q,
            q ∈ Category_getQuartiles
                  (fold_left (fun c q => Category_addQuartile q c) quartiles
                             (Category_init category_id))
            <-> q <> "" /\ exists s, Some s ∈ quartiles /\ Py.strip s = q).
  { intros q. rewrite Hmem. split; [|by right].
    intros [H|?]; [|done]. by apply elem_of_nil in H. }
  split; [apply Hnd; constructor|]. split; [done|]. split; [|split; [done|]].
  - apply Forall_forall. intros q Hq. apply Hiff in Hq as (_ & s & _ & <-).
    apply strip_idempotent.
  - unfold Category_getAreas. by rewrite Har.
Qed.

(** ** Link dictionaries *)

Section wellformed.

Lemma link_area_wellformed c a h :
  links_wellformed h -> links_wellformed (Category_link_area c a h).
Proof.
  intros [Hc Ha]. unfold Category_link_area.
  destruct (heap_areas h !! a) as [A|] eqn:HA; [|done].
  destruct (Py.truthy (Area_getId A)) eqn:Ht; [|done].
  split; simpl.
  - intros c' C' HC'. rewrite list_lookup_alter in HC'.
    case_decide as Hcc; [subst c'|by apply (Hc c')].
    destruct (heap_categories h !! c) as [C|] eqn:HC; [|done].
    injection HC' as <-. simpl. destruct (Hc c C HC) as [Hnd Hen].
    split; [by apply od_keys_setdefault_NoDup|].
    intros k r Hin. apply elem_of_od_setdefault in Hin as [Hin|[_ [= -> ->]]];
      [by apply Hen|]. split; [done|]. by exists A.
  - intros a' A' HA'. destruct (Ha a' A' HA') as [Hnd Hen]. split; [done|].
    intros k r Hin. destruct (Hen k r Hin) as (Hk & C & HC & <-). split; [done|].
    by apply (lookup_alter_keep Category_getId).
Qed.

Lemma link_category_wellformed a c h :
  links_wellformed h -> links_wellformed (Area_link_category a c h).
Proof.
  intros [Hc Ha]. unfold Area_link_category.
  destruct (heap_categories h !! c) as [C|] eqn:HC; [|done].
  destruct (Py.truthy (Category_getId C)) eqn:Ht; [|done].
  split; simpl.
  - intros c' C' HC'. destruct (Hc c' C' HC') as [Hnd Hen]. split; [done|].
    intros k r Hin. destruct (Hen k r Hin) as (Hk & A & HA & <-). split; [done|].
    by apply (lookup_alter_keep Area_getId).
  - intros a' A' HA'. rewrite list_lookup_alter in HA'.
    case_decide as Haa; [subst a'|by apply (Ha a')].
    destruct (heap_areas h !! a) as [A|] eqn:HA; [|done].
    injection HA' as <-. simpl. destruct (Ha a A HA) as [Hnd Hen].
    split; [by apply od_keys_setdefault_NoDup|].
    intros k r Hin. apply elem_of_od_setdefault in Hin as [Hin|[_ [= -> ->]]];
      [by apply Hen|]. split; [done|]. by exists C.
Qed.

Lemma addArea_wellformed c a h :
  links_wellformed h -> links_wellformed (Category_addArea c a h).
Proof.
  intros H. unfold Category_addArea.
  destruct (heap_areas h !! a) as [A|]; [|done].
  destruct (Py.truthy (Area_getId A)); [|done].
  by apply link_category_wellformed, link_area_wellformed.
Qed.

Lemma addCategory_wellformed a c h :
  links_wellformed h -> links_wellformed (Area_addCategory a c h).
Proof.
  intros H. unfold Area_addCategory.
  destruct (heap_categories h !! c) as [C|]; [|done].
  destruct (Py.truthy (Category_getId C)); [|done].
  by apply link_category_wellformed, link_area_wellformed.
Qed.

Lemma link_area_ids c a h :
  category_ids (Category_link_area c a h) = category_ids h
  /\ area_ids (Category_link_area c a h) = area_ids h.
Proof.
  unfold Category_link_area, category_ids, area_ids.
  destruct (heap_areas h !! a) as [A|]; [|done].
  destruct (Py.truthy (Area_getId A)); [|done]. simpl.
  split; [|done]. by apply fmap_alter_keep.
Qed.

Lemma link_category_ids a c h :
  category_ids (Area_link_category a c h) = category_ids h
  /\ area_ids (Area_link_category a c h) = area_ids h.
Proof.
  unfold Area_link_category, category_ids, area_ids.
  destruct (heap_categories h !! c) as [C|]; [|done].
  destruct (Py.truthy (Category_getId C)); [|done]. simpl.
  split; [done|]. by apply fmap_alter_keep.
Qed.

Lemma run_call_ids h op :
  category_ids (run_call h op) = category_ids h /\ area_ids (run_call h op) = area_ids h.
Proof.
  destruct op as [c a|a c]; simpl.
  - unfold Category_addArea. destruct (heap_areas h !! a) as [A|]; [|done].
    destruct (Py.truthy (Area_getId A)); [|done].
    destruct (link_category_ids a c (Category_link_area c a h)) as [-> ->].
    apply link_area_ids.
  - unfold Area_addCategory. destruct (heap_categories h !! c) as [C|]; [|done].
    destruct (Py.truthy (Category_getId C)); [|done].
    destruct (link_category_ids a c (Category_link_area c a h)) as [-> ->].
    apply link_area_ids.
Qed.

End wellformed.

(** X4. Whatever objects are constructed and in whatever way they are
    linked, empty and shared identifiers included: every entry of a link
    dictionary has a non-empty key and names an object whose identifier is
    that key, no dictionary holds a key twice, and linking changes no
    identifier. *)
Theorem link_dictionaries_wellformed (category_args area_args : list (option string))
    (ops : list LinkCall) :
  links_wellformed (run_calls ops (fresh_heap category_args area_args))
  /\ category_ids (run_calls ops (fresh_heap category_args area_args))
     = init_field <$> category_args
  /\ area_ids (run_calls ops (fresh_heap category_args area_args))
     = init_field <$> area_args.
Proof.
  unfold run_calls.
  apply (fold_left_invariant
           (fun h => links_wellformed h
                     /\ category_ids h = init_field <$> category_args
                     /\ area_ids h = init_field <$> area_args)).
  - intros h op (Hwf & Hc & Ha). destruct (run_call_ids h op) as [-> ->].
    split; [|done]. destruct op as [c a|a c]; simpl.
    + by apply addArea_wellformed.
    + by apply addCategory_wellformed.
  - split; [|split].
    + split.
      * intros c C HC. unfold fresh_heap in HC. simpl in HC.
        rewrite list_lookup_fmap in HC. destruct (category_args !! c); [|done].
        injection HC as <-. split; [constructor|].
        intros k r Hin. by apply elem_of_nil in Hin.
      * intros a A HA. unfold fresh_heap in HA. simpl in HA.
        rewrite list_lookup_fmap in HA. destruct (area_args !! a); [|done].
        injection HA as <-. split; [constructor|].
        intros k r Hin. by apply elem_of_nil in Hin.
    + unfold category_ids, fresh_heap. simpl. by rewrite <- list_fmap_compose.
    + unfold area_ids, fresh_heap. simpl. by rewrite <- list_fmap_compose.
Qed.

(** ** The alias lookup *)

Lemma re_sub_remove_hyphens s :
  re_sub_non_09az (Py.lower (Py.remove_hyphens s)) = re_sub_non_09az (Py.lower s).
Proof.
  induction s as [|c s IH]; simpl; [done|].
  destruct (Ascii.eqb_spec c "-"%char) as [->|Hc]; simpl; by rewrite IH.
Qed.

Lemma re_sub_lower_lower s :
  re_sub_non_09az (Py.lower (Py.lower s)) = re_sub_non_09az (Py.lower s).
Proof.
  induction s as [|c s IH]; simpl; [done|]. rewrite IH.
  assert (Py.lower_char (Py.lower_char c) = Py.lower_char c) as ->; [|done].
  destruct c as [[] [] [] [] [] [] [] []]; reflexivity.
Qed.

(** X5. The normal form of an identifier does not change when its hyphens
    are removed or its letters lower-cased beforehand. So the second lookup
    of the alias resolution, under the identifier without hyphens, finds
    nothing the first one did not: resolution is one lookup under the
    normal form, and identifiers with one normal form resolve alike. *)
Theorem alias_lookup_by_normal_form :
  (forall s, _normalise_identifier (Some (Py.remove_hyphens s))
             = _normalise_identifier (Some s))
  /\ (forall s, _normalise_identifier (Some (Py.lower s)) = _normalise_identifier (Some s))
  /\ (forall alias_map identifier,
        resolve_alias alias_map identifier
        = if Py.truthy_opt (od_get (_normalise_identifier (Some identifier)) alias_map)
          then od_get (_normalise_identifier (Some identifier)) alias_map
          else None)
  /\ (forall alias_map identifier identifier',
        _normalise_identifier (Some identifier) = _normalise_identifier (Some identifier') ->
        resolve_alias alias_map identifier = resolve_alias alias_map identifier').
Proof.
  assert (Hh : forall s, _normalise_identifier (Some (Py.remove_hyphens s))
                         = _normalise_identifier (Some s)).
  { intros s. rewrite !normalise_without_strip. apply re_sub_remove_hyphens. }
  assert (Hr : forall alias_map identifier,
            resolve_alias alias_map identifier
            = if Py.truthy_opt (od_get (_normalise_identifier (Some identifier)) alias_map)
              then od_get (_normalise_identifier (Some identifier)) alias_map
              else None).
  { intros alias_map identifier. unfold resolve_alias. cbv zeta. rewrite Hh.
    destruct (od_get (_normalise_identifier (Some identifier)) alias_map) as [v|];
      simpl; [|done].
    by destruct (Py.truthy v) eqn:Hv; simpl; rewrite Hv. }
  split; [done|]. split; [|split; [done|]].
  - intros s. rewrite !normalise_without_strip. apply re_sub_lower_lower.
  - intros alias_map identifier identifier' Heq. by rewrite !Hr, Heq.
Qed.

(** ** Handlers that raise *)

Lemma collect_frames_raise before h after call err :
  (forall h', h' ∈ before -> exists o, jh_call h' call = Ok o) ->
  jh_call h call = Raise err ->
  collect_frames (before ++ h :: after) call = Raise err.
Proof.
  induction before as [|h0 before IH]; intros Hok Hraise; simpl.
  - by rewrite Hraise.
  - destruct (Hok h0) as [o ->]; [apply elem_of_cons; by left|]. simpl.
    rewrite IH; [done| |done]. intros h' Hh'. apply Hok, elem_of_cons. by right.
Qed.

(** X6. The merge returns a table exactly when every registered handler
    answers the call without raising; and when handlers raise, the merge
    raises what the first of them in registration order raises, whatever
    the handlers after it do. *)
Theorem merge_raises_first_error :
  (forall e call,
     (exists merged, _collect_journal_frames e call = Ok merged)
     <-> forall h, h ∈ journalQuery e -> exists o, jh_call h call = Ok o)
  /\ (forall e call before h after err,
        journalQuery e = before ++ h :: after ->
        (forall h', h' ∈ before -> exists o, jh_call h' call = Ok o) ->
        jh_call h call = Raise err ->
        _collect_journal_frames e call = Raise err).
Proof.
  split.
  - intros e call. split.
    + intros [merged Hm] h Hh. unfold _collect_journal_frames in Hm.
      destruct (collect_frames (journalQuery e) call) as [frames|] eqn:Hframes; [|done].
      clear Hm. revert frames Hframes Hh.
      induction (journalQuery e) as [|h0 l IH]; intros frames Hframes Hh;
        [by apply elem_of_nil in Hh|].
      simpl in Hframes. destruct (jh_call h0 call) as [o|] eqn:Ho; [|done].
      simpl in Hframes.
      destruct (collect_frames l call) as [fs|] eqn:Hfs; [|done].
      apply elem_of_cons in Hh as [->|Hh]; [by exists o|]. by apply (IH fs).
    + intros Hok. destruct (collect_frames_answered _ call Hok) as (frames & Hframes & _).
      unfold _collect_journal_frames. rewrite Hframes. simpl. by eexists.
  - intros e call before h after err He Hok Hraise.
    unfold _collect_journal_frames. rewrite He.
    by rewrite (collect_frames_raise before h after call err Hok Hraise).
Qed.

(** ** What the in-memory store returns *)

Section store_facts.
Variable str_contains : string -> outcome (option string -> bool).

Lemma loc_sublist mask f : sublist (rows (loc mask f)) (rows f).
Proof.
  unfold loc. simpl. induction (rows f) as [|r rs IH]; simpl; [constructor|].
  destruct (mask r); [by apply sublist_skip|by apply sublist_cons].
Qed.

Lemma by_identifier_sublist repo identifier f :
  by_identifier repo identifier = Ok f ->
  sublist (rows f) (rows (store_frame repo)).
Proof.
  unfold by_identifier. destruct (Py.truthy_opt identifier); simpl;
    [|intros [= <-]; apply sublist_nil_l].
  set (scan := mbind _ (column "identifiers" (store_frame repo))).
  assert (Hscan : scan = Ok f -> sublist (rows f) (rows (store_frame repo))).
  { unfold scan. destruct (column "identifiers" (store_frame repo)); simpl; [|done].
    destruct (frame_empty _); intros [= <-]; [apply sublist_nil_l|apply loc_sublist]. }
  clearbody scan.
  match goal with
  | |- context [Py.truthy_opt (if ?b then ?x else ?y)] =>
      generalize (if b then x else y)
  end.
  intros target. destruct (Py.truthy_opt target); [|exact Hscan].
  destruct (column "id" (store_frame repo)); simpl; [|done].
  destruct (frame_empty _); [done|]. intros [= <-]. apply loc_sublist.
Qed.

End store_facts.

(** X7. A handler of the package never returns a row that is not in its
    store, and returns the rows it keeps in the order of the store; without
    a repository it returns the empty table with the columns of [COLUMNS].
    The APC and seal fetches keep exactly the rows whose cell is true, and
    raise [KeyError] exactly when the store has no such column. When the
    store keeps a table of [COLUMNS], as the stores of the package do, a
    fetch returns a table of [COLUMNS], or it is a fetch by a title or a
    publisher fragment that is not a regular expression and raises the
    error of that fragment, whatever the rows of the store. *)
Theorem store_fetches_select_rows (str_contains : string -> outcome (option string -> bool)) :
  (forall call,
     JournalQueryHandler_call str_contains (mkJournalQueryHandler None) call
     = Ok (Some (DataFrame_columns COLUMNS)))
  /\ (forall repo call f,
        JournalQueryHandler_call str_contains (mkJournalQueryHandler (Some repo)) call
        = Ok (Some f) ->
        sublist (rows f) (rows (store_frame repo)))
  /\ (forall repo,
        (with_apc repo = Raise (KeyError "apc") <-> "apc" ∉ columns (store_frame repo))
        /\ ("apc" ∈ columns (store_frame repo) ->
            exists f, with_apc repo = Ok f
              /\ columns f = columns (store_frame repo)
              /\ rows f = List.filter (fun r => bool_decide (row_apc r = Some true))
                                      (rows (store_frame repo))))
  /\ (forall repo,
        (with_doaj_seal repo = Raise (KeyError "doaj_seal")
         <-> "doaj_seal" ∉ columns (store_frame repo))
        /\ ("doaj_seal" ∈ columns (store_frame repo) ->
            exists f, with_doaj_seal repo = Ok f
              /\ columns f = columns (store_frame repo)
              /\ rows f = List.filter (fun r => bool_decide (row_doaj_seal r = Some true))
                                      (rows (store_frame repo))))
  /\ (forall repo call,
        table COLUMNS (store_frame repo) ->
        (exists f,
           JournalQueryHandler_call str_contains (mkJournalQueryHandler (Some repo)) call
           = Ok (Some f)
           /\ table COLUMNS f)
        \/ (exists part err,
              part <> ""
              /\ (call = call_getJournalsWithTitle (Some part)
                  \/ call = call_getJournalsPublishedBy (Some part))
              /\ str_contains part = Raise err
              /\ JournalQueryHandler_call str_contains (mkJournalQueryHandler (Some repo)) call
                 = Raise err)).
Proof.
  split; [done|]. split; [|split; [|split]].
  - intros repo call f. unfold JournalQueryHandler_call. simpl.
    destruct call as [identifier| |title_part|publisher_part|licenses| |]; simpl.
    + destruct (by_identifier repo identifier) as [f0|] eqn:Hf0; [|done]. simpl.
      intros [= <-]. by apply (by_identifier_sublist repo identifier).
    + by intros [= <-].
    + unfold by_title, store_all. destruct (negb _); simpl; [by intros [= <-]|].
      destruct (column "title" (store_frame repo)); simpl; [|done].
      destruct (str_contains _); simpl; [|done].
      intros [= <-]. apply loc_sublist.
    + unfold by_publisher, store_all. destruct (negb _); simpl; [by intros [= <-]|].
      destruct (column "publisher" (store_frame repo)); simpl; [|done].
      destruct (str_contains _); simpl; [|done].
      intros [= <-]. apply loc_sublist.
    + unfold by_license, store_all. destruct (negb _); simpl; [by intros [= <-]|].
      destruct (column "license" (store_frame repo)); simpl; [|done].
      intros [= <-]. apply loc_sublist.
    + unfold with_apc, store_all.
      destruct (column "apc" (store_frame repo)); simpl; [|done].
      intros [= <-]. apply loc_sublist.
    + unfold with_doaj_seal, store_all.
      destruct (column "doaj_seal" (store_frame repo)); simpl; [|done].
      intros [= <-]. apply loc_sublist.
  - intros repo. unfold with_apc, store_all, column. split.
    + case_bool_decide; simpl; [|done]. split; [done|]. by intros Hnot.
    + intros Hin. rewrite bool_decide_eq_true_2 by done. simpl. by eexists.
  - intros repo. unfold with_doaj_seal, store_all, column. split.
    + case_bool_decide; simpl; [|done]. split; [done|]. by intros Hnot.
    + intros Hin. rewrite bool_decide_eq_true_2 by done. simpl. by eexists.
  - intros repo call Htable.
    assert (Hcol : forall col, bool_decide (col ∈ COLUMNS) = true ->
              column col (store_frame repo) = Ok tt).
    { intros col Hcol. apply column_ok. rewrite (proj1 Htable).
      by apply (proj1 (bool_decide_eq_true _)). }
    assert (Hres : forall f,
              JournalQueryHandler_call str_contains (mkJournalQueryHandler (Some repo)) call
              = Ok (Some f) -> table COLUMNS f).
    { intros f. apply (package_call_table str_contains). by intros repo' [= <-]. }
    assert (Hok : forall o : outcome Frame,
              (exists f, o = Ok f) ->
              JournalQueryHandler_call str_contains (mkJournalQueryHandler (Some repo)) call
              = (o ≫= λ frame, Ok (Some frame)) ->
              exists f,
                JournalQueryHandler_call str_contains (mkJournalQueryHandler (Some repo)) call
                = Ok (Some f) /\ table COLUMNS f).
    { intros o [f ->] Hcall. exists f. split; [done|]. by apply Hres. }
    destruct call as [identifier| |title_part|publisher_part|licenses| |].
    + left. apply (Hok (by_identifier repo identifier)); [|done].
      unfold by_identifier. rewrite !(Hcol "id"), !(Hcol "identifiers") by reflexivity.
      simpl. destruct (negb _); simpl; [by eexists|].
      destruct (Py.truthy_opt _); simpl.
      * destruct (frame_empty _); simpl; [|by eexists].
        destruct (frame_empty _); simpl; by eexists.
      * destruct (frame_empty _); simpl; by eexists.
    + left. apply (Hok (Ok (store_all repo))); [by eexists|done].
    + destruct title_part as [part|]; [|left; apply (Hok (Ok (store_all repo)));
                                           [by eexists|done]].
      destruct (Py.truthy part) eqn:Hpart;
        [|left; apply (Hok (Ok (store_all repo))); [by eexists|];
          unfold JournalQueryHandler_call, by_title; simpl; by rewrite Hpart].
      destruct (str_contains part) as [found|err] eqn:Hfound.
      * left. apply (Hok (Ok (loc (fun r => found (row_title r)) (store_all repo))));
          [by eexists|].
        unfold JournalQueryHandler_call, by_title, store_all. simpl.
        by rewrite Hpart, (Hcol "title"), Hfound by reflexivity.
      * right. exists part, err. split; [by apply truthy_true|]. split; [by left|].
        split; [done|]. unfold JournalQueryHandler_call, by_title, store_all. simpl.
        by rewrite Hpart, (Hcol "title"), Hfound by reflexivity.
    + destruct publisher_part as [part|]; [|left; apply (Hok (Ok (store_all repo)));
                                               [by eexists|done]].
      destruct (Py.truthy part) eqn:Hpart;
        [|left; apply (Hok (Ok (store_all repo))); [by eexists|];
          unfold JournalQueryHandler_call, by_publisher; simpl; by rewrite Hpart].
      destruct (str_contains part) as [found|err] eqn:Hfound.
      * left. apply (Hok (Ok (loc (fun r => found (row_publisher r)) (store_all repo))));
          [by eexists|].
        unfold JournalQueryHandler_call, by_publisher, store_all. simpl.
        by rewrite Hpart, (Hcol "publisher"), Hfound by reflexivity.
      * right. exists part, err. split; [by apply truthy_true|]. split; [by right|].
        split; [done|]. unfold JournalQueryHandler_call, by_publisher, store_all. simpl.
        by rewrite Hpart, (Hcol "publisher"), Hfound by reflexivity.
    + left. apply (Hok (by_license repo licenses)); [|done].
      unfold by_license, store_all. rewrite (Hcol "license") by reflexivity.
      destruct (negb _); simpl; by eexists.
    + left. apply (Hok (with_apc repo)); [|done].
      unfold with_apc, store_all. rewrite (Hcol "apc") by reflexivity. simpl. by eexists.
    + left. apply (Hok (with_doaj_seal repo)); [|done].
      unfold with_doaj_seal, store_all. rewrite (Hcol "doaj_seal") by reflexivity.
      simpl. by eexists.
Qed.

(** ** The taxonomy filters *)

Lemma elem_of_areas_of h refs A :
  A ∈ areas_of h refs <-> exists a, a ∈ refs /\ heap_areas h !! a = Some A.
Proof. unfold areas_of. apply list_elem_of_omap. Qed.

Lemma elem_of_categories_of h refs C :
  C ∈ categories_of h refs <-> exists c, c ∈ refs /\ heap_categories h !! c = Some C.
Proof. unfold categories_of. apply list_elem_of_omap. Qed.

Lemma matches_area_ids target h refs :
  matches target (normalised_set (Area_getId <$> areas_of h refs)) = true
  <-> target = ∅
      \/ exists a A, a ∈ refs /\ heap_areas h !! a = Some A
           /\ _normalise_identifier (Some (Area_getId A)) ∈ target.
Proof.
  rewrite matches_spec. split; (intros [?|H]; [by left|right]).
  - destruct H as (x & Hx & Ht). apply elem_of_normalised_set in Hx as (y & Hy & ->).
    apply list_elem_of_fmap in Hy as (A & -> & HA).
    apply elem_of_areas_of in HA as (a & Ha & HA). by exists a, A.
  - destruct H as (a & A & Ha & HA & Ht).
    exists (_normalise_identifier (Some (Area_getId A))). split; [|done].
    apply elem_of_normalised_set. exists (Area_getId A). split; [|done].
    apply list_elem_of_fmap. exists A. split; [done|].
    apply elem_of_areas_of. by exists a.
Qed.

Lemma matches_category_ids target h refs :
  matches target (normalised_set (Category_getId <$> categories_of h refs)) = true
  <-> target = ∅
      \/ exists c C, c ∈ refs /\ heap_categories h !! c = Some C
           /\ _normalise_identifier (Some (Category_getId C)) ∈ target.
Proof.
  rewrite matches_spec. split; (intros [?|H]; [by left|right]).
  - destruct H as (x & Hx & Ht). apply elem_of_normalised_set in Hx as (y & Hy & ->).
    apply list_elem_of_fmap in Hy as (C & -> & HC).
    apply elem_of_categories_of in HC as (c & Hc & HC). by exists c, C.
  - destruct H as (c & C & Hc & HC & Ht).
    exists (_normalise_identifier (Some (Category_getId C))). split; [|done].
    apply elem_of_normalised_set. exists (Category_getId C). split; [|done].
    apply list_elem_of_fmap. exists C. split; [done|].
    apply elem_of_categories_of. by exists c.
Qed.

Lemma matches_quartiles target (C : Category) :
  matches target (category_quartile_norm C) = true
  <-> target = ∅
      \/ exists q, q ∈ Category_getQuartiles C /\ _normalise_identifier (Some q) ∈ target.
Proof.
  unfold category_quartile_norm. rewrite matches_spec.
  split; (intros [?|H]; [by left|right]).
  - destruct H as (x & Hx & Ht). apply elem_of_normalised_set in Hx as (q & Hq & ->).
    by exists q.
  - destruct H as (q & Hq & Ht). exists (_normalise_identifier (Some q)).
    split; [|done]. apply elem_of_normalised_set. by exists q.
Qed.

Lemma matches_quartiles_asked quartiles (C : Category) :
  matches (requested quartiles) (category_quartile_norm C) = true
  <-> asks_nothing quartiles
      \/ exists q, q ∈ Category_getQuartiles C
           /\ asked quartiles (_normalise_identifier (Some q)).
Proof.
  rewrite matches_quartiles, requested_empty.
  split; (intros [?|(q & Hq & H)]; [by left|right; exists q]); (split; [done|]);
    by apply elem_of_requested.
Qed.

Lemma matches_area_ids_asked areas h refs :
  matches (requested areas) (normalised_set (Area_getId <$> areas_of h refs)) = true
  <-> asks_nothing areas
      \/ exists a A, a ∈ refs /\ heap_areas h !! a = Some A
           /\ asked areas (_normalise_identifier (Some (Area_getId A))).
Proof.
  rewrite matches_area_ids, requested_empty.
  split; (intros [?|(a & A & Ha & HA & H)]; [by left|right; exists a, A]);
    (split; [done|split; [done|]]); by apply elem_of_requested.
Qed.

Lemma matches_category_ids_asked categories h refs :
  matches (requested categories)
          (normalised_set (Category_getId <$> categories_of h refs)) = true
  <-> asks_nothing categories
      \/ exists c C, c ∈ refs /\ heap_categories h !! c = Some C
           /\ asked categories (_normalise_identifier (Some (Category_getId C))).
Proof.
  rewrite matches_category_ids, requested_empty.
  split; (intros [?|(c & C & Hc & HC & H)]; [by left|right; exists c, C]);
    (split; [done|split; [done|]]); by apply elem_of_requested.
Qed.

(** X8. The three taxonomy filters work in the heap of [getAllCategories]
    and [getAllAreas] and return some of their nodes, in their order: a
    category passes the quartile filter when one of its quartiles has the
    normal form of a non-empty string of the request, and the area filter
    when one of its areas has such a normal identifier; an area passes the
    category filter when one of its categories has one; and every node
    passes a request without a non-empty string. On the taxonomy of the
    four journals a request in another spelling selects the one category,
    the one area, that it names. *)
Theorem taxonomy_filters_spec (e : BasicQueryEngine) :
  (forall quartiles,
     (getCategoriesWithQuartile e quartiles).1 = (getAllCategories e).1
     /\ sublist (getCategoriesWithQuartile e quartiles).2 (getAllCategories e).2
     /\ forall c,
          c ∈ (getCategoriesWithQuartile e quartiles).2
          <-> c ∈ (getAllCategories e).2
              /\ exists C, heap_categories (getAllCategories e).1 !! c = Some C
                   /\ (asks_nothing quartiles
                       \/ exists q, q ∈ Category_getQuartiles C
                            /\ asked quartiles (_normalise_identifier (Some q))))
  /\ (forall areas,
        (getCategoriesAssignedToAreas e areas).1 = (getAllCategories e).1
        /\ sublist (getCategoriesAssignedToAreas e areas).2 (getAllCategories e).2
        /\ (asks_nothing areas ->
            getCategoriesAssignedToAreas e areas = getAllCategories e)
        /\ forall c,
             c ∈ (getCategoriesAssignedToAreas e areas).2
             <-> c ∈ (getAllCategories e).2
                 /\ exists C, heap_categories (getAllCategories e).1 !! c = Some C
                      /\ (asks_nothing areas
                          \/ exists a A, a ∈ Category_getAreas C
                               /\ heap_areas (getAllCategories e).1 !! a = Some A
                               /\ asked areas
                                    (_normalise_identifier (Some (Area_getId A)))))
  /\ (forall categories,
        (getAreasAssignedToCategories e categories).1 = (getAllAreas e).1
        /\ sublist (getAreasAssignedToCategories e categories).2 (getAllAreas e).2
        /\ (asks_nothing categories ->
            getAreasAssignedToCategories e categories = getAllAreas e)
        /\ forall a,
             a ∈ (getAreasAssignedToCategories e categories).2
             <-> a ∈ (getAllAreas e).2
                 /\ exists A, heap_areas (getAllAreas e).1 !! a = Some A
                      /\ (asks_nothing categories
                          \/ exists c C, c ∈ Area_getCategories A
                               /\ heap_categories (getAllAreas e).1 !! c = Some C
                               /\ asked categories
                                    (_normalise_identifier (Some (Category_getId C)))))
  /\ (getCategoriesWithQuartile choice_engine (Some ["q 2"])).2 = [1]
  /\ (getCategoriesAssignedToAreas choice_engine (Some [""; "BIO"])).2 = [0]
  /\ (getAreasAssignedToCategories choice_engine (Some ["c-2"])).2 = [1]
  /\ (getCategoriesWithQuartile choice_engine (Some ["Q4"])).2 = [].
Proof.
  destruct (taxonomy_refs_valid_built (_collect_category_exports e)) as [Hvc Hva].
  split; [|split; [|split;
    [|split; [by vm_compute|split; [by vm_compute|split; by vm_compute]]]]].
  - intros quartiles. unfold getCategoriesWithQuartile, getAllCategories, _build_taxonomy.
    simpl. split; [done|]. split; [apply filter_sublist|].
    intros c. rewrite elem_of_filter. split; intros [Hc H]; (split; [done|]).
    + destruct (heap_categories _ !! c) as [C|]; [|done].
      exists C. split; [done|]. by apply matches_quartiles_asked.
    + destruct H as (C & -> & H). by apply matches_quartiles_asked.
  - intros areas. unfold getCategoriesAssignedToAreas, getAllCategories, _build_taxonomy.
    simpl. split; [done|]. split; [apply filter_sublist|]. split.
    + intros Hreq. apply requested_empty in Hreq. f_equal. apply filter_all_true.
      rewrite Hreq.
      eapply Forall_impl; [exact Hvc|]. intros c Hlt. simpl in Hlt.
      destruct (lookup_lt_is_Some_2 _ _ Hlt) as [C ->]. apply matches_empty.
    + intros c. rewrite elem_of_filter. split; intros [Hc H]; (split; [done|]).
      * destruct (heap_categories _ !! c) as [C|]; [|done].
        exists C. split; [done|]. by apply matches_area_ids_asked.
      * destruct H as (C & -> & H). by apply matches_area_ids_asked.
  - intros categories. unfold getAreasAssignedToCategories, getAllAreas, _build_taxonomy.
    simpl. split; [done|]. split; [apply filter_sublist|]. split.
    + intros Hreq. apply requested_empty in Hreq. f_equal. apply filter_all_true.
      rewrite Hreq.
      eapply Forall_impl; [exact Hva|]. intros a Hlt. simpl in Hlt.
      destruct (lookup_lt_is_Some_2 _ _ Hlt) as [A ->]. apply matches_empty.
    + intros a. rewrite elem_of_filter. split; intros [Ha H]; (split; [done|]).
      * destruct (heap_areas _ !! a) as [A|]; [|done].
        exists A. split; [done|]. by apply matches_category_ids_asked.
      * destruct H as (A & -> & H). by apply matches_category_ids_asked.
Qed.

(** ** Hydrated journals *)

Section hydrated.
Variable e : BasicQueryEngine.

Lemma build_objects_no_rows frame :
  rows frame = [] -> journals_of_values e frame = (empty_heap, []).
Proof. intros H. unfold journals_of_values, frame_empty. by rewrite H. Qed.

Lemma build_objects_rows frame :
  rows frame <> [] -> columns frame <> [] ->
  journals_of_values e frame
  = (tx_heap (_build_taxonomy e).1,
     hydrate_values (_build_taxonomy e).1 (_build_taxonomy e).2 <$> rows frame).
Proof.
  intros Hr Hc. unfold journals_of_values, frame_empty.
  destruct (rows frame); [done|]. by destruct (columns frame).
Qed.

(** The journals of a table with columns are the hydrated rows. *)
Lemma build_objects_elem frame j :
  columns frame <> [] ->
  j ∈ (journals_of_values e frame).2
  <-> exists record, record ∈ rows frame
        /\ j = hydrate_values (_build_taxonomy e).1 (_build_taxonomy e).2 record.
Proof.
  intros Hc. destruct (rows frame) as [|r rs] eqn:Hr.
  - rewrite build_objects_no_rows by done. simpl. split.
    + intros H. by apply elem_of_nil in H.
    + intros (record & H & _). by apply elem_of_nil in H.
  - rewrite build_objects_rows by (done || by rewrite Hr). simpl.
    rewrite Hr, list_elem_of_fmap. split; intros (record & H1 & H2); by exists record.
Qed.

(** When journals come out, their heap is that of the taxonomy. *)
Lemma build_objects_heap frame j :
  j ∈ (journals_of_values e frame).2 ->
  (journals_of_values e frame).1 = tx_heap (_build_taxonomy e).1.
Proof.
  unfold journals_of_values. destruct (frame_empty frame); simpl; [|done].
  intros H. by apply elem_of_nil in H.
Qed.

End hydrated.

Lemma addCategory_fields h c j :
  journal_fields (Journal_addCategory h c j) = journal_fields j.
Proof.
  unfold Journal_addCategory. destruct (heap_categories h !! c) as [C|]; [|done].
  by destruct (Py.truthy (Category_getId C)).
Qed.

Lemma addArea_fields h a j : journal_fields (Journal_addArea h a j) = journal_fields j.
Proof.
  unfold Journal_addArea. destruct (heap_areas h !! a) as [A|]; [|done].
  by destruct (Py.truthy (Area_getId A)).
Qed.

Lemma attach_identifier_fields t exports j identifier :
  journal_fields (attach_identifier t exports j identifier) = journal_fields j.
Proof.
  unfold attach_identifier.
  destruct (resolve_alias (exp_journal_alias exports) identifier) as [canonical|];
    [|done].
  unfold attach_areas, attach_categories.
  apply (fold_left_invariant (fun j' => journal_fields j' = journal_fields j)).
  - intros j' area_id H. unfold attach_area. destruct (od_get area_id (area_map t)); [|done].
    by rewrite addArea_fields.
  - apply (fold_left_invariant (fun j' => journal_fields j' = journal_fields j)); [|done].
    intros j' category_id H. unfold attach_category.
    destruct (od_get category_id (category_map t)); [|done].
    by rewrite addCategory_fields.
Qed.

(** The loop over the identifiers leaves the fields of the row alone. *)
Lemma hydrate_row_fields t exports record :
  journal_fields (hydrate_values t exports record)
  = journal_fields
      (Journal_init (row_id record) (row_title record) (row_print_issn record)
         (row_electronic_issn record) (row_publisher record)
         (row_languages record) (row_license record)
         (bool_of (row_apc record)) (bool_of (row_doaj_seal record))).
Proof.
  unfold hydrate_values.
  apply (fold_left_invariant (fun j' => journal_fields j' = journal_fields _)); [|done].
  intros j' identifier H. by rewrite attach_identifier_fields.
Qed.

Lemma init_field_trimmed x : Py.strip (init_field x) = init_field x.
Proof. apply strip_idempotent. Qed.

(** X9. The body of the hydration loop on a row of a table. It raises
    [TypeError] exactly when the cell of the languages is NaN, or no text
    is NaN and the cell of the identifiers is; it raises [AttributeError]
    exactly when the languages are not NaN and one of the six texts is;
    and otherwise it returns a journal, whatever the taxonomy: its
    identifier, title, ISSNs, publisher and license are the trimmed cells
    that the loop reads from the row, empty where the table has no such
    column, its name is its title, its languages are the trimmed non-blank
    languages read, and [hasAPC] and [hasDOAJSeal] are the truth values of
    the cells, true for NaN. So a source with fewer columns than another
    makes [getAllJournals] raise: [TypeError] beside a source with all
    columns when it has no languages, [AttributeError] when it lacks the
    titles only. *)
Theorem hydration_copies_row (cols : list string) (t : Taxonomy) (exports : Export)
    (record : Row) :
  (hydrate_row cols t exports record = Raise TypeError
   <-> is_nan cols record "languages" = true
       \/ (existsb (is_nan cols record) TEXT_COLUMNS = false
           /\ is_nan cols record "identifiers" = true))
  /\ (hydrate_row cols t exports record = Raise AttributeError
      <-> is_nan cols record "languages" = false
          /\ existsb (is_nan cols record) TEXT_COLUMNS = true)
  /\ ((exists j, hydrate_row cols t exports record = Ok j)
      <-> is_nan cols record "languages" = false
          /\ existsb (is_nan cols record) TEXT_COLUMNS = false
          /\ is_nan cols record "identifiers" = false)
  /\ (forall j, hydrate_row cols t exports record = Ok j ->
        Journal_getId j = Py.strip (Py.or_empty (row_id (read_row cols record)))
        /\ j_title j = Py.strip (Py.or_empty (row_title (read_row cols record)))
        /\ j_name j = j_title j
        /\ j_print_issn j = Py.strip (Py.or_empty (row_print_issn (read_row cols record)))
        /\ j_electronic_issn j
           = Py.strip (Py.or_empty (row_electronic_issn (read_row cols record)))
        /\ j_publisher j = Py.strip (Py.or_empty (row_publisher (read_row cols record)))
        /\ j_license j = Py.strip (Py.or_empty (row_license (read_row cols record)))
        /\ (forall lang, lang ∈ j_languages j
              <-> lang <> ""
                  /\ exists l, l ∈ row_languages (read_row cols record) /\ Py.strip l = lang)
        /\ j_has_apc j = default false (row_apc (read_row cols record))
        /\ j_has_doaj_seal j = default false (row_doaj_seal (read_row cols record))
        /\ (is_nan cols record "apc" = true -> j_has_apc j = true)
        /\ (is_nan cols record "doaj_seal" = true -> j_has_doaj_seal j = true)
        /\ ("title" ∉ cols -> j_title j = ""))
  /\ getAllJournals (short_engine true) = Raise TypeError
  /\ getAllJournals untitled_engine = Raise AttributeError.
Proof.
  rewrite hydrate_row_eq.
  split; [|split; [|split; [|split; [|split; [by vm_compute|by vm_compute]]]]].
  - destruct (is_nan cols record "languages"); [split; [by left|done]|].
    destruct (existsb (is_nan cols record) TEXT_COLUMNS);
      [split; [done|by intros [?|[? _]]]|].
    destruct (is_nan cols record "identifiers"); [split; [by right|done]|].
    split; [done|]. by intros [?|[_ ?]].
  - destruct (is_nan cols record "languages"); [split; [done|by intros [? _]]|].
    destruct (existsb (is_nan cols record) TEXT_COLUMNS); [done|].
    destruct (is_nan cols record "identifiers"); split; try done; by intros [_ ?].
  - destruct (is_nan cols record "languages");
      [split; [by intros [? ?]|by intros [? _]]|].
    destruct (existsb (is_nan cols record) TEXT_COLUMNS);
      [split; [by intros [? ?]|by intros (_ & ? & _)]|].
    destruct (is_nan cols record "identifiers");
      [split; [by intros [? ?]|by intros (_ & _ & ?)]|].
    split; [done|]. intros _. by eexists.
  - intros j Hj.
    destruct (is_nan cols record "languages"); [done|].
    destruct (existsb (is_nan cols record) TEXT_COLUMNS); [done|].
    destruct (is_nan cols record "identifiers"); [done|].
    injection Hj as <-.
    pose proof (hydrate_row_fields t exports (read_row cols record)) as Hf.
    unfold journal_fields in Hf. simpl in Hf.
    injection Hf as Hid Hname Htitle Hp He Hpub Hlang Hlic Hapc Hseal.
    unfold Journal_getId.
    rewrite Hid, Hname, Htitle, Hp, He, Hpub, Hlang, Hlic, Hapc, Hseal.
    do 7 (split; [done|]). split; [|split; [done|split; [done|split; [|split]]]].
    + intros lang. split.
      * intros Hl. apply list_elem_of_fmap in Hl as (l & -> & Hl).
        apply elem_of_filter in Hl as [Hl Ht]. apply andb_true_iff in Ht as [_ Ht].
        split; [by apply truthy_true in Ht|]. by exists l.
      * intros (Hne & l & Hl & <-). apply list_elem_of_fmap. exists l. split; [done|].
        apply elem_of_filter. split; [done|]. apply andb_true_iff. split.
        -- apply truthy_true. intros ->. by rewrite strip_empty in Hne.
        -- by apply truthy_true.
    + unfold is_nan. by destruct (cell_of cols record "apc").
    + unfold is_nan. by destruct (cell_of cols record "doaj_seal").
    + intros Hno. unfold cell_of. by rewrite bool_decide_eq_false_2.
Qed.

(** ** The compound queries *)

Lemma merged_rows_or_columns e call df :
  _collect_journal_frames e call = Ok df ->
  columns df <> [] /\ (frame_empty df = true <-> rows df = []).
Proof.
  intros Hdf. pose proof (merged_columns e call df Hdf) as Hc. split; [done|].
  unfold frame_empty. destruct (rows df); [done|]. by destruct (columns df).
Qed.

Lemma license_mask_spec license_norm record :
  license_norm <> ∅ ->
  license_mask license_norm record = true <-> license_in_set license_norm record.
Proof.
  intros Hne. unfold license_mask, license_in_set.
  destruct (row_license record) as [value|].
  - rewrite bool_decide_eq_true. split.
    + intros H. right. by exists value.
    + intros [?|(v & [= <-] & H)]; done.
  - split; [done|]. by intros [?|(v & ? & _)].
Qed.

Lemma license_requested_set licenses record :
  license_in_set (requested licenses) record <-> license_requested licenses record.
Proof.
  unfold license_in_set, license_requested. rewrite requested_empty.
  split; (intros [?|(value & Hv & Hin)]; [by left|right; exists value]);
    (split; [done|]); by apply elem_of_requested.
Qed.

(** A table whose rows are made with its columns is hydrated. *)
Lemma build_objects_made cols e df :
  (forall r, r ∈ rows df -> row_columns r = cols) ->
  columns df = cols \/ rows df = [] ->
  exists result, _build_journal_objects e df = Ok result.
Proof.
  intros Hmade Hcase. unfold _build_journal_objects.
  destruct (frame_empty df) eqn:Hempty; [by eexists|].
  destruct Hcase as [Hc|Hr].
  - destruct (_build_taxonomy e) as [t exports]. rewrite Hc.
    rewrite (hydrate_rows_made cols) by done. by eexists.
  - unfold frame_empty in Hempty. by rewrite Hr in Hempty.
Qed.

(** The tables of one constant handler. *)
Lemma constant_answers_tables cols ident f handlers call :
  table cols f ->
  answers_tables cols (mkEngine [constant_handler ident f] handlers) call.
Proof.
  intros Htable h f' Hh Hcall. apply list_elem_of_singleton in Hh as ->.
  by injection Hcall as <-.
Qed.

Lemma choice_frame_table : table COLUMNS choice_frame.
Proof.
  split; [reflexivity|]. intros r Hr. unfold choice_frame in Hr. cbn [rows] in Hr.
  repeat (apply elem_of_cons in Hr as [-> |Hr]; [reflexivity|]).
  by apply elem_of_nil in Hr.
Qed.

Lemma license_frame_table : table COLUMNS license_frame.
Proof.
  split; [reflexivity|]. intros r Hr. unfold license_frame in Hr. cbn [rows] in Hr.
  repeat (apply elem_of_cons in Hr as [-> |Hr]; [reflexivity|]).
  by apply elem_of_nil in Hr.
Qed.

(** X10. When every journal handler answers with a table of [COLUMNS],
    [getJournalsInCategoriesWithQuartile] returns, and returns exactly the
    journals of the rows of the merged table that have a category passing
    both tests: the normal form of its identifier is that of a non-empty
    string of the categories asked for, and one of its quartiles has the
    normal form of a non-empty string of the quartiles asked for, each test
    being void when its request has no non-empty string. A journal without
    category is never returned, not even when nothing is asked for. Among
    the four journals the requests choose by category and by quartile, in
    whatever spelling, charges or not; and when one handler has a table of
    fewer columns, the query raises [TypeError]. *)
Theorem journals_in_categories_spec :
  (forall e categories quartiles df,
     answers_tables COLUMNS e call_getAllJournals ->
     _journal_dataframe e = Ok df ->
     exists h journals,
       getJournalsInCategoriesWithQuartile e categories quartiles = Ok (h, journals)
       /\ (forall j,
             j ∈ journals
             <-> (exists record,
                    record ∈ rows df
                    /\ j = hydrate_values (_build_taxonomy e).1 (_build_taxonomy e).2 record)
                 /\ category_requested h categories quartiles j)
       /\ (forall j, j ∈ journals -> Journal_getCategories j <> []))
  /\ (forall categories quartiles ids,
        (categories, quartiles, ids)
        ∈ [(None, None, ["A"; "B"; "C"]);
           (Some [""], Some [], ["A"; "B"; "C"]);
           (Some ["C1"], None, ["A"; "B"]);
           (Some [" c-1 "], Some ["q 1"], ["A"; "B"]);
           (None, Some ["Q2"], ["C"]);
           (Some ["C1"; "C2"], Some ["Q2"; "Q3"], ["C"]);
           (Some ["C1"], Some ["Q2"], []);
           (Some ["C3"], None, [])] ->
        exists h journals,
          getJournalsInCategoriesWithQuartile choice_engine categories quartiles
          = Ok (h, journals)
          /\ Journal_getId <$> journals = ids)
  /\ getJournalsInCategoriesWithQuartile mixed_engine None None = Raise TypeError.
Proof.
  split; [|split].
  - intros e categories quartiles df Htab Hdf.
    pose proof (merged_table_COLUMNS e call_getAllJournals df Htab Hdf) as Htable.
    assert (Hc : columns df <> []) by (by rewrite (proj1 Htable)).
    unfold getJournalsInCategoriesWithQuartile. rewrite Hdf. simpl.
    rewrite build_objects_COLUMNS by done.
    pose proof (build_objects_elem e df) as Hel.
    destruct (journals_of_values e df) as [h journals]. simpl in Hel. simpl.
    eexists h, _. split; [reflexivity|]. split.
    + intros j.
      rewrite elem_of_filter, category_test_spec, Hel, category_requested_sets by done.
      tauto.
    + intros j Hj. apply elem_of_filter in Hj as [_ Hj].
      apply category_test_spec in Hj as (c & C & Hc' & _). intros Hnil.
      rewrite Hnil in Hc'. by apply elem_of_nil in Hc'.
  - intros categories quartiles ids Hin.
    repeat (apply elem_of_cons in Hin as [[= -> -> ->]|Hin];
            [eexists _, _; split; [vm_compute; reflexivity|reflexivity]|]).
    by apply elem_of_nil in Hin.
  - vm_compute. reflexivity.
Qed.

(** The general part of the theorem at the four journals, asked for the
    category C1 and the quartile Q1. *)
Lemma journals_in_categories_spec_witness :
  exists h journals,
    getJournalsInCategoriesWithQuartile choice_engine (Some ["C1"]) (Some ["Q1"])
    = Ok (h, journals)
    /\ (forall j,
          j ∈ journals
          <-> (exists record,
                 record ∈ rows choice_frame
                 /\ j = hydrate_values (_build_taxonomy choice_engine).1
                          (_build_taxonomy choice_engine).2 record)
              /\ category_requested h (Some ["C1"]) (Some ["Q1"]) j)
    /\ (forall j, j ∈ journals -> Journal_getCategories j <> []).
Proof.
  apply (proj1 journals_in_categories_spec choice_engine (Some ["C1"]) (Some ["Q1"])
           choice_frame).
  - apply constant_answers_tables, choice_frame_table.
  - reflexivity.
Defined.

(** X11. When every journal handler answers with a table of [COLUMNS],
    [getJournalsInAreasWithLicense] returns, and returns exactly the
    journals of the rows of the merged table that pass the license filter
    and whose areas pass the area test: the license cell is a string whose
    normal form is that of a non-empty string of the licenses asked for,
    and an area of the journal has the normal form of a non-empty string
    of the areas asked for, each test being void when its request has no
    non-empty string. A row without license passes only when no license is
    asked for. Among four journals, three of them with a license, the
    requests choose by license and by area, in whatever spelling; and when
    one handler has a table of fewer columns, the query raises
    [TypeError]. *)
Theorem journals_in_areas_with_license_spec :
  (forall e areas licenses df,
     answers_tables COLUMNS e call_getAllJournals ->
     _journal_dataframe e = Ok df ->
     exists h journals,
       getJournalsInAreasWithLicense e areas licenses = Ok (h, journals)
       /\ forall j,
            j ∈ journals
            <-> (exists record,
                   record ∈ rows df
                   /\ license_requested licenses record
                   /\ j = hydrate_values (_build_taxonomy e).1 (_build_taxonomy e).2 record)
                /\ area_requested h areas j)
  /\ (forall areas licenses ids,
        (areas, licenses, ids)
        ∈ [(None, None, ["A"; "B"; "C"; "D"]);
           (Some [""], Some [], ["A"; "B"; "C"; "D"]);
           (None, Some ["CC BY"], ["A"; "C"]);
           (None, Some ["cc_by"; "MIT"], ["A"; "C"]);
           (None, Some ["CC0"; "CC BY"], ["A"; "B"; "C"]);
           (Some ["bio"], None, ["A"; "B"]);
           (Some [" BIO"], Some ["cc-by"], ["A"]);
           (Some ["chem"], Some ["cc by"], ["C"]);
           (Some ["chem"], Some ["CC0"], []);
           (None, Some ["MIT"], [])] ->
        exists h journals,
          getJournalsInAreasWithLicense license_engine areas licenses = Ok (h, journals)
          /\ Journal_getId <$> journals = ids)
  /\ getJournalsInAreasWithLicense mixed_engine None None = Raise TypeError.
Proof.
  split; [|split].
  - intros e areas licenses df Htab Hdf.
    pose proof (merged_table_COLUMNS e call_getAllJournals df Htab Hdf) as Htable.
    assert (Hc : columns df <> []) by (by rewrite (proj1 Htable)).
    unfold getJournalsInAreasWithLicense. rewrite Hdf. simpl.
    unfold _select_journals_by_license.
    destruct (frame_empty df || negb (nonempty (requested licenses))) eqn:Hcase; simpl.
    + rewrite build_objects_COLUMNS by done.
      pose proof (build_objects_elem e df) as Hel.
      destruct (journals_of_values e df) as [h journals]. simpl in Hel. simpl.
      eexists h, _. split; [reflexivity|].
      intros j. rewrite elem_of_filter, area_test_spec, Hel, area_requested_set by done.
      split; (intros [(record & Hr & Hj) Ha]; split; [|done]; exists record).
      * split; [done|]. split; [|done]. apply license_requested_set.
        apply orb_true_iff in Hcase as [Hempty|Hnone].
        -- exfalso. unfold frame_empty in Hempty.
           destruct (rows df); [by apply elem_of_nil in Hr|]. by destruct (columns df).
        -- left. apply nonempty_false. by destruct (nonempty (requested licenses)).
      * by destruct Hj as [_ ->].
    + apply orb_false_iff in Hcase as [_ Hreq]. apply negb_false_iff in Hreq.
      assert (Hne : requested licenses <> ∅).
      { intros Heq. apply nonempty_false in Heq. congruence. }
      rewrite column_ok
        by (rewrite (proj1 Htable); apply (proj1 (bool_decide_eq_true _)); reflexivity).
      simpl. rewrite build_objects_COLUMNS by (by apply table_loc).
      pose proof (build_objects_elem e (loc (license_mask (requested licenses)) df)) as Hel.
      destruct (journals_of_values e _) as [h journals]. simpl in Hel. simpl.
      eexists h, _. split; [reflexivity|].
      intros j. rewrite elem_of_filter, area_test_spec, Hel, area_requested_set by done.
      split; (intros [(record & Hr & Hj) Ha]; split; [|done]; exists record).
      * apply elem_of_filter in Hr as [Hr Hm]. split; [done|]. split; [|done].
        by apply license_requested_set, license_mask_spec.
      * destruct Hj as [Hm ->]. split; [|done]. apply elem_of_filter.
        split; [done|]. by apply license_mask_spec, license_requested_set.
  - intros areas licenses ids Hin.
    repeat (apply elem_of_cons in Hin as [[= -> -> ->]|Hin];
            [eexists _, _; split; [vm_compute; reflexivity|reflexivity]|]).
    by apply elem_of_nil in Hin.
  - vm_compute. reflexivity.
Qed.

(** The general part of the theorem at the four journals with licenses,
    asked for the area bio and the license CC BY. *)
Lemma journals_in_areas_with_license_spec_witness :
  exists h journals,
    getJournalsInAreasWithLicense license_engine (Some ["bio"]) (Some ["CC-BY"])
    = Ok (h, journals)
    /\ forall j,
         j ∈ journals
         <-> (exists record,
                record ∈ rows license_frame
                /\ license_requested (Some ["CC-BY"]) record
                /\ j = hydrate_values (_build_taxonomy license_engine).1
                         (_build_taxonomy license_engine).2 record)
             /\ area_requested h (Some ["bio"]) j.
Proof.
  apply (proj1 journals_in_areas_with_license_spec license_engine (Some ["bio"])
           (Some ["CC-BY"]) license_frame).
  - apply constant_answers_tables, license_frame_table.
  - reflexivity.
Defined.

(** X12. When every journal handler answers with a table of [COLUMNS],
    whatever the diamond query returns is free of charges, and is returned
    as well by the category-and-quartile query for the same categories and
    quartiles and by the area-and-license query for the same areas and no
    license. When one handler has a table of fewer columns this fails: the
    diamond query, which drops the rows with charges before it makes
    journals, returns two journals where the two other queries raise
    [TypeError] at the row with charges. *)
Theorem diamond_journals_contained :
  (forall e areas categories quartiles h journals,
     answers_tables COLUMNS e call_getAllJournals ->
     getDiamondJournalsInAreasAndCategoriesWithQuartile e areas categories quartiles
     = Ok (h, journals) ->
     (forall j, j ∈ journals -> j_has_apc j = false)
     /\ (exists h1 journals1,
           getJournalsInCategoriesWithQuartile e categories quartiles = Ok (h1, journals1)
           /\ forall j, j ∈ journals -> j ∈ journals1)
     /\ (exists h2 journals2,
           getJournalsInAreasWithLicense e areas None = Ok (h2, journals2)
           /\ forall j, j ∈ journals -> j ∈ journals2))
  /\ (exists h journals,
        getDiamondJournalsInAreasAndCategoriesWithQuartile mixed_engine None None None
        = Ok (h, journals)
        /\ Journal_getId <$> journals = ["A"; "C"]
        /\ getJournalsInCategoriesWithQuartile mixed_engine None None = Raise TypeError
        /\ getJournalsInAreasWithLicense mixed_engine None None = Raise TypeError).
Proof.
  split.
  2:{ eexists _, _. split; [vm_compute; reflexivity|].
      split; [reflexivity|]. split; vm_compute; reflexivity. }
  intros e areas categories quartiles h journals Htab.
  unfold getDiamondJournalsInAreasAndCategoriesWithQuartile,
    getJournalsInCategoriesWithQuartile, getJournalsInAreasWithLicense.
  destruct (_journal_dataframe e) as [df|] eqn:Hdf; simpl; [|done].
  pose proof (merged_table_COLUMNS e call_getAllJournals df Htab Hdf) as Htable.
  assert (Hc : columns df <> []) by (by rewrite (proj1 Htable)).
  destruct (column "apc" df); simpl; [|done].
  set (df' := loc (fun r => bool_decide (row_apc r = Some false)) df).
  rewrite (build_objects_COLUMNS e df') by (by apply table_loc).
  rewrite (build_objects_COLUMNS e df) by done.
  pose proof (build_objects_elem e df') as Hel'.
  pose proof (build_objects_heap e df') as Hheap'.
  destruct (journals_of_values e df') as [h' journals']. cbn [fst snd] in Hel', Hheap'.
  simpl. intros [= <- <-].
  assert (Hin : forall j,
            j ∈ List.filter
                  (fun journal =>
                     if nonempty (requested areas)
                        && negb (nonempty (journal_area_norm h' journal ∩ requested areas))
                     then false
                     else existsb (category_ok (requested categories) (requested quartiles))
                                  (categories_of h' (Journal_getCategories journal)))
                  journals' ->
            h' = tx_heap (_build_taxonomy e).1
            /\ area_in_set h' (requested areas) j
            /\ category_in_sets h' (requested categories) (requested quartiles) j
            /\ exists record, record ∈ rows df /\ row_apc record = Some false
                 /\ j = hydrate_values (_build_taxonomy e).1 (_build_taxonomy e).2 record).
  { intros j Hj. apply elem_of_filter in Hj as [Hj Htest].
    apply diamond_test_spec in Htest as [Ha Hcat].
    split; [by apply (Hheap' j)|]. split; [done|]. split; [done|].
    apply Hel' in Hj as (record & Hr & ->); [|done].
    apply elem_of_filter in Hr as [Hr Hapc]. apply bool_decide_eq_true in Hapc.
    by exists record. }
  split; [|split].
  - intros j Hj. destruct (Hin j Hj) as (_ & _ & _ & record & _ & Hapc & ->).
    pose proof (hydrate_row_fields (_build_taxonomy e).1 (_build_taxonomy e).2 record) as Hf.
    unfold journal_fields in Hf. simpl in Hf.
    injection Hf as _ _ _ _ _ _ _ _ Hfa _. simpl. by rewrite Hfa, Hapc.
  - pose proof (build_objects_elem e df) as Hel.
    pose proof (build_objects_heap e df) as Hheap.
    destruct (journals_of_values e df) as [h1 journals1]. cbn [fst snd] in Hel, Hheap.
    eexists h1, _. split; [reflexivity|].
    intros j Hj. destruct (Hin j Hj) as (Hh' & _ & Hcat & record & Hr & _ & Hjr).
    assert (Hj1 : j ∈ journals1) by (apply Hel; [done|by exists record]).
    apply elem_of_filter. split; [done|]. apply category_test_spec.
    by rewrite (Hheap j Hj1), <- Hh'.
  - unfold _select_journals_by_license.
    assert (nonempty (requested None) = false) as -> by reflexivity.
    rewrite orb_true_r. simpl. rewrite (build_objects_COLUMNS e df) by done.
    pose proof (build_objects_elem e df) as Hel.
    pose proof (build_objects_heap e df) as Hheap.
    destruct (journals_of_values e df) as [h2 journals2]. cbn [fst snd] in Hel, Hheap.
    eexists h2, _. split; [reflexivity|].
    intros j Hj. destruct (Hin j Hj) as (Hh' & Ha & _ & record & Hr & _ & Hjr).
    assert (Hj2 : j ∈ journals2) by (apply Hel; [done|by exists record]).
    apply elem_of_filter. split; [done|]. apply area_test_spec.
    by rewrite (Hheap j Hj2), <- Hh'.
Qed.

(** The general part of the theorem at the four journals, asked for the
    area bio, the category C1 and the quartile Q1: the journal A is
    returned by the three queries. *)
Lemma diamond_journals_contained_witness :
  exists h journals,
    getDiamondJournalsInAreasAndCategoriesWithQuartile choice_engine
      (Some ["bio"]) (Some ["C1"]) (Some ["Q1"]) = Ok (h, journals)
    /\ Journal_getId <$> journals = ["A"]
    /\ (forall j, j ∈ journals -> j_has_apc j = false)
    /\ (exists h1 journals1,
          getJournalsInCategoriesWithQuartile choice_engine (Some ["C1"]) (Some ["Q1"])
          = Ok (h1, journals1)
          /\ forall j, j ∈ journals -> j ∈ journals1)
    /\ (exists h2 journals2,
          getJournalsInAreasWithLicense choice_engine (Some ["bio"]) None = Ok (h2, journals2)
          /\ forall j, j ∈ journals -> j ∈ journals2).
Proof.
  eexists _, _. split; [vm_compute; reflexivity|]. split; [reflexivity|].
  eapply (proj1 diamond_journals_contained choice_engine (Some ["bio"]) (Some ["C1"])
            (Some ["Q1"])).
  - apply constant_answers_tables, choice_frame_table.
  - vm_compute. reflexivity.
Defined.

(** ** Exceptions of the compound queries *)

(** X13. The compound queries raise what the merge of all journals raises.
    When the merge returns a table, the diamond query raises [KeyError] for
    [apc] if the table has no such column, also when it has no row, and
    the area-and-license query raises [KeyError] for [license] if the table
    has rows, a non-empty license is asked for and the column is missing.
    When every journal handler answers with a table of the same columns,
    whatever they are, these are the only exceptions: the
    category-and-quartile query returns, the diamond query returns if the
    columns have [apc], and the area-and-license query returns if the
    table has no row, or no non-empty license is asked for, or the columns
    have [license]. When the tables differ in their columns the three
    queries can raise [TypeError]. *)
Theorem compound_queries_key_errors :
  (forall e err areas categories quartiles licenses,
     _journal_dataframe e = Raise err ->
     getJournalsInCategoriesWithQuartile e categories quartiles = Raise err
     /\ getJournalsInAreasWithLicense e areas licenses = Raise err
     /\ getDiamondJournalsInAreasAndCategoriesWithQuartile e areas categories quartiles
        = Raise err)
  /\ (forall e df areas categories quartiles licenses,
        _journal_dataframe e = Ok df ->
        ("apc" ∉ columns df ->
         getDiamondJournalsInAreasAndCategoriesWithQuartile e areas categories quartiles
         = Raise (KeyError "apc"))
        /\ (rows df <> [] /\ ~ asks_nothing licenses /\ "license" ∉ columns df ->
            getJournalsInAreasWithLicense e areas licenses = Raise (KeyError "license")))
  /\ (forall e cols df areas categories quartiles licenses,
        answers_tables cols e call_getAllJournals ->
        _journal_dataframe e = Ok df ->
        (exists result,
           getJournalsInCategoriesWithQuartile e categories quartiles = Ok result)
        /\ ("apc" ∈ columns df ->
            exists result,
              getDiamondJournalsInAreasAndCategoriesWithQuartile e areas categories quartiles
              = Ok result)
        /\ (rows df = [] \/ asks_nothing licenses \/ "license" ∈ columns df ->
            exists result, getJournalsInAreasWithLicense e areas licenses = Ok result))
  /\ (getJournalsInCategoriesWithQuartile (short_engine false) None None = Raise TypeError
      /\ getJournalsInAreasWithLicense (short_engine false) None None = Raise TypeError
      /\ getDiamondJournalsInAreasAndCategoriesWithQuartile (short_engine false)
           None None None = Raise TypeError).
Proof.
  split; [|split; [|split]].
  - intros e err areas categories quartiles licenses Hdf.
    unfold getJournalsInCategoriesWithQuartile, getJournalsInAreasWithLicense,
      getDiamondJournalsInAreasAndCategoriesWithQuartile. by rewrite Hdf.
  - intros e df areas categories quartiles licenses Hdf.
    destruct (merged_rows_or_columns e _ df Hdf) as [Hc Hempty]. split.
    + intros Hno. unfold getDiamondJournalsInAreasAndCategoriesWithQuartile.
      rewrite Hdf. simpl. by rewrite column_missing.
    + intros (Hrows & Hreq & Hno).
      unfold getJournalsInAreasWithLicense, _select_journals_by_license.
      rewrite Hdf. simpl.
      assert (frame_empty df = false) as ->.
      { destruct (frame_empty df); [|done]. by destruct (Hrows (proj1 Hempty eq_refl)). }
      assert (nonempty (requested licenses) = true) as ->.
      { destruct (nonempty (requested licenses)) eqn:Hn; [done|].
        apply nonempty_false in Hn. by apply requested_empty in Hn. }
      simpl. by rewrite column_missing.
  - intros e cols df areas categories quartiles licenses Htab Hdf.
    destruct (merged_rows_or_columns e _ df Hdf) as [Hc Hempty].
    destruct (merged_table cols e call_getAllJournals df Htab Hdf) as [Hmade Hcols].
    assert (Hcase : columns df = cols \/ rows df = []).
    { destruct Hcols as [?| ->]; [by left|by right]. }
    assert (Hloc : forall mask, exists result, _build_journal_objects e (loc mask df) = Ok result).
    { intros mask. apply (build_objects_made cols).
      - intros r Hr. apply Hmade. unfold loc in Hr. cbn [rows] in Hr.
        by apply elem_of_filter in Hr as [Hr _].
      - destruct Hcase as [?|Hr]; [by left|right]. unfold loc. cbn [rows]. by rewrite Hr. }
    destruct (build_objects_made cols e df Hmade Hcase) as [[h journals] Hall].
    split; [|split].
    + unfold getJournalsInCategoriesWithQuartile. rewrite Hdf. simpl. rewrite Hall.
      by eexists.
    + intros Hin. unfold getDiamondJournalsInAreasAndCategoriesWithQuartile.
      rewrite Hdf. simpl. rewrite column_ok by done. simpl.
      destruct (Hloc (fun r => bool_decide (row_apc r = Some false))) as [[h' js'] ->].
      by eexists.
    + intros Hlic. unfold getJournalsInAreasWithLicense, _select_journals_by_license.
      rewrite Hdf. simpl.
      destruct (frame_empty df) eqn:Hfe; simpl.
      { rewrite Hall. by eexists. }
      destruct (nonempty (requested licenses)) eqn:Hreq; simpl.
      * destruct Hlic as [Hrows|[Hnone|Hlic]].
        -- by apply Hempty in Hrows.
        -- apply requested_empty, nonempty_false in Hnone. congruence.
        -- rewrite column_ok by done. simpl.
           destruct (Hloc (license_mask (requested licenses))) as [[h' js'] ->].
           by eexists.
      * rewrite Hall. by eexists.
  - repeat split; vm_compute; reflexivity.
Qed.

(** ** Lookup of one entity *)

Section entity_lookup.
Variables (t : Taxonomy) (identifier : option string).

Lemma find_category_Some c :
  _find_category_by_identifier t identifier = Some c ->
  c ∈ od_values (category_map t) /\ category_matches t identifier c.
Proof.
  unfold _find_category_by_identifier. intros H. apply find_some in H as [Hin Hp].
  split; [by apply list_elem_of_In|]. unfold category_matches.
  destruct (heap_categories (tx_heap t) !! c) as [C|]; [|done].
  exists C. split; [done|]. by apply String.eqb_eq.
Qed.

Lemma find_category_None :
  _find_category_by_identifier t identifier = None <->
  forall c, c ∈ od_values (category_map t) -> ~ category_matches t identifier c.
Proof.
  unfold _find_category_by_identifier. split.
  - intros H c Hc (C & HC & Heq).
    pose proof (find_none _ _ H c (proj1 (list_elem_of_In _ _) Hc)) as Hp.
    simpl in Hp. rewrite HC in Hp. apply String.eqb_neq in Hp. done.
  - intros H. destruct (List.find _ _) as [c|] eqn:Hf; [|done].
    apply find_some in Hf as [Hin Hp]. destruct (H c); [by apply list_elem_of_In|].
    unfold category_matches. destruct (heap_categories (tx_heap t) !! c) as [C|]; [|done].
    exists C. split; [done|]. by apply String.eqb_eq.
Qed.

Lemma find_area_Some a :
  _find_area_by_identifier t identifier = Some a ->
  a ∈ od_values (area_map t) /\ area_matches t identifier a.
Proof.
  unfold _find_area_by_identifier. intros H. apply find_some in H as [Hin Hp].
  split; [by apply list_elem_of_In|]. unfold area_matches.
  destruct (heap_areas (tx_heap t) !! a) as [A|]; [|done].
  exists A. split; [done|]. by apply String.eqb_eq.
Qed.

Lemma find_area_None :
  _find_area_by_identifier t identifier = None <->
  forall a, a ∈ od_values (area_map t) -> ~ area_matches t identifier a.
Proof.
  unfold _find_area_by_identifier. split.
  - intros H a Ha (A & HA & Heq).
    pose proof (find_none _ _ H a (proj1 (list_elem_of_In _ _) Ha)) as Hp.
    simpl in Hp. rewrite HA in Hp. apply String.eqb_neq in Hp. done.
  - intros H. destruct (List.find _ _) as [a|] eqn:Hf; [|done].
    apply find_some in Hf as [Hin Hp]. destruct (H a); [by apply list_elem_of_In|].
    unfold area_matches. destruct (heap_areas (tx_heap t) !! a) as [A|]; [|done].
    exists A. split; [done|]. by apply String.eqb_eq.
Qed.

End entity_lookup.

Lemma namesake_tables call : answers_tables COLUMNS namesake_engine call.
Proof.
  apply (store_backed_answers_tables (fun _ => Ok (fun _ => false))).
  intros h Hh. apply list_elem_of_singleton in Hh as ->.
  exists (mkJournalQueryHandler (Some namesake_store)). split; [|done].
  intros repo [= <-]. split; [reflexivity|]. intros r Hr. cbn [namesake_store store_frame rows] in Hr.
  repeat (apply elem_of_cons in Hr as [-> |Hr]; [reflexivity|]).
  by apply elem_of_nil in Hr.
Qed.

(** X14. [getEntityById] prefers journals to categories and categories to
    areas. When every journal handler answers with a table of [COLUMNS] and
    the handlers return a row for the identifier, the answer is the journal
    of the first row of the merged table, whatever the taxonomy holds.
    When they return no row, the answer is never a journal; a category that
    is returned is a category of the taxonomy whose identifier has the
    normal form of the one asked for; an area is returned only when no
    category matches, and is an area of the taxonomy that matches; and
    nothing is returned exactly when no category and no area matches. So a
    store that holds a journal named as the category C1 is answers with
    that journal, and with the category C2, the area bio and nothing for
    names it does not hold. Every returned row is made a journal before the
    first is taken: when a later row comes from a table of fewer columns
    the lookup raises [TypeError]. *)
Theorem entity_lookup_precedence :
  (forall e identifier frame,
     _collect_journal_frames e (call_getById identifier) = Ok frame ->
     (answers_tables COLUMNS e (call_getById identifier) ->
      forall record rest,
        rows frame = record :: rest ->
        getEntityById e identifier
        = Ok (Some (EntityJournal (tx_heap (_build_taxonomy e).1)
                      (hydrate_values (_build_taxonomy e).1 (_build_taxonomy e).2 record))))
     /\ (rows frame = [] ->
         (forall h j, getEntityById e identifier <> Ok (Some (EntityJournal h j)))
         /\ (forall h c,
               getEntityById e identifier = Ok (Some (EntityCategory h c)) ->
               h = tx_heap (_build_taxonomy e).1
               /\ c ∈ od_values (category_map (_build_taxonomy e).1)
               /\ category_matches (_build_taxonomy e).1 identifier c)
         /\ (forall h a,
               getEntityById e identifier = Ok (Some (EntityArea h a)) ->
               h = tx_heap (_build_taxonomy e).1
               /\ a ∈ od_values (area_map (_build_taxonomy e).1)
               /\ area_matches (_build_taxonomy e).1 identifier a
               /\ forall c, c ∈ od_values (category_map (_build_taxonomy e).1) ->
                    ~ category_matches (_build_taxonomy e).1 identifier c)
         /\ (getEntityById e identifier = Ok None
             <-> (forall c, c ∈ od_values (category_map (_build_taxonomy e).1) ->
                    ~ category_matches (_build_taxonomy e).1 identifier c)
                 /\ (forall a, a ∈ od_values (area_map (_build_taxonomy e).1) ->
                       ~ area_matches (_build_taxonomy e).1 identifier a))))
  /\ (exists h j,
        getEntityById namesake_engine (Some " c1 ") = Ok (Some (EntityJournal h j))
        /\ Journal_getId j = "C1" /\ j_title j = "Journal C1")
  /\ (exists h c C,
        getEntityById namesake_engine (Some "c2") = Ok (Some (EntityCategory h c))
        /\ heap_categories h !! c = Some C /\ Category_getId C = "C2")
  /\ (exists h a A,
        getEntityById namesake_engine (Some "BIO") = Ok (Some (EntityArea h a))
        /\ heap_areas h !! a = Some A /\ Area_getId A = "bio")
  /\ getEntityById namesake_engine (Some "C3") = Ok None
  /\ getEntityById (short_engine true) (Some "X") = Raise TypeError.
Proof.
  split.
  2:{ split; [eexists _, _; split; [vm_compute; reflexivity|by split]|].
      split; [eexists _, _, _; split; [vm_compute; reflexivity|by split]|].
      split; [eexists _, _, _; split; [vm_compute; reflexivity|by split]|].
      split; vm_compute; reflexivity. }
  intros e identifier frame Hframe.
  destruct (merged_rows_or_columns e _ frame Hframe) as [Hc _].
  unfold getEntityById. rewrite Hframe. simpl. split.
  - intros Htab record rest Hrows.
    rewrite build_objects_COLUMNS
      by (by apply (merged_table_COLUMNS e (call_getById identifier))).
    rewrite build_objects_rows by (done || by rewrite Hrows).
    simpl. by rewrite Hrows.
  - intros Hrows.
    assert (_build_journal_objects e frame = Ok (empty_heap, [])) as ->.
    { unfold _build_journal_objects, frame_empty. by rewrite Hrows. }
    simpl. destruct (_find_category_by_identifier _ identifier) as [c|] eqn:Hfc.
    + apply find_category_Some in Hfc as [Hin Hm].
      split; [done|]. split; [by intros h c' [= <- <-]|]. split; [done|].
      split; [done|]. intros [Hno _]. by destruct (Hno c Hin).
    + pose proof (proj1 (find_category_None _ identifier) Hfc) as Hno.
      destruct (_find_area_by_identifier _ identifier) as [a|] eqn:Hfa.
      * apply find_area_Some in Hfa as [Hin Hm].
        split; [done|]. split; [done|]. split; [by intros h a' [= <- <-]|].
        split; [done|]. intros [_ Hnoa]. by destruct (Hnoa a Hin).
      * pose proof (proj1 (find_area_None _ identifier) Hfa) as Hnoa.
        split; [done|]. split; [done|]. split; [done|]. done.
Qed.

(** The general part of the theorem at the store with the journal C1,
    asked for C1, and at the example taxonomy, asked for the area bio. *)
Lemma entity_lookup_precedence_witness :
  getEntityById namesake_engine (Some "C1")
  = Ok (Some (EntityJournal (tx_heap (_build_taxonomy namesake_engine).1)
                (hydrate_values (_build_taxonomy namesake_engine).1
                   (_build_taxonomy namesake_engine).2
                   (sample_row "C1" "Journal C1" false))))
  /\ 0 ∈ od_values (area_map (_build_taxonomy taxonomy_only_engine).1)
  /\ area_matches (_build_taxonomy taxonomy_only_engine).1 (Some " BIO ") 0
  /\ forall c, c ∈ od_values (category_map (_build_taxonomy taxonomy_only_engine).1) ->
       ~ category_matches (_build_taxonomy taxonomy_only_engine).1 (Some " BIO ") c.
Proof.
  split.
  - destruct (proj1 entity_lookup_precedence namesake_engine (Some "C1")
                (mkFrame COLUMNS [sample_row "C1" "Journal C1" false])) as [H _];
      [vm_compute; reflexivity|].
    apply (H (namesake_tables _) _ []). reflexivity.
  - destruct (proj1 entity_lookup_precedence taxonomy_only_engine (Some " BIO ")
                (DataFrame_columns COLUMNS) eq_refl) as [_ H].
    destruct (H eq_refl) as (_ & _ & Ha & _).
    destruct (Ha (tx_heap (_build_taxonomy taxonomy_only_engine).1) 0)
      as (_ & H1 & H2 & H3); [vm_compute; reflexivity|done].
Defined.

(** ** The merge of the taxonomy exports *)

Section odict_updates.
Context {V : Type}.
Implicit Types (d : odict V) (k : string) (v : V).

Lemma od_get_app k d1 d2 :
  od_get k (d1 ++ d2) = match od_get k d1 with Some v => Some v | None => od_get k d2 end.
Proof.
  induction d1 as [|[k' v'] d1 IH]; simpl; [done|]. by destruct (String.eqb k k').
Qed.

Lemma od_get_setdefault k k' v d :
  od_get k (od_setdefault k' v d)
  = match od_get k d with
    | Some x => Some x
    | None => if String.eqb k k' then Some v else None
    end.
Proof.
  unfold od_setdefault, od_mem. destruct (od_get k' d) as [x'|] eqn:Hk'.
  - destruct (od_get k d) eqn:Hk; [done|].
    destruct (String.eqb_spec k k') as [->|_]; [congruence|done].
  - rewrite od_get_app. simpl. by destruct (od_get k d).
Qed.

Lemma od_get_alter (f : V -> V) k k' d :
  od_get k (od_alter f k' d) = if String.eqb k k' then f <$> od_get k d else od_get k d.
Proof.
  induction d as [|[k0 v0] d IH]; simpl; [by destruct (String.eqb k k')|].
  destruct (String.eqb_spec k' k0) as [->|Hne0]; simpl.
  - destruct (String.eqb_spec k k0) as [->|Hne]; [done|done].
  - destruct (String.eqb_spec k k0) as [->|Hne]; simpl.
    + destruct (String.eqb_spec k0 k') as [->|_]; [done|done].
    + apply IH.
Qed.

Lemma od_keys_alter (f : V -> V) k d : od_keys (od_alter f k d) = od_keys d.
Proof.
  unfold od_keys. induction d as [|[k0 v0] d IH]; simpl; [done|].
  destruct (String.eqb k k0); simpl; [done|]. f_equal. exact IH.
Qed.

Lemma od_get_upsert k k' dflt (f : V -> V) d :
  od_get k (od_upsert k' dflt f d)
  = if String.eqb k k' then Some (f (default dflt (od_get k d))) else od_get k d.
Proof.
  unfold od_upsert. rewrite od_get_alter, od_get_setdefault.
  destruct (String.eqb k k'); by destruct (od_get k d).
Qed.

Lemma od_keys_upsert_NoDup k dflt (f : V -> V) d :
  NoDup (od_keys d) -> NoDup (od_keys (od_upsert k dflt f d)).
Proof. intros H. unfold od_upsert. rewrite od_keys_alter. by apply od_keys_setdefault_NoDup. Qed.

End odict_updates.

Section upsert_fold.
Context {V D : Type} (dflt : V) (join : V -> D -> V).
Variable step : odict V -> string * D -> odict V.
Hypothesis step_spec :
  forall acc k data, step acc (k, data) = od_upsert k dflt (fun record => join record data) acc.

(** What a key holds after the items are merged in: the values filed under
    it, joined in order onto what it held, or onto the default. *)
Lemma od_get_upsert_fold k items acc :
  od_get k (fold_left step items acc)
  = fold_left (fun o data => Some (join (default dflt o) data)) (values_for k items)
              (od_get k acc).
Proof.
  revert acc. induction items as [|[k' data] items IH]; intros acc; simpl; [done|].
  rewrite IH, step_spec, od_get_upsert. unfold values_for. simpl.
  by destruct (String.eqb k k').
Qed.

Lemma od_keys_upsert_fold_NoDup items acc :
  NoDup (od_keys acc) -> NoDup (od_keys (fold_left step items acc)).
Proof.
  revert acc. induction items as [|[k' data] items IH]; intros acc H; simpl; [done|].
  apply IH. rewrite step_spec. by apply od_keys_upsert_NoDup.
Qed.

End upsert_fold.

Lemma elem_of_values_for {D : Type} k (items : list (string * D)) data :
  data ∈ values_for k items <-> (k, data) ∈ items.
Proof.
  unfold values_for. rewrite list_elem_of_fmap. split.
  - intros ([k' d] & -> & Hin). apply elem_of_filter in Hin as [Hin Hk].
    simpl in Hk. apply String.eqb_eq in Hk. by subst k'.
  - intros Hin. exists (k, data). split; [done|]. apply elem_of_filter.
    split; [done|]. apply String.eqb_refl.
Qed.

Lemma values_for_nil_get {D : Type} k (items : list (string * D)) :
  values_for k items = [] <-> od_get k items = None.
Proof.
  rewrite od_get_None. split.
  - intros H data Hin. apply elem_of_values_for in Hin. rewrite H in Hin.
    by apply elem_of_nil in Hin.
  - intros H. destruct (values_for k items) as [|data l] eqn:Hv; [done|].
    destruct (H data). apply elem_of_values_for. rewrite Hv. apply list_elem_of_here.
Qed.

(** Joining sets by union: the result is there as soon as one value is, and
    holds the members of all of them. *)
Lemma union_fold_spec (vs : list (gset string)) (o : option (gset string)) :
  (fold_left (fun o data => Some (default ∅ o ∪ data)) vs o = None
   <-> o = None /\ vs = [])
  /\ forall X, fold_left (fun o data => Some (default ∅ o ∪ data)) vs o = Some X ->
       forall x, x ∈ X <-> x ∈ default ∅ o \/ exists data, data ∈ vs /\ x ∈ data.
Proof.
  revert o. induction vs as [|data vs IH]; intros o; simpl.
  - split; [by split; [|intros [? _]]|]. intros X -> x. simpl. split; [by left|].
    intros [?|(data & H & _)]; [done|]. by apply elem_of_nil in H.
  - destruct (IH (Some (default ∅ o ∪ data))) as [Hn Hs]. split.
    + split; [|by intros [_ ?]]. intros H. by apply Hn in H as [? _].
    + intros X HX x. rewrite (Hs X HX x). simpl. rewrite elem_of_union. split.
      * intros [[?|?]|(d & Hd & Hx)]; [by left|right; exists data|right; exists d];
          (split; [|done]); apply elem_of_cons; auto.
      * intros [?|(d & Hd & Hx)]; [by left; left|].
        apply elem_of_cons in Hd as [->|Hd]; [by left; right|right; by exists d].
Qed.

Section merge_flat.

(** Each field of the merged export is one fold over all the items of that
    field, handler after handler. *)
Lemma collect_exports_flat e :
  exp_categories (_collect_category_exports e)
  = fold_left categories_step (all_items exp_categories e) []
  /\ exp_areas (_collect_category_exports e)
     = fold_left set_step (all_items exp_areas e) []
  /\ exp_journal_categories (_collect_category_exports e)
     = fold_left journal_categories_step (all_items exp_journal_categories e) []
  /\ exp_journal_areas (_collect_category_exports e)
     = fold_left set_step (all_items exp_journal_areas e) []
  /\ exp_journal_alias (_collect_category_exports e)
     = fold_left alias_step (all_items exp_journal_alias e) [].
Proof.
  unfold _collect_category_exports, all_items, all_exports.
  assert (Hgen : forall handlers combined,
            let merged :=
              fold_left (fun combined handler =>
                           match ch_repository handler with
                           | None => combined
                           | Some export => merge_export combined export
                           end) handlers combined in
            exp_categories merged
            = fold_left categories_step
                (concat (exp_categories <$> omap ch_repository handlers))
                (exp_categories combined)
            /\ exp_areas merged
               = fold_left set_step (concat (exp_areas <$> omap ch_repository handlers))
                           (exp_areas combined)
            /\ exp_journal_categories merged
               = fold_left journal_categories_step
                   (concat (exp_journal_categories <$> omap ch_repository handlers))
                   (exp_journal_categories combined)
            /\ exp_journal_areas merged
               = fold_left set_step
                   (concat (exp_journal_areas <$> omap ch_repository handlers))
                   (exp_journal_areas combined)
            /\ exp_journal_alias merged
               = fold_left alias_step
                   (concat (exp_journal_alias <$> omap ch_repository handlers))
                   (exp_journal_alias combined)).
  { clear. induction handlers as [|handler handlers IH]; intros combined; simpl; [done|].
    destruct (ch_repository handler) as [export|]; simpl; [|apply IH].
    rewrite !fold_left_app. apply (IH (merge_export combined export)). }
  apply (Hgen (categoryQuery e) (mkExport [] [] [] [] [])).
Qed.

End merge_flat.

Section merge_facts.
Variable e : BasicQueryEngine.

Lemma elem_of_all_items {D : Type} (field : Export -> odict D) k (data : D) :
  (k, data) ∈ all_items field e
  <-> exists ex, ex ∈ all_exports e /\ (k, data) ∈ field ex.
Proof.
  unfold all_items. rewrite list_elem_of_In, in_concat. split.
  - intros (l & Hl & Hin). apply list_elem_of_In, list_elem_of_fmap in Hl as (ex & -> & Hex).
    exists ex. split; [done|by apply list_elem_of_In].
  - intros (ex & Hex & Hin). exists (field ex). split; [|by apply list_elem_of_In].
    apply list_elem_of_In, list_elem_of_fmap. by exists ex.
Qed.

Lemma od_get_all_items_None {D : Type} (field : Export -> odict D) k :
  od_get k (all_items field e) = None
  <-> forall ex, ex ∈ all_exports e -> od_get k (field ex) = None.
Proof.
  rewrite od_get_None. split.
  - intros H ex Hex. apply od_get_None. intros v Hin.
    apply (H v), elem_of_all_items. by exists ex.
  - intros H v Hin. apply elem_of_all_items in Hin as (ex & Hex & Hin).
    by apply (proj1 (od_get_None k (field ex)) (H ex Hex) v).
Qed.

Lemma od_get_all_items_head {D : Type} (field : Export -> odict D) k :
  od_get k (all_items field e) = head (omap (fun ex => od_get k (field ex)) (all_exports e)).
Proof.
  unfold all_items. induction (all_exports e) as [|ex l IH]; [done|].
  rewrite fmap_cons. cbn [concat]. rewrite od_get_app, IH. simpl.
  by destruct (od_get k (field ex)).
Qed.

Lemma alias_fold_get k items acc :
  od_get k (fold_left alias_step items acc)
  = match od_get k acc with Some v => Some v | None => od_get k items end.
Proof.
  revert acc. induction items as [|[a c] items IH]; intros acc; simpl.
  - by destruct (od_get k acc).
  - rewrite IH, od_get_setdefault. destruct (od_get k acc); [done|].
    by destruct (String.eqb k a).
Qed.

Lemma alias_fold_NoDup items acc :
  NoDup (od_keys acc) -> NoDup (od_keys (fold_left alias_step items acc)).
Proof.
  revert acc. induction items as [|[a c] items IH]; intros acc H; simpl; [done|].
  by apply IH, od_keys_setdefault_NoDup.
Qed.

Lemma set_step_spec acc k data :
  set_step acc (k, data) = od_upsert k ∅ (fun record => record ∪ data) acc.
Proof. done. Qed.

(** A dictionary of sets folded from items. *)
Lemma set_fold_spec (items : list (string * gset string)) k :
  (od_get k (fold_left set_step items []) = None <-> od_get k items = None)
  /\ forall X, od_get k (fold_left set_step items []) = Some X ->
       forall x, x ∈ X <-> exists data, (k, data) ∈ items /\ x ∈ data.
Proof.
  rewrite (od_get_upsert_fold ∅ (fun record data => record ∪ data) set_step set_step_spec).
  simpl. destruct (union_fold_spec (values_for k items) None) as [Hn Hs]. split.
  - rewrite Hn, values_for_nil_get. tauto.
  - intros X HX x. rewrite (Hs X HX x). simpl. split.
    + intros [H|(data & Hd & Hx)]; [by apply not_elem_of_empty in H|].
      exists data. split; [by apply elem_of_values_for|done].
    + intros (data & Hd & Hx). right. exists data.
      split; [by apply elem_of_values_for|done].
Qed.

Lemma merged_sets_fold (field : Export -> odict (gset string)) :
  merged_sets field e (fold_left set_step (all_items field e) []).
Proof.
  intros k. destruct (set_fold_spec (all_items field e) k) as [Hn Hs]. split.
  - by rewrite Hn, od_get_all_items_None.
  - intros X HX x. rewrite (Hs X HX x). split.
    + intros (data & Hd & Hx). apply elem_of_all_items in Hd as (ex & Hex & Hd).
      by exists ex, data.
    + intros (ex & data & Hex & Hd & Hx). exists data. split; [|done].
      apply elem_of_all_items. by exists ex.
Qed.

Lemma categories_step_spec acc cid data :
  categories_step acc (cid, data)
  = od_upsert cid (mkCategoryData ∅ ∅)
      (fun record => mkCategoryData (cd_quartiles record ∪ cd_quartiles data)
                                    (cd_areas record ∪ cd_areas data)) acc.
Proof. done. Qed.

(** The quartiles, and the areas, of a joined category record are joined
    on their own. *)
Lemma category_fold_project (proj : CategoryData -> gset string) (vs : list CategoryData)
    (o : option CategoryData) :
  (proj = cd_quartiles \/ proj = cd_areas) ->
  proj <$> fold_left (fun o data =>
                        Some (mkCategoryData
                                (cd_quartiles (default (mkCategoryData ∅ ∅) o)
                                 ∪ cd_quartiles data)
                                (cd_areas (default (mkCategoryData ∅ ∅) o) ∪ cd_areas data)))
                     vs o
  = fold_left (fun o data => Some (default ∅ o ∪ data)) (proj <$> vs) (proj <$> o).
Proof.
  intros Hproj. revert o. induction vs as [|data vs IH]; intros o; simpl; [done|].
  rewrite IH. simpl. f_equal. by destruct Hproj as [-> | ->]; destruct o.
Qed.

Lemma journal_fold_flat (vs : list (odict (gset string))) (o : option (odict (gset string))) :
  fold_left (fun o data => Some (fold_left set_step data (default [] o))) vs o
  = match vs with
    | [] => o
    | _ => Some (fold_left set_step (concat vs) (default [] o))
    end.
Proof.
  revert o. induction vs as [|data vs IH]; intros o; [done|].
  cbn [fold_left]. rewrite IH. cbn [concat]. rewrite fold_left_app.
  by destruct vs.
Qed.

Lemma journal_categories_step_spec acc jid data :
  journal_categories_step acc (jid, data)
  = od_upsert jid [] (fun journal_record => fold_left set_step data journal_record) acc.
Proof. done. Qed.

End merge_facts.

(** X15. The merged export is the union of the exports of the handlers that
    have a repository. An alias maps to what the first export, in
    registration order, that knows it says; a key of the areas, of the
    journal areas, of the categories or of the journal categories is merged
    exactly when some export has it, and holds the union of the sets the
    exports hold under it (for categories: of the quartiles and of the
    areas; for journal categories: per category); and no merged dictionary
    has a key twice. *)
Theorem merged_exports_spec (e : BasicQueryEngine) :
  (forall alias,
     od_get alias (exp_journal_alias (_collect_category_exports e))
     = head (omap (fun ex => od_get alias (exp_journal_alias ex)) (all_exports e)))
  /\ merged_sets exp_areas e (exp_areas (_collect_category_exports e))
  /\ merged_sets exp_journal_areas e (exp_journal_areas (_collect_category_exports e))
  /\ (forall cid,
        (od_get cid (exp_categories (_collect_category_exports e)) = None
         <-> forall ex, ex ∈ all_exports e -> od_get cid (exp_categories ex) = None)
        /\ forall record,
             od_get cid (exp_categories (_collect_category_exports e)) = Some record ->
             (forall q, q ∈ cd_quartiles record
                <-> exists ex data, ex ∈ all_exports e /\ (cid, data) ∈ exp_categories ex
                      /\ q ∈ cd_quartiles data)
             /\ (forall a, a ∈ cd_areas record
                   <-> exists ex data, ex ∈ all_exports e /\ (cid, data) ∈ exp_categories ex
                         /\ a ∈ cd_areas data))
  /\ (forall jid,
        (od_get jid (exp_journal_categories (_collect_category_exports e)) = None
         <-> forall ex, ex ∈ all_exports e -> od_get jid (exp_journal_categories ex) = None)
        /\ forall journal_record,
             od_get jid (exp_journal_categories (_collect_category_exports e))
             = Some journal_record ->
             forall cid,
               (od_get cid journal_record = None
                <-> forall ex data, ex ∈ all_exports e ->
                      (jid, data) ∈ exp_journal_categories ex -> od_get cid data = None)
               /\ forall qs, od_get cid journal_record = Some qs ->
                    forall q, q ∈ qs
                      <-> exists ex data qs', ex ∈ all_exports e
                            /\ (jid, data) ∈ exp_journal_categories ex
                            /\ (cid, qs') ∈ data /\ q ∈ qs')
  /\ NoDup (od_keys (exp_categories (_collect_category_exports e)))
  /\ NoDup (od_keys (exp_areas (_collect_category_exports e)))
  /\ NoDup (od_keys (exp_journal_categories (_collect_category_exports e)))
  /\ NoDup (od_keys (exp_journal_areas (_collect_category_exports e)))
  /\ NoDup (od_keys (exp_journal_alias (_collect_category_exports e))).
Proof.
  destruct (collect_exports_flat e) as (Hc & Ha & Hjc & Hja & Hal).
  rewrite Hc, Ha, Hjc, Hja, Hal.
  split; [|split; [|split; [|split; [|split; [|split; [|split; [|split; [|split]]]]]]]].
  - intros alias. rewrite alias_fold_get. simpl. apply od_get_all_items_head.
  - apply merged_sets_fold.
  - apply merged_sets_fold.
  - intros cid.
    rewrite (od_get_upsert_fold (mkCategoryData ∅ ∅)
               (fun record data => mkCategoryData (cd_quartiles record ∪ cd_quartiles data)
                                                  (cd_areas record ∪ cd_areas data))
               categories_step categories_step_spec).
    simpl.
    pose proof (category_fold_project cd_quartiles
                  (values_for cid (all_items exp_categories e)) None (or_introl eq_refl))
      as Hq.
    pose proof (category_fold_project cd_areas
                  (values_for cid (all_items exp_categories e)) None (or_intror eq_refl))
      as Har.
    simpl in Hq, Har.
    destruct (union_fold_spec (cd_quartiles <$> values_for cid (all_items exp_categories e))
                None) as [Hqn Hqs].
    destruct (union_fold_spec (cd_areas <$> values_for cid (all_items exp_categories e))
                None) as [_ Has].
    rewrite <- Hq in Hqn, Hqs. rewrite <- Har in Has. split.
    + rewrite <- od_get_all_items_None, <- values_for_nil_get. split.
      * intros H. rewrite H in Hqn. destruct (proj1 Hqn eq_refl) as [_ Hnil].
        by destruct (values_for cid (all_items exp_categories e)).
      * intros H. by rewrite H.
    + intros record Hrec. rewrite Hrec in Hqs, Has. simpl in Hqs, Has. split.
      * intros q. rewrite (Hqs _ eq_refl q). simpl. split.
        -- intros [H|(d & Hd & Hx)]; [by apply not_elem_of_empty in H|].
           apply list_elem_of_fmap in Hd as (data & -> & Hd).
           apply elem_of_values_for, elem_of_all_items in Hd as (ex & Hex & Hd).
           by exists ex, data.
        -- intros (ex & data & Hex & Hd & Hx). right. exists (cd_quartiles data).
           split; [|done]. apply list_elem_of_fmap. exists data. split; [done|].
           apply elem_of_values_for, elem_of_all_items. by exists ex.
      * intros a. rewrite (Has _ eq_refl a). simpl. split.
        -- intros [H|(d & Hd & Hx)]; [by apply not_elem_of_empty in H|].
           apply list_elem_of_fmap in Hd as (data & -> & Hd).
           apply elem_of_values_for, elem_of_all_items in Hd as (ex & Hex & Hd).
           by exists ex, data.
        -- intros (ex & data & Hex & Hd & Hx). right. exists (cd_areas data).
           split; [|done]. apply list_elem_of_fmap. exists data. split; [done|].
           apply elem_of_values_for, elem_of_all_items. by exists ex.
  - intros jid.
    rewrite (od_get_upsert_fold [] (fun journal_record data =>
                                      fold_left set_step data journal_record)
               journal_categories_step journal_categories_step_spec).
    simpl. rewrite journal_fold_flat.
    match goal with
    | |- context [match ?v with [] => None | _ :: _ => _ end] =>
        destruct v as [|d0 vs] eqn:Hvs
    end.
    + split; [|done]. split; [|done]. intros _.
      by apply od_get_all_items_None, values_for_nil_get.
    + split.
      * split; [done|]. intros H. apply od_get_all_items_None, values_for_nil_get in H.
        by pose proof (eq_trans (eq_sym H) Hvs).
      * intros journal_record [= <-] cid. simpl.
        destruct (set_fold_spec (concat (d0 :: vs)) cid) as [Hn Hs].
        assert (Hmem : forall data,
                  data ∈ d0 :: vs
                  <-> exists ex, ex ∈ all_exports e
                        /\ (jid, data) ∈ exp_journal_categories ex).
        { intros data. by rewrite <- Hvs, elem_of_values_for, elem_of_all_items. }
        split.
        -- rewrite Hn, od_get_None. split.
           ++ intros H ex data Hex Hd. apply od_get_None. intros v Hv.
              apply (H v), elem_of_concat. exists data. split; [|done].
              apply Hmem. by exists ex.
           ++ intros H v Hv. apply elem_of_concat in Hv as (data & Hd & Hv).
              apply Hmem in Hd as (ex & Hex & Hd).
              by apply (proj1 (od_get_None cid data) (H ex data Hex Hd) v).
        -- intros qs Hqs q. rewrite (Hs qs Hqs q). split.
           ++ intros (qs' & Hin & Hq). apply elem_of_concat in Hin as (data & Hd & Hin).
              apply Hmem in Hd as (ex & Hex & Hd). by exists ex, data, qs'.
           ++ intros (ex & data & qs' & Hex & Hd & Hin & Hq). exists qs'. split; [|done].
              apply elem_of_concat. exists data. split; [|done]. apply Hmem. by exists ex.
  - apply (od_keys_upsert_fold_NoDup _ _ categories_step categories_step_spec). constructor.
  - apply (od_keys_upsert_fold_NoDup _ _ set_step set_step_spec). constructor.
  - apply (od_keys_upsert_fold_NoDup _ _ journal_categories_step
             journal_categories_step_spec). constructor.
  - apply (od_keys_upsert_fold_NoDup _ _ set_step set_step_spec). constructor.
  - apply alias_fold_NoDup. constructor.
Qed.

(** ** The assembled taxonomy *)

Section taxonomy_structure_facts.

Lemma init_field_Some s : init_field (Some s) = Py.strip s.
Proof.
  unfold init_field, Py.or_empty, Py.truthy.
  destruct (String.eqb_spec s "") as [->|_]; done.
Qed.

Lemma od_get_None_keys {V : Type} k (d : odict V) : od_get k d = None -> k ∉ od_keys d.
Proof.
  intros H. apply od_mem_false_keys. unfold od_mem. by rewrite H.
Qed.

Lemma heap_ids_lookup_categories h h' c C :
  category_ids h' = category_ids h ->
  heap_categories h !! c = Some C ->
  exists C', heap_categories h' !! c = Some C' /\ Category_getId C' = Category_getId C.
Proof.
  unfold category_ids. intros Hids HC.
  assert (H : (Category_getId <$> heap_categories h') !! c = Some (Category_getId C)).
  { rewrite Hids, list_lookup_fmap, HC. done. }
  rewrite list_lookup_fmap in H. destruct (heap_categories h' !! c) as [C'|]; [|done].
  exists C'. split; [done|]. by injection H.
Qed.

Lemma heap_ids_lookup_areas h h' a A :
  area_ids h' = area_ids h ->
  heap_areas h !! a = Some A ->
  exists A', heap_areas h' !! a = Some A' /\ Area_getId A' = Area_getId A.
Proof.
  unfold area_ids. intros Hids HA.
  assert (H : (Area_getId <$> heap_areas h') !! a = Some (Area_getId A)).
  { rewrite Hids, list_lookup_fmap, HA. done. }
  rewrite list_lookup_fmap in H. destruct (heap_areas h' !! a) as [A'|]; [|done].
  exists A'. split; [done|]. by injection H.
Qed.

(** Replacing the heap by one with the same identifiers at the same places
    keeps a taxonomy well formed. *)
Lemma taxonomy_wellformed_heap t f :
  category_ids (f (tx_heap t)) = category_ids (tx_heap t) ->
  area_ids (f (tx_heap t)) = area_ids (tx_heap t) ->
  taxonomy_wellformed t -> taxonomy_wellformed (with_heap f t).
Proof.
  intros Hc Ha (Hk1 & Hk2 & Hv1 & Hv2 & He1 & He2).
  assert (Hl1 : length (heap_categories (f (tx_heap t))) = length (heap_categories (tx_heap t))).
  { pose proof (f_equal length Hc) as H. unfold category_ids in H.
    by rewrite !length_fmap in H. }
  assert (Hl2 : length (heap_areas (f (tx_heap t))) = length (heap_areas (tx_heap t))).
  { pose proof (f_equal length Ha) as H. unfold area_ids in H.
    by rewrite !length_fmap in H. }
  unfold taxonomy_wellformed, with_heap. simpl. rewrite Hl1, Hl2.
  do 4 (split; [done|]). split.
  - intros cid c Hin. destruct (He1 cid c Hin) as (C & HC & <-).
    by apply (heap_ids_lookup_categories (tx_heap t)).
  - intros aid a Hin. destruct (He2 aid a Hin) as (A & HA & <-).
    by apply (heap_ids_lookup_areas (tx_heap t)).
Qed.

Lemma taxonomy_wellformed_category_setdefault cid t :
  taxonomy_wellformed t -> taxonomy_wellformed (category_setdefault cid t).2.
Proof.
  intros (Hk1 & Hk2 & Hv1 & Hv2 & He1 & He2). unfold category_setdefault.
  destruct (od_get cid (category_map t)) as [c|] eqn:Hget; [done|].
  unfold taxonomy_wellformed. simpl. unfold od_keys, od_values in *.
  rewrite !fmap_app, length_app. simpl. split; [|split; [done|split; [|split; [done|split]]]].
  - apply NoDup_app. split; [done|]. split; [|apply NoDup_singleton].
    intros k Hk Hk'. apply list_elem_of_singleton in Hk' as ->.
    by apply (od_get_None_keys cid (category_map t)).
  - rewrite Hv1. replace (length (heap_categories (tx_heap t)) + 1)
      with (S (length (heap_categories (tx_heap t)))) by lia.
    by rewrite seq_S.
  - intros k c Hin. apply elem_of_app in Hin as [Hin|Hin].
    + destruct (He1 k c Hin) as (C & HC & Hid). exists C. split; [|done].
      by apply lookup_app_l_Some.
    + apply list_elem_of_singleton in Hin as [= -> ->].
      exists (Category_init (Some cid)). split; [by apply list_lookup_middle|].
      apply init_field_Some.
  - done.
Qed.

Lemma taxonomy_wellformed_area_setdefault aid t :
  taxonomy_wellformed t -> taxonomy_wellformed (area_setdefault aid t).2.
Proof.
  intros (Hk1 & Hk2 & Hv1 & Hv2 & He1 & He2). unfold area_setdefault.
  destruct (od_get aid (area_map t)) as [a|] eqn:Hget; [done|].
  unfold taxonomy_wellformed. simpl. unfold od_keys, od_values in *.
  rewrite !fmap_app, length_app. simpl. split; [done|split; [|split; [done|split; [|split]]]].
  - apply NoDup_app. split; [done|]. split; [|apply NoDup_singleton].
    intros k Hk Hk'. apply list_elem_of_singleton in Hk' as ->.
    by apply (od_get_None_keys aid (area_map t)).
  - rewrite Hv2. replace (length (heap_areas (tx_heap t)) + 1)
      with (S (length (heap_areas (tx_heap t)))) by lia.
    by rewrite seq_S.
  - done.
  - intros k a Hin. apply elem_of_app in Hin as [Hin|Hin].
    + destruct (He2 k a Hin) as (A & HA & Hid). exists A. split; [|done].
      by apply lookup_app_l_Some.
    + apply list_elem_of_singleton in Hin as [= -> ->].
      exists (Area_init (Some aid)). split; [by apply list_lookup_middle|].
      apply init_field_Some.
Qed.

Lemma addQuartile_id quartile c :
  Category_getId (Category_addQuartile quartile c) = Category_getId c
  /\ cat_areas (Category_addQuartile quartile c) = cat_areas c.
Proof.
  unfold Category_addQuartile. destruct quartile as [q|]; [|done].
  destruct (Py.truthy q); [|done]. by destruct (Py.truthy (Py.strip q)).
Qed.

Lemma taxonomy_wellformed_built exports : taxonomy_wellformed (build_taxonomy_from exports).
Proof.
  apply (build_taxonomy_invariant taxonomy_wellformed).
  - unfold taxonomy_wellformed. simpl. repeat split; try constructor.
    + intros cid c H. by apply elem_of_nil in H.
    + intros aid a H. by apply elem_of_nil in H.
  - intros t cid. apply taxonomy_wellformed_category_setdefault.
  - intros t aid. apply taxonomy_wellformed_area_setdefault.
  - intros t c quartile. apply taxonomy_wellformed_heap; unfold category_ids, area_ids;
      simpl; [|done].
    apply fmap_alter_keep. intros C. apply addQuartile_id.
  - intros t c a. apply taxonomy_wellformed_heap.
    + apply (run_call_ids (tx_heap t) (CallAddArea c a)).
    + apply (run_call_ids (tx_heap t) (CallAddArea c a)).
Qed.

(** Allocation keeps the link dictionaries well formed. *)
Lemma links_wellformed_alloc_category h C :
  cat_areas C = [] -> links_wellformed h ->
  links_wellformed (mkHeap (heap_categories h ++ [C]) (heap_areas h)).
Proof.
  intros HC [Hc Ha]. split; simpl.
  - intros c C' Hl. apply lookup_app_Some in Hl as [Hl|[_ Hl]]; [by apply (Hc c)|].
    apply list_lookup_singleton_Some in Hl as [_ <-]. rewrite HC. split; [constructor|].
    intros k r H. by apply elem_of_nil in H.
  - intros a A Hl. destruct (Ha a A Hl) as [Hnd Hen]. split; [done|].
    intros k r Hin. destruct (Hen k r Hin) as (Hk & C' & HC' & Hid). split; [done|].
    exists C'. split; [by apply lookup_app_l_Some|done].
Qed.

Lemma links_wellformed_alloc_area h A :
  area_categories A = [] -> links_wellformed h ->
  links_wellformed (mkHeap (heap_categories h) (heap_areas h ++ [A])).
Proof.
  intros HA [Hc Ha]. split; simpl.
  - intros c C Hl. destruct (Hc c C Hl) as [Hnd Hen]. split; [done|].
    intros k r Hin. destruct (Hen k r Hin) as (Hk & A' & HA' & Hid). split; [done|].
    exists A'. split; [by apply lookup_app_l_Some|done].
  - intros a A' Hl. apply lookup_app_Some in Hl as [Hl|[_ Hl]]; [by apply (Ha a)|].
    apply list_lookup_singleton_Some in Hl as [_ <-]. rewrite HA. split; [constructor|].
    intros k r H. by apply elem_of_nil in H.
Qed.

Lemma links_wellformed_addQuartile h c quartile :
  links_wellformed h ->
  links_wellformed (mkHeap (alter (Category_addQuartile (Some quartile)) c (heap_categories h))
                           (heap_areas h)).
Proof.
  intros [Hc Ha]. split; simpl.
  - intros c' C' Hl. rewrite list_lookup_alter in Hl.
    case_decide as Hcc; [subst c'|by apply (Hc c')].
    destruct (heap_categories h !! c) as [C|] eqn:HC; [|done].
    apply fmap_Some in Hl as (C0 & [= <-] & ->).
    rewrite (proj2 (addQuartile_id (Some quartile) C)). by apply (Hc c).
  - intros a A Hl. destruct (Ha a A Hl) as [Hnd Hen]. split; [done|].
    intros k r Hin. destruct (Hen k r Hin) as (Hk & C & HC & <-). split; [done|].
    apply (lookup_alter_keep Category_getId); [|done]. intros C'. apply addQuartile_id.
Qed.

Lemma links_wellformed_built exports : links_wellformed (tx_heap (build_taxonomy_from exports)).
Proof.
  apply (build_taxonomy_invariant (fun t => links_wellformed (tx_heap t))).
  - split; intros i x H; by apply lookup_nil_Some in H || done.
  - intros t cid H. unfold category_setdefault.
    destruct (od_get cid (category_map t)); [done|]. simpl.
    by apply links_wellformed_alloc_category.
  - intros t aid H. unfold area_setdefault.
    destruct (od_get aid (area_map t)); [done|]. simpl.
    by apply links_wellformed_alloc_area.
  - intros t c quartile H. simpl. by apply links_wellformed_addQuartile.
  - intros t c a H. simpl. by apply addArea_wellformed.
Qed.

End taxonomy_structure_facts.

(** Membership in a list read off a state that a fold builds, when each
    step keeps what there is and adds what its item offers, under an
    invariant of the state. *)
Section fold_members.
Context {S X E : Type} (Inv : S -> Prop) (entries : S -> list E) (g : S -> X -> S)
        (offers : X -> E -> Prop).
Hypothesis g_inv : forall s x, Inv s -> Inv (g s x).
Hypothesis g_members :
  forall s x e, Inv s -> e ∈ entries (g s x) <-> e ∈ entries s \/ offers x e.

Lemma fold_members_inv l s : Inv s -> Inv (fold_left g l s).
Proof. revert s. induction l as [|x l IH]; intros s H; simpl; auto. Qed.

Lemma fold_members l s e :
  Inv s ->
  e ∈ entries (fold_left g l s) <-> e ∈ entries s \/ exists x, x ∈ l /\ offers x e.
Proof.
  revert s. induction l as [|x l IH]; intros s Hs; simpl.
  - split; [by left|]. intros [?|(x & Hx & _)]; [done|]. by apply elem_of_nil in Hx.
  - rewrite IH by auto. rewrite g_members by done. split.
    + intros [[?|?]|(y & Hy & Ho)]; [by left|right; exists x|right; exists y];
        (split; [|done]); apply elem_of_cons; auto.
    + intros [?|(y & Hy & Ho)]; [by left; left|].
      apply elem_of_cons in Hy as [-> |Hy]; [by left; right|right; by exists y].
Qed.
End fold_members.

Section taxonomy_keys.

Lemma category_setdefault_maps cid t :
  (forall k, k ∈ od_keys (category_map (category_setdefault cid t).2)
     <-> k ∈ od_keys (category_map t) \/ k = cid)
  /\ area_map (category_setdefault cid t).2 = area_map t.
Proof.
  unfold category_setdefault. destruct (od_get cid (category_map t)) as [c|] eqn:Hget; simpl.
  - split; [|done]. intros k. split; [by left|]. intros [?| ->]; [done|].
    unfold od_keys. apply list_elem_of_fmap. exists (cid, c). split; [done|].
    by apply od_get_elem.
  - split; [|done]. intros k. unfold od_keys. rewrite fmap_app, elem_of_app. simpl.
    by rewrite list_elem_of_singleton.
Qed.

Lemma area_setdefault_maps aid t :
  (forall k, k ∈ od_keys (area_map (area_setdefault aid t).2)
     <-> k ∈ od_keys (area_map t) \/ k = aid)
  /\ category_map (area_setdefault aid t).2 = category_map t.
Proof.
  unfold area_setdefault. destruct (od_get aid (area_map t)) as [a|] eqn:Hget; simpl.
  - split; [|done]. intros k. split; [by left|]. intros [?| ->]; [done|].
    unfold od_keys. apply list_elem_of_fmap. exists (aid, a). split; [done|].
    by apply od_get_elem.
  - split; [|done]. intros k. unfold od_keys. rewrite fmap_app, elem_of_app. simpl.
    by rewrite list_elem_of_singleton.
Qed.

Lemma taxonomy_category_maps t item :
  category_map (taxonomy_category t item) = category_map (category_setdefault item.1 t).2
  /\ area_map (taxonomy_category t item) = area_map t.
Proof.
  destruct item as [cid data]. unfold taxonomy_category. simpl.
  destruct (category_setdefault_maps cid t) as [_ Ha].
  destruct (category_setdefault cid t) as [c t1]. simpl in *. rewrite <- Ha.
  apply (fold_left_invariant
           (fun t' => category_map t' = category_map t1 /\ area_map t' = area_map t1));
    [|done].
  intros t' q [H1 H2]. by simpl.
Qed.

(** The keys of the category map after the areas of one exported area. *)
Lemma taxonomy_area_maps t item :
  (forall k, k ∈ od_keys (category_map (taxonomy_area t item))
     <-> k ∈ od_keys (category_map t) \/ k ∈ item.2)
  /\ (forall k, k ∈ od_keys (area_map (taxonomy_area t item))
        <-> k ∈ od_keys (area_map t) \/ k = item.1).
Proof.
  destruct item as [aid data]. unfold taxonomy_area. simpl.
  destruct (area_setdefault_maps aid t) as [Hka Hc].
  destruct (area_setdefault aid t) as [a t1]. simpl in *.
  set (step := fun (t' : Taxonomy) (cid : string) =>
                 let '(c, t2) := category_setdefault cid t' in
                 with_heap (Category_addArea c a) t2).
  assert (Hstep : forall t' cid,
            (forall k, k ∈ od_keys (category_map (step t' cid))
               <-> k ∈ od_keys (category_map t') \/ k = cid)
            /\ area_map (step t' cid) = area_map t').
  { intros t' cid. unfold step. destruct (category_setdefault_maps cid t') as [Hk Ham].
    by destruct (category_setdefault cid t') as [c t2]. }
  split.
  - intros k.
    rewrite (fold_members (fun _ => True) (fun t' => od_keys (category_map t')) step
               (fun cid k => k = cid)); [|done| |done].
    + rewrite Hc. split; (intros [?|H]; [by left|right]).
      * destruct H as (cid & Hcid & ->). by apply elem_of_elements in Hcid.
      * exists k. split; [by apply elem_of_elements|done].
    + intros s x e _. apply Hstep.
  - intros k. rewrite <- Hka.
    assert (area_map (fold_left step (elements data) t1) = area_map t1) as ->; [|done].
    apply (fold_left_invariant (fun t' => area_map t' = area_map t1)); [|done].
    intros t' cid <-. apply Hstep.
Qed.

(** What the two maps of the assembled taxonomy have as keys. *)
Lemma taxonomy_keys exports :
  (forall k, k ∈ od_keys (category_map (build_taxonomy_from exports))
     <-> k ∈ od_keys (exp_categories exports)
         \/ exists aid data, (aid, data) ∈ exp_areas exports /\ k ∈ data)
  /\ (forall k, k ∈ od_keys (area_map (build_taxonomy_from exports))
        <-> k ∈ od_keys (exp_areas exports)).
Proof.
  unfold build_taxonomy_from.
  set (t1 := fold_left taxonomy_category (exp_categories exports)
                       (mkTaxonomy empty_heap [] [])).
  assert (H1 : (forall k, k ∈ od_keys (category_map t1)
                  <-> k ∈ od_keys (exp_categories exports))
               /\ area_map t1 = []).
  { split.
    - intros k. unfold t1.
      rewrite (fold_members (fun _ => True) (fun t' => od_keys (category_map t'))
                 taxonomy_category (fun item k => k = item.1)); [|done| |done].
      + simpl. split.
        * intros [H|(item & Hin & ->)]; [by apply elem_of_nil in H|].
          apply list_elem_of_fmap. by exists item.
        * intros (item & -> & Hin)%list_elem_of_fmap. right. by exists item.
      + intros s x e _. destruct (taxonomy_category_maps s x) as [-> _].
        apply category_setdefault_maps.
    - unfold t1. apply (fold_left_invariant (fun t' => area_map t' = [])); [|done].
      intros t' item <-. apply taxonomy_category_maps. }
  destruct H1 as [Hk1 Ha1]. split.
  - intros k.
    rewrite (fold_members (fun _ => True) (fun t' => od_keys (category_map t'))
               taxonomy_area (fun item k => k ∈ item.2)); [|done| |done].
    + rewrite Hk1. split; (intros [?|H]; [by left|right]).
      * destruct H as ([aid data] & Hin & Hk). by exists aid, data.
      * destruct H as (aid & data & Hin & Hk). by exists (aid, data).
    + intros s x e _. apply taxonomy_area_maps.
  - intros k.
    rewrite (fold_members (fun _ => True) (fun t' => od_keys (area_map t'))
               taxonomy_area (fun item k => k = item.1)); [|done| |done].
    + rewrite Ha1. split.
      * intros [H|(item & Hin & ->)]; [by apply elem_of_nil in H|].
        apply list_elem_of_fmap. by exists item.
      * intros (item & -> & Hin)%list_elem_of_fmap. right. by exists item.
    + intros s x e _. apply taxonomy_area_maps.
Qed.

End taxonomy_keys.

(** X16. The taxonomy the engine assembles from any export: the category
    map and the area map hold each object they keep exactly once, in the
    order the objects were made, under keys that occur once; the
    identifier of an object is its key trimmed; the area map has exactly
    the exported area keys, and the category map the exported category
    keys and the categories that exported areas name; and the link
    dictionaries are well formed. [getAllCategories] and [getAllAreas]
    thus return every node once. *)
Theorem taxonomy_structure (e : BasicQueryEngine) :
  taxonomy_wellformed (_build_taxonomy e).1
  /\ links_wellformed (tx_heap (_build_taxonomy e).1)
  /\ (forall k, k ∈ od_keys (category_map (_build_taxonomy e).1)
        <-> k ∈ od_keys (exp_categories (_build_taxonomy e).2)
            \/ exists aid data, (aid, data) ∈ exp_areas (_build_taxonomy e).2 /\ k ∈ data)
  /\ (forall k, k ∈ od_keys (area_map (_build_taxonomy e).1)
        <-> k ∈ od_keys (exp_areas (_build_taxonomy e).2))
  /\ (getAllCategories e).2 = seq 0 (length (heap_categories (getAllCategories e).1))
  /\ (getAllAreas e).2 = seq 0 (length (heap_areas (getAllAreas e).1)).
Proof.
  unfold _build_taxonomy, getAllCategories, getAllAreas. simpl.
  destruct (taxonomy_keys (_collect_category_exports e)) as [Hk1 Hk2].
  pose proof (taxonomy_wellformed_built (_collect_category_exports e)) as Hwf.
  split; [done|]. split; [apply links_wellformed_built|].
  split; [done|]. split; [done|]. by destruct Hwf as (_ & _ & Hv1 & Hv2 & _).
Qed.

(** A fold whose every step keeps what holds of the state and adds what
    its item offers, under an invariant of the state. *)
Section fold_holds.
Context {S X E : Type} (Inv : S -> Prop) (mem : S -> E -> Prop) (g : S -> X -> S)
        (offers : X -> E -> Prop).
Hypothesis g_inv : forall s x, Inv s -> Inv (g s x).
Hypothesis g_holds : forall s x e, Inv s -> mem (g s x) e <-> mem s e \/ offers x e.

Lemma fold_holds l s e :
  Inv s ->
  mem (fold_left g l s) e <-> mem s e \/ exists x, x ∈ l /\ offers x e.
Proof.
  revert s. induction l as [|x l IH]; intros s Hs; simpl.
  - split; [by left|]. intros [?|(x & Hx & _)]; [done|]. by apply elem_of_nil in Hx.
  - rewrite IH by auto. rewrite g_holds by done. split.
    + intros [[?|?]|(y & Hy & Ho)]; [by left|right; exists x|right; exists y];
        (split; [|done]); apply elem_of_cons; auto.
    + intros [?|(y & Hy & Ho)]; [by left; left|].
      apply elem_of_cons in Hy as [-> |Hy]; [by left; right|right; by exists y].
Qed.
End fold_holds.

Section taxonomy_members.

Lemma odict_values_inj {V : Type} (m : odict V) k k' v :
  NoDup (od_values m) -> (k, v) ∈ m -> (k', v) ∈ m -> k = k'.
Proof.
  unfold od_values. induction m as [|[k0 v0] m IH]; simpl; intros Hnd H1 H2.
  - by apply elem_of_nil in H1.
  - apply NoDup_cons in Hnd as [Hnot Hnd].
    apply elem_of_cons in H1 as [H1|H1]; apply elem_of_cons in H2 as [H2|H2].
    + congruence.
    + injection H1 as -> ->. exfalso. apply Hnot. apply list_elem_of_fmap.
      by exists (k', v0).
    + injection H2 as -> ->. exfalso. apply Hnot. apply list_elem_of_fmap.
      by exists (k, v0).
    + by apply IH.
Qed.

Lemma odict_keys_inj {V : Type} (m : odict V) k v v' :
  NoDup (od_keys m) -> (k, v) ∈ m -> (k, v') ∈ m -> v = v'.
Proof.
  unfold od_keys. induction m as [|[k0 v0] m IH]; simpl; intros Hnd H1 H2.
  - by apply elem_of_nil in H1.
  - apply NoDup_cons in Hnd as [Hnot Hnd].
    apply elem_of_cons in H1 as [H1|H1]; apply elem_of_cons in H2 as [H2|H2].
    + congruence.
    + injection H1 as -> ->. exfalso. apply Hnot. apply list_elem_of_fmap.
      by exists (k0, v').
    + injection H2 as -> ->. exfalso. apply Hnot. apply list_elem_of_fmap.
      by exists (k0, v).
    + by apply IH.
Qed.

(** Changing one kept object changes what is held under its key only. *)
Lemma members_alter {T : Type} (m : odict nat) (l : list T) (f : T -> T)
    (F : T -> list string) (extra : string -> Prop) key0 i0 X0 :
  NoDup (od_values m) -> (key0, i0) ∈ m -> l !! i0 = Some X0 ->
  (forall x, x ∈ F (f X0) <-> x ∈ F X0 \/ extra x) ->
  forall key x,
    members m (alter f i0 l) F key x <-> members m l F key x \/ (key = key0 /\ extra x).
Proof.
  intros Hnd Hin HX0 HF key x. unfold members. split.
  - intros (i & X & Hi & HX & Hx). destruct (decide (i0 = i)) as [<-|Hne].
    + rewrite list_lookup_alter_eq, HX0 in HX. simpl in HX. injection HX as <-.
      apply HF in Hx as [Hx|Hx]; [left; by exists i0, X0|right]. split; [|done].
      by apply (odict_values_inj m key key0 i0).
    + rewrite list_lookup_alter_ne in HX by done. left. by exists i, X.
  - intros [(i & X & Hi & HX & Hx)|[-> Hx]].
    + destruct (decide (i0 = i)) as [<-|Hne].
      * exists i0, (f X0). split; [done|]. rewrite list_lookup_alter_eq, HX0.
        split; [done|]. apply HF. left. congruence.
      * exists i, X. by rewrite list_lookup_alter_ne by done.
    + exists i0, (f X0). rewrite list_lookup_alter_eq, HX0.
      split; [done|]. split; [done|]. apply HF. by right.
Qed.

(** A new object that holds nothing changes nothing. *)
Lemma members_alloc {T : Type} (m : odict nat) (l : list T) (F : T -> list string)
    key0 X0 key x :
  (forall k i, (k, i) ∈ m -> i < length l) -> F X0 = [] ->
  members (m ++ [(key0, length l)]) (l ++ [X0]) F key x <-> members m l F key x.
Proof.
  intros Hlt HF. unfold members. split.
  - intros (i & X & Hi & HX & Hx). apply elem_of_app in Hi as [Hi|Hi].
    + exists i, X. split; [done|]. by rewrite lookup_app_l in HX by eauto.
    + apply list_elem_of_singleton in Hi. injection Hi as -> ->.
      rewrite list_lookup_middle in HX by done. injection HX as <-.
      rewrite HF in Hx. by apply elem_of_nil in Hx.
  - intros (i & X & Hi & HX & Hx). exists i, X. split; [apply elem_of_app; by left|].
    split; [by apply lookup_app_l_Some|done].
Qed.

Lemma taxonomy_wellformed_bounds t :
  taxonomy_wellformed t ->
  (forall k i, (k, i) ∈ category_map t -> i < length (heap_categories (tx_heap t)))
  /\ (forall k i, (k, i) ∈ area_map t -> i < length (heap_areas (tx_heap t)))
  /\ NoDup (od_values (category_map t)) /\ NoDup (od_values (area_map t)).
Proof.
  intros (_ & _ & Hv1 & Hv2 & He1 & He2). split; [|split; [|split]].
  - intros k i Hin. destruct (He1 k i Hin) as (C & HC & _). by apply lookup_lt_Some in HC.
  - intros k i Hin. destruct (He2 k i Hin) as (A & HA & _). by apply lookup_lt_Some in HA.
  - rewrite Hv1. apply NoDup_seq.
  - rewrite Hv2. apply NoDup_seq.
Qed.

Lemma category_setdefault_members cid0 t :
  taxonomy_wellformed t ->
  (cid0, (category_setdefault cid0 t).1) ∈ category_map (category_setdefault cid0 t).2
  /\ area_map (category_setdefault cid0 t).2 = area_map t
  /\ (forall cid q, category_has_quartile (category_setdefault cid0 t).2 cid q
        <-> category_has_quartile t cid q)
  /\ (forall cid k, category_has_area (category_setdefault cid0 t).2 cid k
        <-> category_has_area t cid k)
  /\ (forall aid k, area_has_category (category_setdefault cid0 t).2 aid k
        <-> area_has_category t aid k).
Proof.
  intros Hwf. destruct (taxonomy_wellformed_bounds t Hwf) as (Hb & _).
  unfold category_setdefault.
  destruct (od_get cid0 (category_map t)) as [c|] eqn:Hget; simpl.
  - split; [by apply od_get_elem|]. done.
  - split; [apply elem_of_app; right; by apply list_elem_of_singleton|].
    split; [done|]. unfold category_has_quartile, category_has_area, area_has_category.
    simpl. split; [|split; [|done]]; intros cid x; by apply members_alloc.
Qed.

Lemma area_setdefault_members aid0 t :
  taxonomy_wellformed t ->
  (aid0, (area_setdefault aid0 t).1) ∈ area_map (area_setdefault aid0 t).2
  /\ (forall cid q, category_has_quartile (area_setdefault aid0 t).2 cid q
        <-> category_has_quartile t cid q)
  /\ (forall cid k, category_has_area (area_setdefault aid0 t).2 cid k
        <-> category_has_area t cid k)
  /\ (forall aid k, area_has_category (area_setdefault aid0 t).2 aid k
        <-> area_has_category t aid k).
Proof.
  intros Hwf. destruct (taxonomy_wellformed_bounds t Hwf) as (_ & Hb & _).
  unfold area_setdefault.
  destruct (od_get aid0 (area_map t)) as [a|] eqn:Hget; simpl.
  - split; [by apply od_get_elem|]. done.
  - split; [apply elem_of_app; right; by apply list_elem_of_singleton|].
    unfold category_has_quartile, category_has_area, area_has_category.
    simpl. split; [done|]. split; [done|]. intros aid x. by apply members_alloc.
Qed.

Lemma addQuartile_quartiles q0 C x :
  x ∈ Category_getQuartiles (Category_addQuartile (Some q0) C)
  <-> x ∈ Category_getQuartiles C \/ (x <> "" /\ Py.strip q0 = x).
Proof.
  unfold Category_addQuartile, Category_getQuartiles.
  destruct (Py.truthy (Py.strip q0)) eqn:Hs.
  - assert (Py.truthy q0 = true) as ->.
    { apply truthy_true. intros ->. by rewrite strip_empty in Hs. }
    simpl. rewrite elem_of_od_keys_setdefault. apply truthy_true in Hs.
    split; (intros [?|H]; [by left|right]).
    + by subst x.
    + by destruct H as [_ <-].
  - assert (Hempty : Py.strip q0 = "").
    { destruct (decide (Py.strip q0 = "")) as [?|Hne]; [done|].
      apply truthy_true in Hne. congruence. }
    assert (Hsame : forall c' : Category, (if Py.truthy q0 then c' else c') = c')
      by (intros c'; by destruct (Py.truthy q0)).
    rewrite Hsame. split; [by left|]. intros [?|[Hx Hq]]; [done|]. congruence.
Qed.

(** One [addQuartile] on the category kept under [cid0]. *)
Lemma addQuartile_members t cid0 c0 q0 :
  taxonomy_wellformed t -> (cid0, c0) ∈ category_map t ->
  (forall cid q,
     category_has_quartile
       (with_heap (fun h => mkHeap (alter (Category_addQuartile (Some q0)) c0
                                          (heap_categories h)) (heap_areas h)) t) cid q
     <-> category_has_quartile t cid q \/ (cid = cid0 /\ q <> "" /\ Py.strip q0 = q))
  /\ (forall cid k,
        category_has_area
          (with_heap (fun h => mkHeap (alter (Category_addQuartile (Some q0)) c0
                                             (heap_categories h)) (heap_areas h)) t) cid k
        <-> category_has_area t cid k)
  /\ (forall aid k,
        area_has_category
          (with_heap (fun h => mkHeap (alter (Category_addQuartile (Some q0)) c0
                                             (heap_categories h)) (heap_areas h)) t) aid k
        <-> area_has_category t aid k).
Proof.
  intros Hwf Hin. destruct (taxonomy_wellformed_bounds t Hwf) as (_ & _ & Hnd & _).
  destruct Hwf as (_ & _ & _ & _ & He1 & _). destruct (He1 cid0 c0 Hin) as (C0 & HC0 & _).
  unfold category_has_quartile, category_has_area, area_has_category. simpl.
  split; [|split; [|done]].
  - intros cid q.
    apply (members_alter _ _ _ _ (fun q => q <> "" /\ Py.strip q0 = q) cid0 c0 C0);
      try done.
    intros x. apply addQuartile_quartiles.
  - intros cid k.
    rewrite (members_alter _ _ _ _ (fun _ => False) cid0 c0 C0); try done; [tauto|].
    intros x. destruct (addQuartile_id (Some q0) C0) as [_ ->]. tauto.
Qed.

(** One [addArea] on the category kept under [cid0], with the area kept
    under [aid0]. *)
Lemma addArea_members t cid0 c0 aid0 a0 :
  taxonomy_wellformed t -> (cid0, c0) ∈ category_map t -> (aid0, a0) ∈ area_map t ->
  (forall cid q, category_has_quartile (with_heap (Category_addArea c0 a0) t) cid q
     <-> category_has_quartile t cid q)
  /\ (forall cid k, category_has_area (with_heap (Category_addArea c0 a0) t) cid k
        <-> category_has_area t cid k
            \/ (cid = cid0 /\ k <> "" /\ Py.strip aid0 = k))
  /\ (forall aid k, area_has_category (with_heap (Category_addArea c0 a0) t) aid k
        <-> area_has_category t aid k
            \/ (aid = aid0 /\ Py.strip aid0 <> "" /\ k <> "" /\ Py.strip cid0 = k)).
Proof.
  intros Hwf Hc Ha. destruct (taxonomy_wellformed_bounds t Hwf) as (_ & _ & Hnd1 & Hnd2).
  destruct Hwf as (_ & _ & _ & _ & He1 & He2).
  destruct (He1 cid0 c0 Hc) as (C0 & HC0 & HidC). destruct (He2 aid0 a0 Ha) as (A0 & HA0 & HidA).
  unfold category_has_quartile, category_has_area, area_has_category, with_heap,
    Category_addArea. simpl. rewrite HA0, HidA.
  destruct (Py.truthy (Py.strip aid0)) eqn:Hta.
  - unfold Category_link_area. rewrite HA0, HidA, Hta.
    unfold Area_link_category. simpl. rewrite list_lookup_alter_eq, HC0. simpl.
    unfold Category_getId in *. simpl. rewrite HidC.
    apply truthy_true in Hta.
    assert (Hq : forall cid q,
              members (category_map t)
                (alter (fun self => mkCategory (cat_id self) (cat_name self)
                                      (cat_quartiles self)
                                      (od_setdefault (Py.strip aid0) a0 (cat_areas self)))
                       c0 (heap_categories (tx_heap t))) Category_getQuartiles cid q
              <-> members (category_map t) (heap_categories (tx_heap t))
                    Category_getQuartiles cid q).
    { intros cid q.
      rewrite (members_alter _ _ _ _ (fun _ => False) cid0 c0 C0); try done; tauto. }
    assert (Hk : forall cid k,
              members (category_map t)
                (alter (fun self => mkCategory (cat_id self) (cat_name self)
                                      (cat_quartiles self)
                                      (od_setdefault (Py.strip aid0) a0 (cat_areas self)))
                       c0 (heap_categories (tx_heap t)))
                (fun C => od_keys (cat_areas C)) cid k
              <-> members (category_map t) (heap_categories (tx_heap t))
                    (fun C => od_keys (cat_areas C)) cid k
                  \/ (cid = cid0 /\ k <> "" /\ Py.strip aid0 = k)).
    { intros cid k.
      rewrite (members_alter _ _ _ _ (fun k => k = Py.strip aid0) cid0 c0 C0); try done.
      - split; (intros [?|[-> H]]; [by left|right; split; [done|]]).
        + by subst k.
        + by destruct H as [_ <-].
      - intros x. simpl. apply elem_of_od_keys_setdefault. }
    destruct (Py.truthy (Py.strip cid0)) eqn:Htc; simpl.
    + apply truthy_true in Htc. split; [done|]. split; [done|]. intros aid k.
      rewrite (members_alter _ _ _ _ (fun k => k = Py.strip cid0) aid0 a0 A0); try done.
      * split; (intros [?|[-> H]]; [by left|right; split; [done|]]).
        -- by subst k.
        -- by destruct H as (_ & _ & <-).
      * intros x. simpl. apply elem_of_od_keys_setdefault.
    + split; [done|]. split; [done|]. intros aid k. split; [by left|].
      intros [?|(_ & _ & Hk' & Heq)]; [done|]. subst k.
      apply truthy_true in Hk'. congruence.
  - assert (Hempty : Py.strip aid0 = "").
    { destruct (decide (Py.strip aid0 = "")) as [?|Hne]; [done|].
      apply truthy_true in Hne. congruence. }
    split; [done|]. split; intros x k; (split; [by left|]).
    + intros [?|(_ & Hk' & Heq)]; [done|]. congruence.
    + intros [?|(_ & Hk' & _)]; [done|]. congruence.
Qed.

End taxonomy_members.

Section taxonomy_contents_steps.

(** The first loop of [_build_taxonomy], for one exported category. *)
Lemma taxonomy_category_members t item :
  taxonomy_wellformed t ->
  taxonomy_wellformed (taxonomy_category t item)
  /\ (forall cid q, category_has_quartile (taxonomy_category t item) cid q
        <-> category_has_quartile t cid q
            \/ (cid = item.1 /\ q <> ""
                /\ exists s, s ∈ cd_quartiles item.2 /\ Py.strip s = q))
  /\ (forall cid k, category_has_area (taxonomy_category t item) cid k
        <-> category_has_area t cid k)
  /\ (forall aid k, area_has_category (taxonomy_category t item) aid k
        <-> area_has_category t aid k).
Proof.
  intros Hwf. destruct item as [cid0 data]. unfold taxonomy_category. simpl.
  pose proof (taxonomy_wellformed_category_setdefault cid0 t Hwf) as Hwf1.
  destruct (category_setdefault_members cid0 t Hwf) as (Hin & _ & Hq1 & Hk1 & Ha1).
  destruct (category_setdefault cid0 t) as [c0 t1]. simpl in *.
  set (step := fun (t' : Taxonomy) (quartile : string) =>
                 with_heap (fun h => mkHeap (alter (Category_addQuartile (Some quartile)) c0
                                                   (heap_categories h)) (heap_areas h)) t').
  set (Inv := fun t' : Taxonomy => taxonomy_wellformed t' /\ (cid0, c0) ∈ category_map t').
  assert (Hinv : forall t' q0, Inv t' -> Inv (step t' q0)).
  { intros t' q0 [Hwf' Hin']. split; [|done].
    apply taxonomy_wellformed_heap; unfold category_ids, area_ids; simpl; [|done|done].
    apply fmap_alter_keep. intros C. apply addQuartile_id. }
  assert (Hstart : Inv t1) by done.
  split; [by apply (fold_left_invariant Inv)|]. split; [|split].
  - intros cid q.
    pose proof (fold_holds Inv (fun t' (e : string * string) =>
                                  category_has_quartile t' e.1 e.2)
                  step (fun q0 e => e.1 = cid0 /\ e.2 <> "" /\ Py.strip q0 = e.2)
                  Hinv) as H.
    simpl in H. rewrite (fun Hs => H Hs (elements (cd_quartiles data)) t1 (cid, q) Hstart).
    + simpl. rewrite Hq1. split; (intros [?|H']; [by left|right]).
      * destruct H' as (s & Hs & -> & Hq & Heq). split; [done|]. split; [done|].
        exists s. split; [by apply elem_of_elements|done].
      * destruct H' as (-> & Hq & s & Hs & Heq). exists s.
        split; [by apply elem_of_elements|done].
    + intros t' q0 e [Hwf' Hin']. apply (addQuartile_members t' cid0 c0 q0 Hwf' Hin').
  - intros cid k. rewrite <- Hk1.
    apply (fold_left_invariant
             (fun t' => Inv t' /\ (category_has_area t' cid k <-> category_has_area t1 cid k)));
      [|done].
    intros t' q0 [Hi <-]. split; [by apply Hinv|]. destruct Hi as [Hwf' Hin'].
    apply (addQuartile_members t' cid0 c0 q0 Hwf' Hin').
  - intros aid k. rewrite <- Ha1.
    apply (fold_left_invariant
             (fun t' => Inv t' /\ (area_has_category t' aid k <-> area_has_category t1 aid k)));
      [|done].
    intros t' q0 [Hi <-]. split; [by apply Hinv|]. destruct Hi as [Hwf' Hin'].
    apply (addQuartile_members t' cid0 c0 q0 Hwf' Hin').
Qed.

(** The second loop of [_build_taxonomy], for one exported area. *)
Lemma taxonomy_area_members t item :
  taxonomy_wellformed t ->
  taxonomy_wellformed (taxonomy_area t item)
  /\ (forall cid q, category_has_quartile (taxonomy_area t item) cid q
        <-> category_has_quartile t cid q)
  /\ (forall cid k, category_has_area (taxonomy_area t item) cid k
        <-> category_has_area t cid k
            \/ (cid ∈ item.2 /\ k <> "" /\ Py.strip item.1 = k))
  /\ (forall aid k, area_has_category (taxonomy_area t item) aid k
        <-> area_has_category t aid k
            \/ (aid = item.1 /\ Py.strip item.1 <> "" /\ k <> ""
                /\ exists cid, cid ∈ item.2 /\ Py.strip cid = k)).
Proof.
  intros Hwf. destruct item as [aid0 data]. unfold taxonomy_area. simpl.
  pose proof (taxonomy_wellformed_area_setdefault aid0 t Hwf) as Hwf1.
  destruct (area_setdefault_members aid0 t Hwf) as (Hin & Hq1 & Hk1 & Ha1).
  destruct (area_setdefault aid0 t) as [a0 t1]. simpl in *.
  set (step := fun (t' : Taxonomy) (cid : string) =>
                 let '(c, t2) := category_setdefault cid t' in
                 with_heap (Category_addArea c a0) t2).
  set (Inv := fun t' : Taxonomy => taxonomy_wellformed t' /\ (aid0, a0) ∈ area_map t').
  assert (Hstep : forall t' cid1, Inv t' ->
            Inv (step t' cid1)
            /\ (forall cid q, category_has_quartile (step t' cid1) cid q
                  <-> category_has_quartile t' cid q)
            /\ (forall cid k, category_has_area (step t' cid1) cid k
                  <-> category_has_area t' cid k
                      \/ (cid = cid1 /\ k <> "" /\ Py.strip aid0 = k))
            /\ (forall aid k, area_has_category (step t' cid1) aid k
                  <-> area_has_category t' aid k
                      \/ (aid = aid0 /\ Py.strip aid0 <> "" /\ k <> ""
                          /\ Py.strip cid1 = k))).
  { intros t' cid1 [Hwf' Hin']. unfold step.
    pose proof (taxonomy_wellformed_category_setdefault cid1 t' Hwf') as Hwf2.
    destruct (category_setdefault_members cid1 t' Hwf') as (Hc & Ham & Hq2 & Hk2 & Ha2).
    destruct (category_setdefault cid1 t') as [c t2]. simpl in *.
    assert (Hin2 : (aid0, a0) ∈ area_map t2) by (by rewrite Ham).
    destruct (addArea_members t2 cid1 c aid0 a0 Hwf2 Hc Hin2) as (Hq3 & Hk3 & Ha3).
    split; [split; [|done]|].
    - apply taxonomy_wellformed_heap; [| |done].
      + apply (run_call_ids (tx_heap t2) (CallAddArea c a0)).
      + apply (run_call_ids (tx_heap t2) (CallAddArea c a0)).
    - split; [|split].
      + intros cid q. by rewrite Hq3, Hq2.
      + intros cid k. by rewrite Hk3, Hk2.
      + intros aid k. by rewrite Ha3, Ha2. }
  assert (Hinv : forall t' cid1, Inv t' -> Inv (step t' cid1)).
  { intros t' cid1 Hi. by apply Hstep. }
  assert (Hstart : Inv t1) by done.
  split; [by apply (fold_left_invariant Inv)|]. split; [|split].
  - intros cid q. rewrite <- Hq1.
    apply (fold_left_invariant
             (fun t' => Inv t' /\ (category_has_quartile t' cid q
                                   <-> category_has_quartile t1 cid q))); [|done].
    intros t' cid1 [Hi <-]. split; [by apply Hinv|]. by apply Hstep.
  - intros cid k.
    pose proof (fold_holds Inv (fun t' (e : string * string) => category_has_area t' e.1 e.2)
                  step (fun cid1 e => e.1 = cid1 /\ e.2 <> "" /\ Py.strip aid0 = e.2)
                  Hinv) as H.
    simpl in H. rewrite (fun Hs => H Hs (elements data) t1 (cid, k) Hstart).
    + simpl. rewrite Hk1. split; (intros [?|H']; [by left|right]).
      * destruct H' as (cid1 & Hel & -> & Hk & Heq). split; [|done].
        by apply elem_of_elements.
      * destruct H' as (Hel & Hk & Heq). exists cid. split; [by apply elem_of_elements|done].
    + intros t' cid1 e Hi. by apply Hstep.
  - intros aid k.
    pose proof (fold_holds Inv (fun t' (e : string * string) => area_has_category t' e.1 e.2)
                  step (fun cid1 e => e.1 = aid0 /\ Py.strip aid0 <> "" /\ e.2 <> ""
                                      /\ Py.strip cid1 = e.2)
                  Hinv) as H.
    simpl in H. rewrite (fun Hs => H Hs (elements data) t1 (aid, k) Hstart).
    + simpl. rewrite Ha1. split; (intros [?|H']; [by left|right]).
      * destruct H' as (cid1 & Hel & -> & Ha & Hk & Heq). split; [done|].
        split; [done|]. split; [done|]. exists cid1. split; [by apply elem_of_elements|done].
      * destruct H' as (-> & Ha & Hk & cid1 & Hel & Heq). exists cid1.
        split; [by apply elem_of_elements|done].
    + intros t' cid1 e Hi. by apply Hstep.
Qed.

(** What the objects of the assembled taxonomy hold. *)
Lemma taxonomy_members exports :
  (forall cid q, category_has_quartile (build_taxonomy_from exports) cid q
     <-> q <> "" /\ exists data s, (cid, data) ∈ exp_categories exports
                     /\ s ∈ cd_quartiles data /\ Py.strip s = q)
  /\ (forall cid k, category_has_area (build_taxonomy_from exports) cid k
        <-> k <> "" /\ exists aid data, (aid, data) ∈ exp_areas exports
                        /\ cid ∈ data /\ Py.strip aid = k)
  /\ (forall aid k, area_has_category (build_taxonomy_from exports) aid k
        <-> Py.strip aid <> "" /\ k <> ""
            /\ exists data cid, (aid, data) ∈ exp_areas exports
                 /\ cid ∈ data /\ Py.strip cid = k).
Proof.
  unfold build_taxonomy_from.
  set (t0 := mkTaxonomy empty_heap [] []).
  set (t1 := fold_left taxonomy_category (exp_categories exports) t0).
  assert (Hwf0 : taxonomy_wellformed t0).
  { unfold taxonomy_wellformed. simpl. repeat split; try constructor.
    - intros cid c H. by apply elem_of_nil in H.
    - intros aid a H. by apply elem_of_nil in H. }
  assert (Hnone : forall (F : Category -> list string) cid x,
            ~ members (category_map t0) (heap_categories (tx_heap t0)) F cid x).
  { intros F cid x (i & X & Hi & _). by apply elem_of_nil in Hi. }
  assert (Hnone' : forall (F : Area -> list string) aid x,
            ~ members (area_map t0) (heap_areas (tx_heap t0)) F aid x).
  { intros F aid x (i & X & Hi & _). by apply elem_of_nil in Hi. }
  assert (Hinv1 : forall t item, taxonomy_wellformed t ->
                    taxonomy_wellformed (taxonomy_category t item)).
  { intros t item Hwf. by apply taxonomy_category_members. }
  assert (Hinv2 : forall t item, taxonomy_wellformed t ->
                    taxonomy_wellformed (taxonomy_area t item)).
  { intros t item Hwf. by apply taxonomy_area_members. }
  assert (Hwf1 : taxonomy_wellformed t1) by (by apply fold_left_invariant).
  assert (Hq1 : forall cid q, category_has_quartile t1 cid q
                  <-> q <> "" /\ exists data s, (cid, data) ∈ exp_categories exports
                                  /\ s ∈ cd_quartiles data /\ Py.strip s = q).
  { intros cid q.
    pose proof (fold_holds taxonomy_wellformed
                  (fun t' (e : string * string) => category_has_quartile t' e.1 e.2)
                  taxonomy_category
                  (fun item e => e.1 = item.1 /\ e.2 <> ""
                                 /\ exists s, s ∈ cd_quartiles item.2 /\ Py.strip s = e.2)
                  Hinv1) as H.
    simpl in H. unfold t1.
    rewrite (fun Hs => H Hs (exp_categories exports) t0 (cid, q) Hwf0).
    - simpl. split.
      + intros [H'|([cid' data] & Hin & -> & Hq & s & Hs & Heq)]; [by apply Hnone in H'|].
        split; [done|]. by exists data, s.
      + intros (Hq & data & s & Hin & Hs & Heq). right. exists (cid, data).
        split; [done|]. split; [done|]. split; [done|]. by exists s.
    - intros t item e Hwf. by apply taxonomy_category_members. }
  assert (Hk1 : forall cid k, ~ category_has_area t1 cid k).
  { intros cid k. unfold t1.
    apply (fold_left_invariant
             (fun t' => taxonomy_wellformed t' /\ ~ category_has_area t' cid k));
      [|split; [done|apply Hnone]].
    intros t item [Hwf Hn]. split; [by apply Hinv1|].
    intros H. apply Hn. by apply (taxonomy_category_members t item Hwf). }
  assert (Ha1 : forall aid k, ~ area_has_category t1 aid k).
  { intros aid k. unfold t1.
    apply (fold_left_invariant
             (fun t' => taxonomy_wellformed t' /\ ~ area_has_category t' aid k));
      [|split; [done|apply Hnone']].
    intros t item [Hwf Hn]. split; [by apply Hinv1|].
    intros H. apply Hn. by apply (taxonomy_category_members t item Hwf). }
  split; [|split].
  - intros cid q. rewrite <- Hq1.
    apply (fold_left_invariant
             (fun t' => taxonomy_wellformed t'
                        /\ (category_has_quartile t' cid q <-> category_has_quartile t1 cid q)));
      [|done].
    intros t item [Hwf <-]. split; [by apply Hinv2|].
    by apply (taxonomy_area_members t item Hwf).
  - intros cid k.
    pose proof (fold_holds taxonomy_wellformed
                  (fun t' (e : string * string) => category_has_area t' e.1 e.2)
                  taxonomy_area
                  (fun item e => e.1 ∈ item.2 /\ e.2 <> "" /\ Py.strip item.1 = e.2)
                  Hinv2) as H.
    simpl in H. rewrite (fun Hs => H Hs (exp_areas exports) t1 (cid, k) Hwf1).
    + simpl. split.
      * intros [H'|([aid data] & Hin & Hel & Hk & Heq)]; [by apply Hk1 in H'|].
        split; [done|]. by exists aid, data.
      * intros (Hk & aid & data & Hin & Hel & Heq). right. by exists (aid, data).
    + intros t item e Hwf. by apply taxonomy_area_members.
  - intros aid k.
    pose proof (fold_holds taxonomy_wellformed
                  (fun t' (e : string * string) => area_has_category t' e.1 e.2)
                  taxonomy_area
                  (fun item e => e.1 = item.1 /\ Py.strip item.1 <> "" /\ e.2 <> ""
                                 /\ exists cid, cid ∈ item.2 /\ Py.strip cid = e.2)
                  Hinv2) as H.
    simpl in H. rewrite (fun Hs => H Hs (exp_areas exports) t1 (aid, k) Hwf1).
    + simpl. split.
      * intros [H'|([aid' data] & Hin & -> & Ha & Hk & cid & Hel & Heq)];
          [by apply Ha1 in H'|].
        split; [done|]. split; [done|]. by exists data, cid.
      * intros (Ha & Hk & data & cid & Hin & Hel & Heq). right. exists (aid, data).
        split; [done|]. split; [done|]. split; [done|]. split; [done|]. by exists cid.
    + intros t item e Hwf. by apply taxonomy_area_members.
Qed.

End taxonomy_contents_steps.

Section taxonomy_contents_at.

Lemma members_at {T : Type} (m : odict nat) (l : list T) (F : T -> list string)
    key i X x :
  NoDup (od_keys m) -> (key, i) ∈ m -> l !! i = Some X ->
  members m l F key x <-> x ∈ F X.
Proof.
  intros Hnd Hin HX. unfold members. split.
  - intros (i' & X' & Hin' & HX' & Hx).
    assert (i' = i) as -> by (by apply (odict_keys_inj m key)). congruence.
  - intros Hx. by exists i, X.
Qed.

(** With well-formed link dictionaries, the keys of [_areas] are the
    identifiers of the areas [getAreas] returns. *)
Lemma linked_area_ids h c C k :
  links_wellformed h -> heap_categories h !! c = Some C ->
  k ∈ od_keys (cat_areas C)
  <-> exists r A, r ∈ Category_getAreas C /\ heap_areas h !! r = Some A /\ Area_getId A = k.
Proof.
  intros [Hl _] HC. destruct (Hl c C HC) as [_ Hent].
  unfold Category_getAreas, od_keys, od_values. split.
  - intros ([k' r] & -> & Hin)%list_elem_of_fmap. simpl.
    destruct (Hent k' r Hin) as (_ & A & HA & Hid). exists r, A.
    split; [|done]. apply list_elem_of_fmap. by exists (k', r).
  - intros (r & A & ([k' r'] & -> & Hin)%list_elem_of_fmap & HA & Hid). simpl in HA.
    destruct (Hent k' r' Hin) as (_ & A' & HA' & Hid').
    apply list_elem_of_fmap. exists (k', r'). split; [|done]. simpl. congruence.
Qed.

Lemma linked_category_ids h a A k :
  links_wellformed h -> heap_areas h !! a = Some A ->
  k ∈ od_keys (area_categories A)
  <-> exists r C, r ∈ Area_getCategories A /\ heap_categories h !! r = Some C
                  /\ Category_getId C = k.
Proof.
  intros [_ Hl] HA. destruct (Hl a A HA) as [_ Hent].
  unfold Area_getCategories, od_keys, od_values. split.
  - intros ([k' r] & -> & Hin)%list_elem_of_fmap. simpl.
    destruct (Hent k' r Hin) as (_ & C & HC & Hid). exists r, C.
    split; [|done]. apply list_elem_of_fmap. by exists (k', r).
  - intros (r & C & ([k' r'] & -> & Hin)%list_elem_of_fmap & HC & Hid). simpl in HC.
    destruct (Hent k' r' Hin) as (_ & C' & HC' & Hid').
    apply list_elem_of_fmap. exists (k', r'). split; [|done]. simpl. congruence.
Qed.

End taxonomy_contents_at.

(** X17. What the objects of the assembled taxonomy hold, for any merged
    export. The category kept under a key has exactly the exported
    quartiles of that key, trimmed, the empty ones left out. The areas
    that [getAreas] returns for it have exactly the trimmed, non-empty
    keys of the exported areas that list the category: the [areas] sets
    exported with the categories are not read. The categories that
    [getCategories] returns for the area kept under a key have exactly
    the trimmed, non-empty identifiers the exported area lists, and none
    when the trimmed key of the area is empty. *)
Theorem taxonomy_contents (e : BasicQueryEngine) :
  (forall cid c C,
     (cid, c) ∈ category_map (_build_taxonomy e).1 ->
     heap_categories (tx_heap (_build_taxonomy e).1) !! c = Some C ->
     (forall q, q ∈ Category_getQuartiles C
        <-> q <> ""
            /\ exists data s, (cid, data) ∈ exp_categories (_build_taxonomy e).2
                 /\ s ∈ cd_quartiles data /\ Py.strip s = q)
     /\ (forall k,
           (exists r A, r ∈ Category_getAreas C
              /\ heap_areas (tx_heap (_build_taxonomy e).1) !! r = Some A
              /\ Area_getId A = k)
           <-> k <> ""
               /\ exists aid data, (aid, data) ∈ exp_areas (_build_taxonomy e).2
                    /\ cid ∈ data /\ Py.strip aid = k))
  /\ (forall aid a A,
        (aid, a) ∈ area_map (_build_taxonomy e).1 ->
        heap_areas (tx_heap (_build_taxonomy e).1) !! a = Some A ->
        forall k,
          (exists r C, r ∈ Area_getCategories A
             /\ heap_categories (tx_heap (_build_taxonomy e).1) !! r = Some C
             /\ Category_getId C = k)
          <-> Py.strip aid <> "" /\ k <> ""
              /\ exists data cid, (aid, data) ∈ exp_areas (_build_taxonomy e).2
                   /\ cid ∈ data /\ Py.strip cid = k).
Proof.
  unfold _build_taxonomy. simpl.
  set (exports := _collect_category_exports e).
  destruct (taxonomy_members exports) as (Hq & Hk & Ha).
  destruct (taxonomy_wellformed_built exports) as (Hnd1 & Hnd2 & _).
  pose proof (links_wellformed_built exports) as Hl.
  split.
  - intros cid c C Hin HC. split.
    + intros q. rewrite <- Hq. symmetry.
      by apply (members_at _ _ Category_getQuartiles cid c C).
    + intros k. rewrite <- Hk, <- (linked_area_ids _ c C k Hl HC). symmetry.
      by apply (members_at _ _ (fun C => od_keys (cat_areas C)) cid c C).
  - intros aid a A Hin HA k.
    rewrite <- Ha, <- (linked_category_ids _ a A k Hl HA). symmetry.
    by apply (members_at _ _ (fun A => od_keys (area_categories A)) aid a A).
Qed.

(** ** Loading records into the in-memory store *)

Section add_records_facts.

Lemma od_get_set {V : Type} k k' (v : V) (d : odict V) :
  od_get k (od_set k' v d) = if String.eqb k k' then Some v else od_get k d.
Proof.
  unfold od_set, od_mem. destruct (od_get k' d) as [v'|] eqn:Hk'.
  - rewrite od_get_alter. destruct (String.eqb_spec k k') as [->|_]; [|done].
    by rewrite Hk'.
  - rewrite od_get_app. simpl. destruct (String.eqb_spec k k') as [->|_].
    + by rewrite Hk'.
    + by destruct (od_get k d).
Qed.

Lemma normalise_remove_hyphens s :
  _normalise_identifier (Some (Py.remove_hyphens s)) = _normalise_identifier (Some s).
Proof. rewrite !normalise_without_strip. apply re_sub_remove_hyphens. Qed.

(** The index after one record: the record takes every normal form of
    its identifiers. *)
Lemma od_get_index_record key index rec :
  key <> "" ->
  od_get key (index_record index rec)
  = if record_owns key rec then Some (rec_id rec) else od_get key index.
Proof.
  intros Hkey. unfold index_record, record_owns. revert index.
  induction (rec_identifiers rec) as [|i ids IH]; intros index;
    cbn [fold_left existsb]; [done|].
  rewrite IH. cbv zeta. destruct (existsb _ ids); [by rewrite orb_true_r|].
  rewrite orb_false_r.
  destruct (Py.truthy (_normalise_identifier (Some i))) eqn:Ht.
  - rewrite normalise_remove_hyphens, !od_get_set. rewrite (String.eqb_sym key).
    by destruct (String.eqb (_normalise_identifier (Some i)) key).
  - assert (_normalise_identifier (Some i) = "") as ->.
    { destruct (decide (_normalise_identifier (Some i) = "")) as [?|Hne]; [done|].
      apply truthy_true in Hne. congruence. }
    destruct (String.eqb_spec "" key) as [<-|_]; done.
Qed.

(** The index after a batch: a normal form belongs to the last record of
    the batch that has it. *)
Lemma od_get_index_records key index records :
  key <> "" ->
  od_get key (fold_left index_record records index)
  = match last (List.filter (record_owns key) records) with
    | Some rec => Some (rec_id rec)
    | None => od_get key index
    end.
Proof.
  intros Hkey. revert index. induction records as [|rec records IH]; intros index;
    simpl; [done|].
  rewrite IH, od_get_index_record by done.
  destruct (record_owns key rec); [|done]. rewrite last_cons.
  by destruct (last (List.filter (record_owns key) records)).
Qed.

Lemma drop_last_sublist l : sublist (drop_duplicates_id_last l) l.
Proof.
  induction l as [|r l IH]; simpl; [constructor|].
  destruct (bool_decide _); [by apply sublist_cons|by apply sublist_skip].
Qed.

Lemma drop_last_ids l x :
  x ∈ row_id <$> drop_duplicates_id_last l <-> x ∈ row_id <$> l.
Proof.
  induction l as [|r l IH]; simpl; [done|].
  destruct (bool_decide (row_id r ∈ row_id <$> l)) eqn:Hin.
  - apply bool_decide_eq_true in Hin. rewrite IH, elem_of_cons. split; [by right|].
    intros [-> |?]; done.
  - simpl. by rewrite !elem_of_cons, IH.
Qed.

Lemma drop_last_NoDup l : NoDup (row_id <$> drop_duplicates_id_last l).
Proof.
  induction l as [|r l IH]; simpl; [constructor|].
  destruct (bool_decide (row_id r ∈ row_id <$> l)) eqn:Hin; [done|].
  apply bool_decide_eq_false in Hin. simpl. apply NoDup_cons. split; [|done].
  by rewrite drop_last_ids.
Qed.

(** After the duplicates are dropped, an identifier has the last of its rows. *)
Lemma drop_last_filter l x :
  List.filter (fun r => bool_decide (row_id r = x)) (drop_duplicates_id_last l)
  = option_list (last (List.filter (fun r => bool_decide (row_id r = x)) l)).
Proof.
  induction l as [|r l IH]; simpl; [done|].
  destruct (bool_decide (row_id r ∈ row_id <$> l)) eqn:Hin.
  - apply bool_decide_eq_true in Hin. rewrite IH.
    destruct (bool_decide (row_id r = x)) eqn:Hx; [|done].
    apply bool_decide_eq_true in Hx. rewrite last_cons.
    destruct (last (List.filter _ l)) eqn:Hl; [done|]. exfalso.
    apply last_None in Hl. apply list_elem_of_fmap in Hin as (r' & Hid & Hr').
    assert (H : r' ∈ List.filter (fun r => bool_decide (row_id r = x)) l).
    { apply elem_of_filter. split; [done|]. apply bool_decide_eq_true. congruence. }
    rewrite Hl in H. by apply elem_of_nil in H.
  - apply bool_decide_eq_false in Hin. simpl.
    destruct (bool_decide (row_id r = x)) eqn:Hx; [|done].
    apply bool_decide_eq_true in Hx. rewrite IH.
    rewrite (filter_none _ l); [done|]. intros r' Hr'. apply bool_decide_eq_false.
    intros Hid. apply Hin. apply list_elem_of_fmap. exists r'. split; [congruence|done].
Qed.

Lemma add_records_index records s :
  store_index (add_records records s) = fold_left index_record records (store_index s).
Proof. by destruct records. Qed.

Lemma add_records_frame_eq records s :
  records <> [] ->
  store_frame (add_records records s)
  = if frame_empty (store_frame s) then from_records records
    else mkFrame (union_columns (columns (store_frame s)) COLUMNS)
                 (drop_duplicates_id_last
                    (rows (store_frame s) ++ (record_row <$> records))).
Proof.
  destruct records as [|rec records]; [done|]. intros _. unfold add_records.
  cbv zeta. cbn [store_frame]. destruct (frame_empty (store_frame s)); [done|].
  unfold pd_concat. cbn [fmap list_fmap fold_left concat columns rows from_records].
  by rewrite union_columns_nil, app_nil_r.
Qed.

Lemma record_rows_by_id records id :
  List.filter (fun r => bool_decide (row_id r = Some id)) (record_row <$> records)
  = record_row <$> List.filter (fun rec => bool_decide (rec_id rec = id)) records.
Proof.
  rewrite filter_fmap. f_equal. apply List.filter_ext. intros rec. simpl.
  apply bool_decide_ext. split; [by intros [= ->]|by intros ->].
Qed.

(** The rows that the store has for the identifier of a record of the
    batch it was given last. *)
Lemma add_records_rows_of records s rec :
  rec ∈ records ->
  exists rec',
    last (List.filter (fun r => bool_decide (rec_id r = rec_id rec)) records) = Some rec'
    /\ List.filter (fun r => bool_decide (row_id r = Some (rec_id rec)))
                   (rows (store_frame (add_records records s)))
       = if frame_empty (store_frame s)
         then record_row <$> List.filter (fun r => bool_decide (rec_id r = rec_id rec)) records
         else [record_row rec'].
Proof.
  intros Hin.
  assert (Hne : records <> []) by (intros ->; by apply elem_of_nil in Hin).
  assert (Hsome : is_Some (last (List.filter (fun r => bool_decide (rec_id r = rec_id rec))
                                             records))).
  { apply last_is_Some. intros Hnil.
    assert (H : rec ∈ List.filter (fun r => bool_decide (rec_id r = rec_id rec)) records)
      by (apply elem_of_filter; split; [done|by apply bool_decide_eq_true]).
    rewrite Hnil in H. by apply elem_of_nil in H. }
  destruct Hsome as [rec' Hrec']. exists rec'. split; [done|].
  rewrite add_records_frame_eq by done.
  destruct (frame_empty (store_frame s)); cbn [rows from_records].
  - apply record_rows_by_id.
  - rewrite drop_last_filter, List.filter_app, record_rows_by_id, last_app, fmap_last, Hrec'.
    done.
Qed.

End add_records_facts.

(** The store keeps a table of [COLUMNS]: the store of [__init__] has one,
    and [add_records] makes one of one. *)
Lemma add_records_table records s :
  table COLUMNS (store_frame s) -> table COLUMNS (store_frame (add_records records s)).
Proof.
  intros Hs. destruct records as [|rec records]; [done|].
  assert (Hnew : table COLUMNS (from_records (rec :: records))).
  { split; [done|]. intros r Hr. unfold from_records in Hr. cbn [rows] in Hr.
    by apply list_elem_of_fmap in Hr as (rec' & -> & _). }
  unfold add_records. cbn [store_frame].
  destruct (frame_empty (store_frame s)); [done|].
  destruct (pd_concat_tables COLUMNS (store_frame s) [from_records (rec :: records)])
    as [Hc Hr]; [by apply Forall_cons; split; [|apply Forall_singleton]|].
  split; [done|]. cbn [rows]. intros r Hin. apply Hr.
  by apply (elem_of_sublist _ _ _ Hin (drop_last_sublist _)).
Qed.

Lemma load_batches_table batches :
  table COLUMNS (store_frame (load_batches batches (mkStore (DataFrame_columns COLUMNS) []))).
Proof.
  assert (H : forall s, table COLUMNS (store_frame s) ->
                        table COLUMNS (store_frame (load_batches batches s))).
  { unfold load_batches. induction batches as [|records batches IH]; intros s Hs; [done|].
    simpl. by apply IH, add_records_table. }
  apply H, table_empty.
Qed.

Section add_records_lookup.

Lemma elem_of_union_columns col cs ds :
  col ∈ union_columns cs ds <-> col ∈ cs \/ col ∈ ds.
Proof.
  split.
  - unfold union_columns. rewrite elem_of_app, elem_of_filter. tauto.
  - intros [?|?]; [by apply union_columns_keep|by apply union_columns_add].
Qed.

Lemma add_records_has_id records s :
  records <> [] -> "id" ∈ columns (store_frame (add_records records s)).
Proof.
  intros Hne. rewrite add_records_frame_eq by done.
  destruct (frame_empty (store_frame s)); cbn [columns from_records].
  - apply elem_of_cons. by left.
  - apply union_columns_add, elem_of_cons. by left.
Qed.

(** A lookup whose index entry names an identifier that has rows. *)
Lemma by_identifier_indexed s i jid r :
  Py.truthy i = true -> Py.truthy jid = true ->
  od_get (_normalise_identifier (Some i)) (store_index s) = Some jid ->
  "id" ∈ columns (store_frame s) ->
  r ∈ rows (store_frame s) -> row_id r = Some jid ->
  by_identifier s (Some i)
  = Ok (loc (fun r => bool_decide (row_id r = Some jid)) (store_frame s)).
Proof.
  intros Hi Hid Hidx Hcol Hr Hrid. unfold by_identifier.
  cbv zeta. cbn [Py.truthy_opt default from_option id]. rewrite Hi. cbn [negb].
  rewrite Hidx. cbn [Py.truthy_opt]. rewrite Hid. cbn [Py.truthy_opt]. rewrite Hid.
  rewrite (column_ok "id") by done. simpl mbind.
  assert (Hne : frame_empty (loc (fun r => bool_decide (row_id r = Some jid)) (store_frame s))
                = false).
  { assert (Hin : r ∈ rows (loc (fun r => bool_decide (row_id r = Some jid)) (store_frame s))).
    { unfold loc. cbn [rows]. apply elem_of_filter. split; [done|].
      by apply bool_decide_eq_true. }
    unfold frame_empty.
    destruct (rows (loc _ (store_frame s))) as [|r0 rs]; [by apply elem_of_nil in Hin|].
    unfold loc. cbn [columns].
    destruct (columns (store_frame s)); [by apply elem_of_nil in Hcol|done]. }
  by rewrite Hne.
Qed.

End add_records_lookup.

(** X18. [add_records]: an empty batch changes nothing. When the table of
    the store is empty, the batch becomes the table as it is, its
    duplicates included. Otherwise the batch is appended and of the rows
    with one [id] the last stays: the [id]s of the table are distinct, the
    order of the rows that stay is kept, every record of the batch is found
    under its [id] as the last record of the batch with that [id], and an
    [id] the batch does not have keeps the last of its old rows. In the
    index a non-empty normal form belongs to the last record of the batch
    with an identifier of that normal form, and other entries stay. *)
Theorem add_records_keeps_last :
  (forall s, add_records [] s = s)
  /\ (forall s records, records <> [] -> frame_empty (store_frame s) = true ->
        store_frame (add_records records s) = from_records records)
  /\ (forall s records, records <> [] -> frame_empty (store_frame s) = false ->
        (forall col, col ∈ columns (store_frame (add_records records s))
           <-> col ∈ columns (store_frame s) \/ col ∈ COLUMNS)
        /\ sublist (rows (store_frame (add_records records s)))
                   (rows (store_frame s) ++ (record_row <$> records))
        /\ NoDup (row_id <$> rows (store_frame (add_records records s)))
        /\ (forall rec, rec ∈ records ->
              exists rec',
                last (List.filter (fun r => bool_decide (rec_id r = rec_id rec)) records)
                = Some rec'
                /\ List.filter (fun r => bool_decide (row_id r = Some (rec_id rec)))
                               (rows (store_frame (add_records records s)))
                   = [record_row rec'])
        /\ (forall x, (forall rec, rec ∈ records -> Some (rec_id rec) <> x) ->
              List.filter (fun r => bool_decide (row_id r = x))
                          (rows (store_frame (add_records records s)))
              = option_list (last (List.filter (fun r => bool_decide (row_id r = x))
                                               (rows (store_frame s))))))
  /\ (forall s records key, key <> "" ->
        od_get key (store_index (add_records records s))
        = match last (List.filter (record_owns key) records) with
          | Some rec => Some (rec_id rec)
          | None => od_get key (store_index s)
          end).
Proof.
  split; [done|]. split; [|split].
  - intros s records Hne Hempty. by rewrite add_records_frame_eq, Hempty.
  - intros s records Hne Hempty.
    pose proof (add_records_frame_eq records s Hne) as Hf. rewrite Hempty in Hf.
    split; [|split; [|split; [|split]]].
    + intros col. rewrite Hf. apply elem_of_union_columns.
    + rewrite Hf. apply drop_last_sublist.
    + rewrite Hf. apply drop_last_NoDup.
    + intros rec Hin. destruct (add_records_rows_of records s rec Hin) as (rec' & Hl & Hr).
      rewrite Hempty in Hr. by exists rec'.
    + intros x Hx. rewrite Hf. cbn [rows].
      rewrite drop_last_filter, List.filter_app.
      rewrite (filter_none _ (record_row <$> records)); [by rewrite app_nil_r|].
      intros r (rec & -> & Hin)%list_elem_of_fmap. apply bool_decide_eq_false.
      by apply Hx.
  - intros s records key Hkey. rewrite add_records_index. by apply od_get_index_records.
Qed.

(** X19. A lookup after a load. When a batch was added to a store, an
    identifier with a non-empty normal form that some record of the batch
    has is answered from the index: with the rows that the table has under
    the [id] of the last record of the batch with an identifier of that
    normal form, which is another journal when a later record shares the
    identifier. These are the one row of the last record with that [id],
    or, when the table was empty before, the rows of all records of the
    batch with that [id]. *)
Theorem loaded_record_found (s : InMemoryJournalStore) (records : list JournalRecord)
    (i : string) (rec : JournalRecord) :
  last (List.filter (record_owns (_normalise_identifier (Some i))) records) = Some rec ->
  _normalise_identifier (Some i) <> "" ->
  rec_id rec <> "" ->
  exists f rec',
    by_identifier (add_records records s) (Some i) = Ok f
    /\ columns f = columns (store_frame (add_records records s))
    /\ last (List.filter (fun r => bool_decide (rec_id r = rec_id rec)) records) = Some rec'
    /\ rows f = (if frame_empty (store_frame s)
                 then record_row <$>
                        List.filter (fun r => bool_decide (rec_id r = rec_id rec)) records
                 else [record_row rec'])
    /\ record_row rec' ∈ rows f.
Proof.
  intros Hlast Hkey Hid.
  assert (Hin : rec ∈ records).
  { apply last_Some_elem_of in Hlast. by apply elem_of_filter in Hlast as [? _]. }
  assert (Hne : records <> []) by (intros ->; by apply elem_of_nil in Hin).
  destruct (add_records_rows_of records s rec Hin) as (rec' & Hrec' & Hrows).
  assert (Hin' : rec' ∈ List.filter (fun r => bool_decide (rec_id r = rec_id rec)) records)
    by (by apply last_Some_elem_of).
  assert (Hrow : record_row rec'
                 ∈ List.filter (fun r => bool_decide (row_id r = Some (rec_id rec)))
                               (rows (store_frame (add_records records s)))).
  { rewrite Hrows. destruct (frame_empty (store_frame s)).
    - apply list_elem_of_fmap. by exists rec'.
    - apply elem_of_cons. by left. }
  assert (Hi : Py.truthy i = true).
  { apply truthy_true. intros ->. by apply Hkey. }
  exists (loc (fun r => bool_decide (row_id r = Some (rec_id rec)))
              (store_frame (add_records records s))), rec'.
  split; [|split; [done|split; [done|split; [exact Hrows|exact Hrow]]]].
  apply elem_of_filter in Hrow as [Hrow Hrid]. apply bool_decide_eq_true in Hrid.
  apply (by_identifier_indexed _ i (rec_id rec) (record_row rec')); try done.
  - by apply truthy_true.
  - rewrite add_records_index, od_get_index_records by done. by rewrite Hlast.
  - by apply add_records_has_id.
Qed.

Lemma loaded_record_found_witness :
  exists f rec',
    by_identifier (add_records sample_records loaded_store) (Some "ACTA ") = Ok f
    /\ columns f = columns (store_frame (add_records sample_records loaded_store))
    /\ last (List.filter (fun r => bool_decide (rec_id r = "9999-0000")) sample_records)
       = Some rec'
    /\ rows f = [record_row rec']
    /\ record_row rec' ∈ rows f.
Proof.
  apply (loaded_record_found loaded_store sample_records "ACTA "
           (mkJournalRecord "9999-0000" "Acta" "" "9999-0000" [] "Q" true "CC0" true
                            ["9999-0000"; "Acta"])).
  - reflexivity.
  - discriminate.
  - discriminate.
Defined.

(** ** Handlers and the stores of the process *)

Section journal_stores.

Lemma od_get_repository_init endpoint endpoint' stores :
  od_get endpoint' (SparqlJournalRepository_init endpoint stores)
  = if String.eqb endpoint' endpoint
    then Some (default InMemoryJournalStore_init (od_get endpoint stores))
    else od_get endpoint' stores.
Proof.
  unfold SparqlJournalRepository_init. rewrite od_get_setdefault.
  destruct (String.eqb_spec endpoint' endpoint) as [->|Hne].
  - by destruct (od_get endpoint stores).
  - by destruct (od_get endpoint' stores).
Qed.

Lemma od_get_pushDataToDb records up stores endpoint endpoint' :
  repository_endpoint up = Some endpoint ->
  od_get endpoint' (pushDataToDb_records records up stores)
  = if String.eqb endpoint' endpoint
    then add_records records <$> od_get endpoint' stores
    else od_get endpoint' stores.
Proof. intros Hup. unfold pushDataToDb_records. rewrite Hup. apply od_get_alter. Qed.

End journal_stores.

(** X20. Configuring a journal handler and the stores of the process. An
    argument that is not a string is refused and changes nothing, an
    earlier repository included. A string is accepted: the handler keeps
    it trimmed and gets the repository of that endpoint, whose store is
    the one the process already has for the endpoint, or a new empty one;
    no other store changes. So the records loaded through one handler are
    seen through every handler of the same endpoint and through no handler
    of another endpoint: an upload handler and a query handler set to
    addresses that are equal when trimmed share their journals, and a
    query handler created later finds what was loaded before. *)
Theorem stores_shared_by_endpoint (str_contains : string -> outcome (option string -> bool)) :
  (forall h stores, JournalQueryHandler_setDbPathOrUrl None h stores = (false, h, stores))
  /\ (forall s h stores,
        exists h' stores',
          JournalQueryHandler_setDbPathOrUrl (Some s) h stores = (true, h', stores')
          /\ getDbPathOrUrl h' = Py.strip s
          /\ repository_endpoint h' = Some (Py.strip s)
          /\ od_get (Py.strip s) stores'
             = Some (default InMemoryJournalStore_init (od_get (Py.strip s) stores))
          /\ (forall endpoint, endpoint <> Py.strip s ->
                od_get endpoint stores' = od_get endpoint stores))
  /\ (forall records up stores,
        repository_endpoint up = None -> pushDataToDb_records records up stores = stores)
  /\ (forall records up h stores e1 e2,
        repository_endpoint up = Some e1 -> repository_endpoint h = Some e2 ->
        JournalQueryHandler_now h (pushDataToDb_records records up stores)
        = if decide (e1 = e2)
          then mkJournalQueryHandler (add_records records <$> od_get e2 stores)
          else JournalQueryHandler_now h stores)
  /\ (forall s1 s2 records stores,
        Py.strip s1 = Py.strip s2 ->
        JournalQueryHandler_call str_contains
          (JournalQueryHandler_now
             (JournalQueryHandler_setDbPathOrUrl
                (Some s2) JournalHandlerState_init
                (JournalUploadHandler_setDbPathOrUrl
                   (Some s1) JournalHandlerState_init stores).2).1.2
             (pushDataToDb_records records
                (JournalUploadHandler_setDbPathOrUrl
                   (Some s1) JournalHandlerState_init stores).1.2
                (JournalQueryHandler_setDbPathOrUrl
                   (Some s2) JournalHandlerState_init
                   (JournalUploadHandler_setDbPathOrUrl
                      (Some s1) JournalHandlerState_init stores).2).2))
          call_getAllJournals
        = Ok (Some (store_frame
                      (add_records records
                         (default InMemoryJournalStore_init
                                  (od_get (Py.strip s1) stores))))))
  /\ (forall s records stores h,
        repository_endpoint h = Some (Py.strip s) ->
        od_get (Py.strip s) stores <> None ->
        JournalQueryHandler_now
          (JournalQueryHandler_setDbPathOrUrl (Some s) JournalHandlerState_init
             (pushDataToDb_records records h stores)).1.2
          (JournalQueryHandler_setDbPathOrUrl (Some s) JournalHandlerState_init
             (pushDataToDb_records records h stores)).2
        = JournalQueryHandler_now h (pushDataToDb_records records h stores)).
Proof.
  split; [done|]. split; [|split; [|split; [|split]]].
  - intros s h stores. eexists _, _. split; [reflexivity|].
    cbn [getDbPathOrUrl dbPathOrUrl repository_endpoint]. split; [done|]. split; [done|].
    split.
    + by rewrite od_get_repository_init, String.eqb_refl.
    + intros endpoint Hne. rewrite od_get_repository_init.
      by destruct (String.eqb_spec endpoint (Py.strip s)).
  - intros records up stores Hup. unfold pushDataToDb_records. by rewrite Hup.
  - intros records up h stores e1 e2 Hup Hh. unfold JournalQueryHandler_now.
    rewrite Hh. simpl. rewrite (od_get_pushDataToDb records up stores e1 e2 Hup).
    destruct (decide (e1 = e2)) as [->|Hne]; [by rewrite String.eqb_refl|].
    by destruct (String.eqb_spec e2 e1) as [->|_].
  - intros s1 s2 records stores Heq.
    unfold JournalUploadHandler_setDbPathOrUrl, JournalQueryHandler_setDbPathOrUrl.
    cbn [Handler_setDbPathOrUrl negb fst snd getDbPathOrUrl dbPathOrUrl].
    unfold JournalQueryHandler_call, JournalQueryHandler_now.
    unfold pushDataToDb_records. cbn [repository_endpoint jq_repository]. simpl.
    rewrite od_get_alter, <- Heq, String.eqb_refl, !od_get_repository_init.
    rewrite String.eqb_refl. simpl. done.
  - intros s records stores h Hh Hsome.
    unfold JournalQueryHandler_setDbPathOrUrl.
    cbn [Handler_setDbPathOrUrl negb fst snd getDbPathOrUrl dbPathOrUrl].
    unfold JournalQueryHandler_now. cbn [repository_endpoint]. rewrite Hh. simpl.
    rewrite od_get_repository_init, String.eqb_refl.
    rewrite (od_get_pushDataToDb records h stores (Py.strip s) (Py.strip s) Hh).
    rewrite String.eqb_refl. by destruct (od_get (Py.strip s) stores).
Qed.

(** ** Lookups in a store that was only loaded *)

Section loaded_stores.

Lemma record_owns_spec key rec :
  record_owns key rec = true
  <-> exists i, i ∈ rec_identifiers rec /\ _normalise_identifier (Some i) = key.
Proof.
  unfold record_owns. rewrite existsb_exists. split.
  - intros (i & Hin & Heq). exists i. split; [by apply list_elem_of_In|].
    by apply String.eqb_eq.
  - intros (i & Hin & Heq). exists i. split; [by apply list_elem_of_In|].
    by apply String.eqb_eq.
Qed.

Lemma last_filter_owner key records :
  match last (List.filter (record_owns key) records) with
  | Some rec => rec ∈ records /\ record_owns key rec = true
  | None => forall rec, rec ∈ records -> record_owns key rec = false
  end.
Proof.
  destruct (last (List.filter (record_owns key) records)) as [rec|] eqn:Hl.
  - apply last_Some_elem_of in Hl. by apply elem_of_filter in Hl.
  - apply last_None in Hl. intros rec Hin.
    destruct (record_owns key rec) eqn:Ho; [|done]. exfalso.
    assert (H : rec ∈ List.filter (record_owns key) records)
      by (by apply elem_of_filter).
    rewrite Hl in H. by apply elem_of_nil in H.
Qed.

Lemma COLUMNS_lookup : "id" ∈ COLUMNS /\ "identifiers" ∈ COLUMNS.
Proof. split; apply list_elem_of_In; simpl; tauto. Qed.

Lemma store_loaded_init : store_loaded InMemoryJournalStore_init [].
Proof.
  split; [|split; [|split]].
  - exact COLUMNS_lookup.
  - intros key v _ H. done.
  - intros key _. split; [by intros [? ?]|].
    intros (records & rec & H & _). by apply elem_of_nil in H.
  - intros r i H. by apply elem_of_nil in H.
Qed.

Lemma add_records_rows_ids records s x :
  records <> [] ->
  "id" ∈ columns (store_frame s) ->
  x ∈ row_id <$> rows (store_frame (add_records records s))
  <-> x ∈ row_id <$> rows (store_frame s) \/ x ∈ row_id <$> (record_row <$> records).
Proof.
  intros Hne Hcol. rewrite add_records_frame_eq by done.
  destruct (frame_empty (store_frame s)) eqn:Hempty; cbn [rows from_records].
  - assert (rows (store_frame s) = []) as ->.
    { unfold frame_empty in Hempty. destruct (rows (store_frame s)); [done|].
      destruct (columns (store_frame s)); [by apply elem_of_nil in Hcol|done]. }
    split; [by right|]. intros [H|?]; [by apply elem_of_nil in H|done].
  - by rewrite drop_last_ids, fmap_app, elem_of_app.
Qed.

Lemma add_records_rows_from records s r :
  records <> [] ->
  r ∈ rows (store_frame (add_records records s)) ->
  r ∈ rows (store_frame s) \/ exists rec, rec ∈ records /\ r = record_row rec.
Proof.
  intros Hne. rewrite add_records_frame_eq by done.
  destruct (frame_empty (store_frame s)); cbn [rows from_records].
  - intros (rec & -> & Hin)%list_elem_of_fmap. right. by exists rec.
  - intros Hin. apply (fun H => elem_of_sublist _ _ _ H (drop_last_sublist _)) in Hin.
    apply elem_of_app in Hin as [?|(rec & -> & Hin)%list_elem_of_fmap]; [by left|].
    right. by exists rec.
Qed.

(** One more batch keeps the store a loaded one. *)
Lemma store_loaded_add_records records s past :
  (forall rec, rec ∈ records -> rec_id rec <> "") ->
  store_loaded s past -> store_loaded (add_records records s) (past ++ [records]).
Proof.
  intros Hids ([Hc1 Hc2] & Hval & Hkeys & Hrows).
  destruct (decide (records = [])) as [->|Hne].
  - cbn [add_records]. split; [done|]. split; [done|]. split; [|done].
    intros key Hkey. rewrite (Hkeys key Hkey). split.
    + intros (records & rec & Hin & Hrec). exists records, rec.
      split; [apply elem_of_app; by left|done].
    + intros (records & rec & Hin & Hrec & Ho). exists records, rec.
      apply elem_of_app in Hin as [?|Hin]; [done|].
      apply list_elem_of_singleton in Hin as ->. by apply elem_of_nil in Hrec.
  - split; [|split; [|split]].
    + rewrite add_records_frame_eq by done.
      destruct (frame_empty (store_frame s)); cbn [columns from_records].
      * exact COLUMNS_lookup.
      * split; by apply union_columns_keep.
    + intros key v Hkey. rewrite add_records_index, od_get_index_records by done.
      pose proof (last_filter_owner key records) as Hown.
      destruct (last (List.filter (record_owns key) records)) as [rec|].
      * intros [= <-]. destruct Hown as [Hin _]. split; [by apply Hids|].
        apply add_records_rows_ids; [done|done|]. right.
        apply list_elem_of_fmap. exists (record_row rec). split; [done|].
        apply list_elem_of_fmap. by exists rec.
      * intros Hget. destruct (Hval key v Hkey Hget) as [Hv Hrow]. split; [done|].
        apply add_records_rows_ids; [done|done|]. by left.
    + intros key Hkey. rewrite add_records_index, od_get_index_records by done.
      pose proof (last_filter_owner key records) as Hown.
      destruct (last (List.filter (record_owns key) records)) as [rec|].
      * split; [|by eexists]. intros _. destruct Hown as [Hin Ho].
        exists records, rec. split; [apply elem_of_app; right; by apply list_elem_of_singleton|].
        done.
      * rewrite (Hkeys key Hkey). split.
        -- intros (records' & rec & Hin & Hrec). exists records', rec.
           split; [apply elem_of_app; by left|done].
        -- intros (records' & rec & Hin & Hrec & Ho). exists records', rec.
           apply elem_of_app in Hin as [?|Hin]; [done|].
           apply list_elem_of_singleton in Hin as ->.
           rewrite (Hown rec Hrec) in Ho. done.
    + intros r i Hr Hi Hnorm.
      rewrite add_records_index, od_get_index_records by done.
      pose proof (last_filter_owner (_normalise_identifier (Some i)) records) as Hown.
      destruct (last (List.filter (record_owns (_normalise_identifier (Some i))) records))
        as [rec|]; [by eexists|].
      apply add_records_rows_from in Hr as [Hr|(rec & Hrec & ->)]; [| |done].
      * by apply (Hrows r i).
      * exfalso. assert (Ho : record_owns (_normalise_identifier (Some i)) rec = true).
        { apply record_owns_spec. by exists i. }
        rewrite (Hown rec Hrec) in Ho. done.
Qed.

Lemma store_loaded_batches batches :
  (forall records rec, records ∈ batches -> rec ∈ records -> rec_id rec <> "") ->
  store_loaded (load_batches batches InMemoryJournalStore_init) batches.
Proof.
  unfold load_batches. induction batches as [|records batches IH] using rev_ind; intros Hids.
  - apply store_loaded_init.
  - rewrite fold_left_app. cbn [fold_left]. apply store_loaded_add_records.
    + intros rec Hrec. apply (Hids records); [|done]. apply elem_of_app. right.
      by apply list_elem_of_singleton.
    + apply IH. intros records' rec Hin Hrec. apply (Hids records'); [|done].
      apply elem_of_app. by left.
Qed.

(** A lookup in a loaded store is the lookup in its index. *)
Lemma by_identifier_loaded s past i :
  store_loaded s past ->
  _normalise_identifier (Some i) <> "" ->
  exists f,
    by_identifier s (Some i) = Ok f
    /\ (rows f <> []
        <-> exists records rec, records ∈ past /\ rec ∈ records
              /\ record_owns (_normalise_identifier (Some i)) rec = true)
    /\ (forall r, r ∈ rows f ->
          r ∈ rows (store_frame s)
          /\ exists v, od_get (_normalise_identifier (Some i)) (store_index s) = Some v
                       /\ row_id r = Some v).
Proof.
  intros ([Hc1 Hc2] & Hval & Hkeys & Hrows) Hnorm.
  assert (Hi : Py.truthy i = true).
  { apply truthy_true. intros ->. by apply Hnorm. }
  destruct (od_get (_normalise_identifier (Some i)) (store_index s)) as [v|] eqn:Hget.
  - destruct (Hval _ v Hnorm Hget) as [Hv (r & Hrid & Hr)%list_elem_of_fmap].
    exists (loc (fun r => bool_decide (row_id r = Some v)) (store_frame s)).
    split; [|split].
    + apply (by_identifier_indexed s i v r); try done. by apply truthy_true.
    + rewrite <- (Hkeys _ Hnorm), Hget. split; [by eexists|]. intros _ Hnil.
      assert (H : r ∈ rows (loc (fun r => bool_decide (row_id r = Some v)) (store_frame s))).
      { unfold loc. cbn [rows]. apply elem_of_filter. split; [done|].
        by apply bool_decide_eq_true. }
      rewrite Hnil in H. by apply elem_of_nil in H.
    + intros r' Hr'. unfold loc in Hr'. cbn [rows] in Hr'.
      apply elem_of_filter in Hr' as [Hin Hid]. apply bool_decide_eq_true in Hid.
      split; [done|]. by exists v.
  - exists (DataFrame_columns COLUMNS). split; [|split].
    + unfold by_identifier. cbv zeta. cbn [Py.truthy_opt default from_option id].
      rewrite Hi. cbn [negb]. rewrite Hget. cbn [Py.truthy_opt].
      rewrite normalise_remove_hyphens, Hget. cbn [Py.truthy_opt].
      rewrite (column_ok "identifiers") by done. unfold mbind, outcome_bind.
      assert (Hnone : rows (loc (fun r => existsb
                                  (fun i0 => String.eqb (_normalise_identifier (Some i))
                                                        (_normalise_identifier (Some i0)))
                                  (row_identifiers r)) (store_frame s)) = []).
      { unfold loc. cbn [rows]. apply filter_none. intros r Hr.
        destruct (existsb _ (row_identifiers r)) eqn:Hex; [|done]. exfalso.
        apply existsb_exists in Hex as (i0 & Hi0 & Heq). apply String.eqb_eq in Heq.
        apply list_elem_of_In in Hi0.
        destruct (Hrows r i0 Hr Hi0) as [v Hv]; [congruence|]. congruence. }
      unfold frame_empty. by rewrite Hnone.
    + cbn [rows DataFrame_columns]. split; [done|]. intros Hex.
      apply (Hkeys _ Hnorm) in Hex as [v Hv]. congruence.
    + intros r Hr. by apply elem_of_nil in Hr.
Qed.

End loaded_stores.

(** X21. A store that was only ever loaded, batch after batch from the
    empty store, with records whose [id] is not empty: the lookup of an
    identifier with a non-empty normal form does not raise, and it finds
    rows exactly when some record that was loaded, in whatever batch, has
    an identifier of that normal form, also when the row of that record
    was replaced since. The rows found are rows of the table and all have
    the [id] the index has for the normal form: the scan of the table that
    the code falls back to never finds a row there. *)
Theorem lookup_finds_what_was_loaded (batches : list (list JournalRecord)) (i : string) :
  (forall records rec, records ∈ batches -> rec ∈ records -> rec_id rec <> "") ->
  _normalise_identifier (Some i) <> "" ->
  exists f,
    by_identifier (load_batches batches InMemoryJournalStore_init) (Some i) = Ok f
    /\ (rows f <> []
        <-> exists records rec, records ∈ batches /\ rec ∈ records
              /\ record_owns (_normalise_identifier (Some i)) rec = true)
    /\ (forall r, r ∈ rows f ->
          r ∈ rows (store_frame (load_batches batches InMemoryJournalStore_init))
          /\ exists v,
               od_get (_normalise_identifier (Some i))
                      (store_index (load_batches batches InMemoryJournalStore_init)) = Some v
               /\ row_id r = Some v).
Proof.
  intros Hids Hnorm. apply by_identifier_loaded; [|done]. by apply store_loaded_batches.
Qed.

Lemma lookup_finds_what_was_loaded_witness :
  exists f,
    by_identifier (load_batches [sample_records; sample_records] InMemoryJournalStore_init)
                  (Some "1234 5678") = Ok f
    /\ (rows f <> []
        <-> exists records rec, records ∈ [sample_records; sample_records] /\ rec ∈ records
              /\ record_owns (_normalise_identifier (Some "1234 5678")) rec = true)
    /\ (forall r, r ∈ rows f ->
          r ∈ rows (store_frame (load_batches [sample_records; sample_records]
                                              InMemoryJournalStore_init))
          /\ exists v,
               od_get (_normalise_identifier (Some "1234 5678"))
                      (store_index (load_batches [sample_records; sample_records]
                                                 InMemoryJournalStore_init)) = Some v
               /\ row_id r = Some v).
Proof.
  apply (lookup_finds_what_was_loaded [sample_records; sample_records] "1234 5678").
  - intros records rec Hin Hrec.
    assert (Hs : records = sample_records).
    { apply elem_of_cons in Hin as [?|Hin]; [done|].
      by apply list_elem_of_singleton in Hin. }
    subst records. unfold sample_records in Hrec.
    apply elem_of_cons in Hrec as [-> |Hrec]; [discriminate|].
    apply list_elem_of_singleton in Hrec as ->. discriminate.
  - discriminate.
Defined.
